(** * A shallow embedding of the game-activity OpenGL sample renderer

    The development follows [Shader.cpp] and [Renderer.cpp].  Calls into
    OpenGL ES, EGL, the asset loader and the input queue are recorded as
    a trace of events; what those libraries answer is a parameter of the
    model.  Single precision numbers are IEEE binary32 values of the
    standard library's [SpecFloat].  Output to [aout] (logcat) is not
    part of the model. *)

From Stdlib Require Import ZArith Sorting.Sorted Floats.SpecFloat.
From stdpp Require Import base option list strings gmap.

Local Open Scope Z_scope.

(** ** Single precision arithmetic *)

Module F32.

Definition prec : Z := 24.
Definition emax : Z := 128.

Definition float : Type := spec_float.

(** [float(n)] for an integer [n] *)
Definition of_int (n : Z) : float := binary_normalize prec emax n 0 false.

Definition add : float -> float -> float := SFadd prec emax.
Definition sub : float -> float -> float := SFsub prec emax.
Definition mul : float -> float -> float := SFmul prec emax.
Definition div : float -> float -> float := SFdiv prec emax.
Definition opp : float -> float := SFopp.
Definition ltb : float -> float -> bool := SFltb.
Definition eqb : float -> float -> bool := SFeqb.

(** The literals of the source, as the nearest binary32 value. *)
Definition zero : float := S754_zero false.                (* 0.f *)
Definition one : float := S754_finite false 8388608 (-23). (* 1.f *)
Definition two : float := S754_finite false 8388608 (-22). (* 2.f *)
Definition four : float := S754_finite false 8388608 (-21). (* 4.f *)
Definition lit_1_25 : float := S754_finite false 10485760 (-23). (* 1.25f *)
Definition lit_2_5 : float := S754_finite false 10485760 (-22).  (* 2.5f *)
Definition lit_0_1 : float := S754_finite false 13421773 (-27).  (* 0.1f *)
Definition lit_0_0001 : float := S754_finite false 13743895 (-37).  (* 0.0001f *)
Definition lit_0_00001 : float := S754_finite false 10995116 (-40). (* 0.00001f *)
Definition lit_256 : float := S754_finite false 8388608 (-15).   (* 256.f *)

End F32.

Abbreviation float := F32.float.

(** ** OpenGL ES, EGL and input constants (from the platform headers) *)

Definition GLenum := Z.
Definition GLuint := Z.
Definition GLint := Z.
Definition EGLint := Z.

Definition GL_FALSE : Z := 0.
Definition GL_TRUE : Z := 1.
Definition GL_TRIANGLES : GLenum := 4.
Definition GL_UNSIGNED_SHORT : GLenum := 5123.
Definition GL_FLOAT : GLenum := 5126.
Definition GL_TEXTURE_2D : GLenum := 3553.
Definition GL_TEXTURE0 : GLenum := 33984.
Definition GL_FRAGMENT_SHADER : GLenum := 35632.
Definition GL_VERTEX_SHADER : GLenum := 35633.
Definition GL_COMPILE_STATUS : GLenum := 35713.
Definition GL_LINK_STATUS : GLenum := 35714.
Definition GL_INFO_LOG_LENGTH : GLenum := 35716.
Definition GL_DEPTH_BUFFER_BIT : Z := 256.
Definition GL_COLOR_BUFFER_BIT : Z := 16384.

Definition EGLHandle := Z.
Definition EGL_NO_DISPLAY : EGLHandle := 0.
Definition EGL_NO_SURFACE : EGLHandle := 0.
Definition EGL_NO_CONTEXT : EGLHandle := 0.

Definition AMOTION_EVENT_ACTION_MASK : Z := 255.
Definition AMOTION_EVENT_ACTION_POINTER_INDEX_MASK : Z := 65280.
Definition AMOTION_EVENT_ACTION_POINTER_INDEX_SHIFT : Z := 8.
Definition AMOTION_EVENT_ACTION_DOWN : Z := 0.
Definition AMOTION_EVENT_ACTION_UP : Z := 1.
Definition AMOTION_EVENT_ACTION_MOVE : Z := 2.
Definition AMOTION_EVENT_ACTION_CANCEL : Z := 3.
Definition AMOTION_EVENT_ACTION_POINTER_DOWN : Z := 5.
Definition AMOTION_EVENT_ACTION_POINTER_UP : Z := 6.

(** ** Geometry and textures *)

(** Modelled from the spec: [Vector3], [Vector2], [Vertex] and [Index]
    are declared in Model.h, which is not among the sources.  A vertex
    is a position of three floats followed by a texture coordinate of
    two floats; an index is a small unsigned integer. *)
Record Vector3 := { v3x : float; v3y : float; v3z : float }.
Record Vector2 := { v2x : float; v2y : float }.
Record Vertex := { position : Vector3; uv : Vector2 }.
Definition Index := Z.

(** [sizeof(Vertex)] and [sizeof(Vector3)]: five and three floats. *)
Definition sizeof_Vertex : Z := 20.
Definition sizeof_Vector3 : Z := 12.

(** A [std::shared_ptr<T>] is a reference that may be null. *)
Definition shared_ptr (T : Type) : Type := option T.

(** Modelled from the spec: [TextureAsset] (TextureAsset.h is not among
    the sources) is a GPU-resident image with a numeric handle, shared
    by reference.  A texture object lives at an address; two handles
    denote the same GPU resource exactly when they hold the same
    object. *)
Record TextureAsset := { address : nat; textureID : GLuint }.

(** Modelled from the spec: [Model] (Model.h) owns a sequence of
    vertices, a sequence of indices and an optional shared texture, and
    gives access to them. *)
Record Model := {
  vertices_ : list Vertex;
  indices_ : list Index;
  spTexture_ : shared_ptr TextureAsset
}.

Definition getVertexData (m : Model) : list Vertex := vertices_ m.
Definition getIndexData (m : Model) : list Index := indices_ m.
Definition getIndexCount (m : Model) : Z := Z.of_nat (length (indices_ m)).

(** Modelled from the spec: the projection matrix is built by
    [Utility::buildOrthographicMatrix] (Utility.cpp is not among the
    sources) from a half height, an aspect ratio and the near and far
    planes; a matrix is identified by these four arguments. *)
Record Matrix4 := OrthographicMatrix {
  halfHeight : float; aspect : float; near : float; far : float
}.

(** ** Events: the calls that leave the program *)

Inductive Event :=
  | CreateShader (type : GLenum) (ret : GLuint)
  | ShaderSource (shader : GLuint) (source : string)
  | CompileShader (shader : GLuint)
  | GetShaderiv (shader : GLuint) (pname : GLenum) (ret : GLint)
  | GetShaderInfoLog (shader : GLuint)
  | DeleteShader (shader : GLuint)
  | CreateProgram (ret : GLuint)
  | AttachShader (program shader : GLuint)
  | LinkProgram (program : GLuint)
  | GetProgramiv (program : GLuint) (pname : GLenum) (ret : GLint)
  | GetProgramInfoLog (program : GLuint)
  | DeleteProgram (program : GLuint)
  | GetAttribLocation (program : GLuint) (name : string) (ret : GLint)
  | GetUniformLocation (program : GLuint) (name : string) (ret : GLint)
  | UseProgram (program : GLuint)
  | VertexAttribPointer (index : GLint) (size : Z) (type : GLenum)
      (normalized : Z) (stride : Z) (data : list Vertex) (offset : Z)
  | EnableVertexAttribArray (index : GLint)
  | DisableVertexAttribArray (index : GLint)
  | ActiveTexture (unit : GLenum)
  | BindTexture (target : GLenum) (texture : GLuint)
  | DrawElements (mode : GLenum) (count : Z) (type : GLenum) (indices : list Index)
  | UniformMatrix4fv (location : GLint) (count : Z) (transpose : bool) (value : Matrix4)
  | Clear (mask : Z)
  | Viewport (x y width height : Z)
  | ClearColor (r g b a : float)
  | Enable (cap : string)
  | BlendFunc (sfactor dfactor : string)
  | DepthFunc (func : string)
  | DepthMask (flag : Z)
  | EglMakeCurrent (display draw read context : EGLHandle)
  | EglDestroyContext (display context : EGLHandle)
  | EglDestroySurface (display surface : EGLHandle)
  | EglTerminate (display : EGLHandle)
  | EglSwapBuffers (display surface : EGLHandle) (ret : bool)
  | LoadAsset (assetPath : string) (ret : shared_ptr TextureAsset)
  | ClearMotionEvents
  | ClearKeyEvents.

Definition Trace := list Event.

(** ** Computations that emit events

    [None] stands for a run that does not return normally: an assertion
    that fails or a step the language leaves undefined (a null or
    out-of-range access). *)

Definition GL (A : Type) : Type := option (A * Trace).

Definition ret {A} (a : A) : GL A := Some (a, []).

Definition bind {A B} (m : GL A) (k : A -> GL B) : GL B :=
  match m with
  | None => None
  | Some (a, t1) =>
      match k a with
      | None => None
      | Some (b, t2) => Some (b, t1 ++ t2)
      end
  end.

Definition emit (e : Event) : GL unit := Some (tt, [e]).
Definition crash {A} : GL A := None.

Declare Scope gl_scope.
Delimit Scope gl_scope with gl.
Notation "'let*' x ':=' m 'in' k" := (bind m (fun x => k))
  (at level 10, x name, m at level 100, k at level 200) : gl_scope.
Notation "m ';;;' k" := (bind m (fun _ => k))
  (at level 100, k at level 200, right associativity) : gl_scope.
Local Open Scope gl_scope.

(** ** Shader.cpp *)

(** What the GL implementation answers to the queries of one program
    construction. *)
Record GLDriver := {
  drv_glCreateShader : GLenum -> GLuint;
  drv_glGetShaderiv : GLuint -> GLenum -> GLint;
  drv_glCreateProgram : GLuint;
  drv_glGetProgramiv : GLuint -> GLenum -> GLint;
  drv_glGetAttribLocation : GLuint -> string -> GLint;
  drv_glGetUniformLocation : GLuint -> string -> GLint
}.

(** Modelled from the spec: the members of [Shader] (Shader.h is not
    among the sources): the linked program and the locations of the
    position attribute, of the UV attribute (-1 when absent) and of the
    projection uniform. *)
Record Shader := {
  program_ : GLuint;
  position_ : GLint;
  uv_ : GLint;
  projectionMatrix_ : GLint
}.

Module Shader.

Section Construction.
Variable drv : GLDriver.

Definition glCreateShader (type : GLenum) : GL GLuint :=
  let r := drv_glCreateShader drv type in
  emit (CreateShader type r) ;;; ret r.

Definition glGetShaderiv (shader : GLuint) (pname : GLenum) : GL GLint :=
  let r := drv_glGetShaderiv drv shader pname in
  emit (GetShaderiv shader pname r) ;;; ret r.

Definition glCreateProgram : GL GLuint :=
  let r := drv_glCreateProgram drv in
  emit (CreateProgram r) ;;; ret r.

Definition glGetProgramiv (program : GLuint) (pname : GLenum) : GL GLint :=
  let r := drv_glGetProgramiv drv program pname in
  emit (GetProgramiv program pname r) ;;; ret r.

Definition glGetAttribLocation (program : GLuint) (name : string) : GL GLint :=
  let r := drv_glGetAttribLocation drv program name in
  emit (GetAttribLocation program name r) ;;; ret r.

Definition glGetUniformLocation (program : GLuint) (name : string) : GL GLint :=
  let r := drv_glGetUniformLocation drv program name in
  emit (GetUniformLocation program name r) ;;; ret r.

(** [GLuint Shader::loadShader(GLenum shaderType, const std::string &shaderSource)]:
    compiles one stage; 0 when the stage could not be created or
    compiled.  [Utility::assertGlError] is taken to pass. *)
Definition loadShader_type (shaderType : GLenum) (shaderSource : string) : GL GLuint :=
  let* shader := glCreateShader shaderType in
  if shader =? 0 then ret shader
  else
    emit (ShaderSource shader shaderSource) ;;;
    emit (CompileShader shader) ;;;
    let* shaderCompiled := glGetShaderiv shader GL_COMPILE_STATUS in
    if shaderCompiled =? 0 then
      let* infoLength := glGetShaderiv shader GL_INFO_LOG_LENGTH in
      (if infoLength =? 0 then ret tt else emit (GetShaderInfoLog shader)) ;;;
      emit (DeleteShader shader) ;;;
      ret 0
    else ret shader.

(** The block guarded by [if (program)]: [inl] is a [return] taken
    inside the block, [inr] the value of [shader] when control falls
    out of the block. *)
Definition linkAndResolve (program : GLuint) (vertexShader fragmentShader : GLuint)
    (positionAttributeName uvAttributeName projectionMatrixUniformName : string)
    : GL (option Shader + option Shader) :=
  emit (AttachShader program vertexShader) ;;;
  emit (AttachShader program fragmentShader) ;;;
  emit (LinkProgram program) ;;;
  let* linkStatus := glGetProgramiv program GL_LINK_STATUS in
  if negb (linkStatus =? GL_TRUE) then
    let* logLength := glGetProgramiv program GL_INFO_LOG_LENGTH in
    (if logLength =? 0 then ret tt else emit (GetProgramInfoLog program)) ;;;
    emit (DeleteProgram program) ;;;
    ret (inr None)
  else
    let* positionAttribute := glGetAttribLocation program positionAttributeName in
    if positionAttribute =? -1 then
      emit (DeleteProgram program) ;;;
      ret (inl None)
    else
      let* uvAttribute :=
        (if String.eqb uvAttributeName "" then ret (-1)
         else glGetAttribLocation program uvAttributeName) in
      let* projectionMatrixUniform :=
        glGetUniformLocation program projectionMatrixUniformName in
      if projectionMatrixUniform =? -1 then
        emit (DeleteProgram program) ;;;
        ret (inl None)
      else if negb (positionAttribute =? -1) && negb (projectionMatrixUniform =? -1) then
        ret (inr (Some {| program_ := program;
                          position_ := positionAttribute;
                          uv_ := uvAttribute;
                          projectionMatrix_ := projectionMatrixUniform |}))
      else
        emit (DeleteProgram program) ;;;
        ret (inr None).

(** [Shader *Shader::loadShader(vertexSource, fragmentSource,
    positionAttributeName, uvAttributeName, projectionMatrixUniformName)];
    [None] is [nullptr]. *)
Definition loadShader (vertexSource fragmentSource : string)
    (positionAttributeName uvAttributeName projectionMatrixUniformName : string)
    : GL (option Shader) :=
  let* vertexShader := loadShader_type GL_VERTEX_SHADER vertexSource in
  if vertexShader =? 0 then ret None
  else
    let* fragmentShader := loadShader_type GL_FRAGMENT_SHADER fragmentSource in
    if fragmentShader =? 0 then
      emit (DeleteShader vertexShader) ;;;
      ret None
    else
      let* program := glCreateProgram in
      let* block :=
        (if program =? 0 then ret (inr None)
         else linkAndResolve program vertexShader fragmentShader
                positionAttributeName uvAttributeName projectionMatrixUniformName) in
      match block with
      | inl early => ret early
      | inr shader =>
          emit (DeleteShader vertexShader) ;;;
          emit (DeleteShader fragmentShader) ;;;
          ret shader
      end.
End Construction.

Definition activate (s : Shader) : GL unit := emit (UseProgram (program_ s)).
Definition deactivate (s : Shader) : GL unit := emit (UseProgram 0).

(** [model.getTexture()] dereferences the model's texture pointer. *)
Definition getTexture (model : Model) : GL TextureAsset :=
  match spTexture_ model with
  | Some t => ret t
  | None => crash
  end.

Definition drawModel (s : Shader) (model : Model) : GL unit :=
  emit (VertexAttribPointer (position_ s) 3 GL_FLOAT GL_FALSE sizeof_Vertex
          (getVertexData model) 0) ;;;
  emit (EnableVertexAttribArray (position_ s)) ;;;
  (if negb (uv_ s =? -1) then
     emit (VertexAttribPointer (uv_ s) 2 GL_FLOAT GL_FALSE sizeof_Vertex
             (getVertexData model) sizeof_Vector3) ;;;
     emit (EnableVertexAttribArray (uv_ s)) ;;;
     emit (ActiveTexture GL_TEXTURE0) ;;;
     let* texture := getTexture model in
     emit (BindTexture GL_TEXTURE_2D (textureID texture))
   else ret tt) ;;;
  emit (DrawElements GL_TRIANGLES (getIndexCount model) GL_UNSIGNED_SHORT
          (getIndexData model)) ;;;
  (if negb (uv_ s =? -1) then emit (DisableVertexAttribArray (uv_ s)) else ret tt) ;;;
  emit (DisableVertexAttribArray (position_ s)).

Definition setProjectionMatrix (s : Shader) (projectionMatrix : Matrix4) : GL unit :=
  emit (UniformMatrix4fv (projectionMatrix_ s) 1 false projectionMatrix).

End Shader.

(** ** GPU objects a trace leaves allocated *)

Inductive GLObject :=
  | ShaderObject (name : GLuint)
  | ProgramObject (name : GLuint).

Global Instance GLObject_eq_dec : EqDecision GLObject.
Proof. solve_decision. Defined.

Fixpoint remove_first (o : GLObject) (l : list GLObject) : list GLObject :=
  match l with
  | [] => []
  | x :: l' => if decide (x = o) then l' else x :: remove_first o l'
  end.

(** One step of the bookkeeping: a create call that returns a non-zero
    name allocates the object, a delete call releases it. *)
Definition track (live : list GLObject) (e : Event) : list GLObject :=
  match e with
  | CreateShader _ r => if r =? 0 then live else live ++ [ShaderObject r]
  | CreateProgram r => if r =? 0 then live else live ++ [ProgramObject r]
  | DeleteShader s => remove_first (ShaderObject s) live
  | DeleteProgram p => remove_first (ProgramObject p) live
  | _ => live
  end.

Definition unreleased (t : Trace) : list GLObject := fold_left track t [].

(** ** Renderer.cpp *)

(** The host application: [app_->activity->assetManager]. *)
Record GameActivity := { assetManager : option Z }.
Record android_app := { activity : option GameActivity }.

(** Modelled from the spec: the members of [Renderer] (Renderer.h is
    not among the sources) that Renderer.cpp reads and writes; [counter]
    is the single precision depth counter. *)
Record Renderer := {
  app_ : option android_app;
  display_ : EGLHandle;
  surface_ : EGLHandle;
  context_ : EGLHandle;
  width_ : EGLint;
  height_ : EGLint;
  shaderNeedsNewProjectionMatrix_ : bool;
  shader_ : option Shader;
  shaderRed_ : option Shader;
  models_ : list Model;
  modelsRed_ : list Model;
  textureCache_ : gmap string (shared_ptr TextureAsset);
  counter : float
}.

Definition set_egl (r : Renderer) (d s c : EGLHandle) : Renderer :=
  {| app_ := app_ r; display_ := d; surface_ := s; context_ := c;
     width_ := width_ r; height_ := height_ r;
     shaderNeedsNewProjectionMatrix_ := shaderNeedsNewProjectionMatrix_ r;
     shader_ := shader_ r; shaderRed_ := shaderRed_ r;
     models_ := models_ r; modelsRed_ := modelsRed_ r;
     textureCache_ := textureCache_ r; counter := counter r |}.

Definition set_area (r : Renderer) (w h : EGLint) : Renderer :=
  {| app_ := app_ r; display_ := display_ r; surface_ := surface_ r;
     context_ := context_ r; width_ := w; height_ := h;
     shaderNeedsNewProjectionMatrix_ := shaderNeedsNewProjectionMatrix_ r;
     shader_ := shader_ r; shaderRed_ := shaderRed_ r;
     models_ := models_ r; modelsRed_ := modelsRed_ r;
     textureCache_ := textureCache_ r; counter := counter r |}.

Definition set_needsProjection (r : Renderer) (b : bool) : Renderer :=
  {| app_ := app_ r; display_ := display_ r; surface_ := surface_ r;
     context_ := context_ r; width_ := width_ r; height_ := height_ r;
     shaderNeedsNewProjectionMatrix_ := b;
     shader_ := shader_ r; shaderRed_ := shaderRed_ r;
     models_ := models_ r; modelsRed_ := modelsRed_ r;
     textureCache_ := textureCache_ r; counter := counter r |}.

Definition set_shaders (r : Renderer) (s sRed : option Shader) : Renderer :=
  {| app_ := app_ r; display_ := display_ r; surface_ := surface_ r;
     context_ := context_ r; width_ := width_ r; height_ := height_ r;
     shaderNeedsNewProjectionMatrix_ := shaderNeedsNewProjectionMatrix_ r;
     shader_ := s; shaderRed_ := sRed;
     models_ := models_ r; modelsRed_ := modelsRed_ r;
     textureCache_ := textureCache_ r; counter := counter r |}.

Definition set_models (r : Renderer) (ms : list Model) : Renderer :=
  {| app_ := app_ r; display_ := display_ r; surface_ := surface_ r;
     context_ := context_ r; width_ := width_ r; height_ := height_ r;
     shaderNeedsNewProjectionMatrix_ := shaderNeedsNewProjectionMatrix_ r;
     shader_ := shader_ r; shaderRed_ := shaderRed_ r;
     models_ := ms; modelsRed_ := modelsRed_ r;
     textureCache_ := textureCache_ r; counter := counter r |}.

Definition set_modelsRed (r : Renderer) (ms : list Model) : Renderer :=
  {| app_ := app_ r; display_ := display_ r; surface_ := surface_ r;
     context_ := context_ r; width_ := width_ r; height_ := height_ r;
     shaderNeedsNewProjectionMatrix_ := shaderNeedsNewProjectionMatrix_ r;
     shader_ := shader_ r; shaderRed_ := shaderRed_ r;
     models_ := models_ r; modelsRed_ := ms;
     textureCache_ := textureCache_ r; counter := counter r |}.

Definition set_textureCache (r : Renderer)
    (c : gmap string (shared_ptr TextureAsset)) : Renderer :=
  {| app_ := app_ r; display_ := display_ r; surface_ := surface_ r;
     context_ := context_ r; width_ := width_ r; height_ := height_ r;
     shaderNeedsNewProjectionMatrix_ := shaderNeedsNewProjectionMatrix_ r;
     shader_ := shader_ r; shaderRed_ := shaderRed_ r;
     models_ := models_ r; modelsRed_ := modelsRed_ r;
     textureCache_ := c; counter := counter r |}.

Definition set_counter (r : Renderer) (c : float) : Renderer :=
  {| app_ := app_ r; display_ := display_ r; surface_ := surface_ r;
     context_ := context_ r; width_ := width_ r; height_ := height_ r;
     shaderNeedsNewProjectionMatrix_ := shaderNeedsNewProjectionMatrix_ r;
     shader_ := shader_ r; shaderRed_ := shaderRed_ r;
     models_ := models_ r; modelsRed_ := modelsRed_ r;
     textureCache_ := textureCache_ r; counter := c |}.

(** The input queue handed over by [android_app_swap_input_buffers]. *)
Record GameActivityPointerAxes := { pointer_id : Z; axis_x : float; axis_y : float }.
Definition GameActivityPointerAxes_getX (p : GameActivityPointerAxes) : float := axis_x p.
Definition GameActivityPointerAxes_getY (p : GameActivityPointerAxes) : float := axis_y p.

Record GameActivityMotionEvent := {
  action : Z;
  pointerCount : Z;
  pointers : list GameActivityPointerAxes
}.

Record GameActivityKeyEvent := { key_action : Z; keyCode : Z }.

Record android_input_buffer := {
  motionEvents : list GameActivityMotionEvent;
  keyEvents : list GameActivityKeyEvent
}.

(** What the surface answers during one frame. *)
Record Frame := {
  query_width : EGLint;
  query_height : EGLint;
  swapResult : bool
}.

(** What EGL and the GL implementation answer during initialisation: the
    handles created, whether the context could be made current, and the
    answers to the construction of the two shader programs. *)
Record InitEnv := {
  init_display : EGLHandle;
  init_surface : EGLHandle;
  init_context : EGLHandle;
  init_madeCurrent : bool;
  init_drv : GLDriver;
  init_drvRed : GLDriver
}.

Definition kProjectionHalfHeight : float := F32.two.
Definition kProjectionNearPlane : float := F32.opp F32.one.
Definition kProjectionFarPlane : float := F32.one.

(** Stateful computations of the renderer: the state is the [Renderer]
    object together with the state of the asset loader it talks to. *)
Definition StateT (S A : Type) : Type := S -> GL (A * S).

Definition sret {S A} (a : A) : StateT S A := fun s => ret (a, s).

Definition sbind {S A B} (m : StateT S A) (k : A -> StateT S B) : StateT S B :=
  fun s => bind (m s) (fun '(a, s') => k a s').

Definition lift {S A} (m : GL A) : StateT S A :=
  fun s => bind m (fun a => ret (a, s)).

Notation "'let+' x ':=' m 'in' k" := (sbind m (fun x => k))
  (at level 10, x name, m at level 100, k at level 200) : gl_scope.
Notation "m ';+' k" := (sbind m (fun _ => k))
  (at level 100, k at level 200, right associativity) : gl_scope.

Fixpoint for_each {S A} (l : list A) (body : A -> StateT S unit) : StateT S unit :=
  match l with
  | [] => sret tt
  | x :: l' => body x ;+ for_each l' body
  end.

Definition deref {S A} (p : option A) : StateT S A :=
  match p with
  | Some a => sret a
  | None => fun _ => crash
  end.

Definition non_null {A} (p : option A) : bool :=
  match p with Some _ => true | None => false end.

Definition assert {S} (b : bool) : StateT S unit :=
  if b then sret tt else fun _ => crash.

Definition get {S} : StateT S S := fun s => ret (s, s).
Definition modify {S} (f : S -> S) : StateT S unit := fun s => ret (tt, f s).

(** The shader sources of [Renderer.cpp]. *)
Definition vertex : string :=
"#version 300 es
in vec3 inPosition;
in vec2 inUV;

out vec2 fragUV;

uniform mat4 uProjection;

void main() {
    fragUV = inUV;
    gl_Position = uProjection * vec4(inPosition, 1.0);
}
".

Definition fragment : string :=
"#version 300 es
precision mediump float;

in vec2 fragUV;

uniform sampler2D uTexture;

out vec4 outColor;

void main() {
    outColor = texture(uTexture, fragUV);
}
".

Definition vertexRed : string :=
"#version 300 es
in vec3 inPosition;
in vec2 inUV;
out vec2 fragUV;
uniform mat4 uProjection;

void main() {
    fragUV = inUV;
    gl_Position = uProjection * vec4(inPosition, 1.0);
}".

Definition fragmentSolidRed : string :=
"#version 300 es
precision mediump float;
in vec2 fragUV;
out vec4 outColor;

void main() {
    outColor = vec4(1.0, 0.0, 0.0, 1.0);
}
".

Definition quad_indices : list Index := [0; 1; 2; 0; 2; 3].

Definition mkVertex (x y z u v : float) : Vertex :=
  {| position := {| v3x := x; v3y := y; v3z := z |};
     uv := {| v2x := u; v2y := v |} |}.

Module Renderer.

(** [Renderer::~Renderer] (the body; the members are destroyed after it) *)
Definition destructor : StateT Renderer unit :=
  let+ r := get in
  if negb (display_ r =? EGL_NO_DISPLAY) then
    lift (emit (EglMakeCurrent (display_ r) EGL_NO_SURFACE EGL_NO_SURFACE EGL_NO_CONTEXT)) ;+
    (if negb (context_ r =? EGL_NO_CONTEXT) then
       lift (emit (EglDestroyContext (display_ r) (context_ r))) ;+
       modify (fun r => set_egl r (display_ r) (surface_ r) EGL_NO_CONTEXT)
     else sret tt) ;+
    (if negb (surface_ r =? EGL_NO_SURFACE) then
       lift (emit (EglDestroySurface (display_ r) (surface_ r))) ;+
       modify (fun r => set_egl r (display_ r) EGL_NO_SURFACE (context_ r))
     else sret tt) ;+
    lift (emit (EglTerminate (display_ r))) ;+
    modify (fun r => set_egl r EGL_NO_DISPLAY (surface_ r) (context_ r))
  else sret tt.

(** [Renderer::updateRenderArea]; [width] and [height] are what
    [eglQuerySurface] reports. *)
Definition updateRenderArea (width height : EGLint) : StateT Renderer unit :=
  let+ r := get in
  if negb (width =? width_ r) || negb (height =? height_ r) then
    modify (fun r => set_area r width height) ;+
    lift (emit (Viewport 0 0 width height)) ;+
    modify (fun r => set_needsProjection r true)
  else sret tt.

(** the three calls [render] makes on each program to hand it the matrix *)
Definition uploadProjection (s : Shader) (projectionMatrix : Matrix4) : StateT Renderer unit :=
  lift (Shader.activate s) ;+
  lift (Shader.setProjectionMatrix s projectionMatrix) ;+
  lift (Shader.deactivate s).

(** one of the two draw blocks of [render]: nothing for an empty list *)
Definition drawBatch (s : option Shader) (models : list Model) : StateT Renderer unit :=
  match models with
  | [] => sret tt
  | _ =>
      let+ sh := deref s in
      lift (Shader.activate sh) ;+
      for_each models (fun model => lift (Shader.drawModel sh model)) ;+
      lift (Shader.deactivate sh)
  end.

(** [Renderer::render] *)
Definition render (f : Frame) : StateT Renderer unit :=
  updateRenderArea (query_width f) (query_height f) ;+
  let+ r := get in
  (if shaderNeedsNewProjectionMatrix_ r then
     let projectionMatrix :=
       OrthographicMatrix kProjectionHalfHeight
         (F32.div (F32.of_int (width_ r)) (F32.of_int (height_ r)))
         kProjectionNearPlane kProjectionFarPlane in
     let+ sh := deref (shader_ r) in
     uploadProjection sh projectionMatrix ;+
     let+ shRed := deref (shaderRed_ r) in
     uploadProjection shRed projectionMatrix ;+
     modify (fun r => set_needsProjection r false)
   else sret tt) ;+
  lift (emit (Clear (Z.lor GL_COLOR_BUFFER_BIT GL_DEPTH_BUFFER_BIT))) ;+
  let+ r := get in
  drawBatch (shaderRed_ r) (modelsRed_ r) ;+
  drawBatch (shader_ r) (models_ r) ;+
  lift (emit (EglSwapBuffers (display_ r) (surface_ r) (swapResult f))) ;+
  assert (swapResult f).

(** [Renderer::createBackground] *)
Definition createBackground : StateT Renderer unit :=
  let vertices :=
    [ mkVertex F32.lit_1_25 F32.two F32.zero F32.zero F32.zero;
      mkVertex (F32.opp F32.lit_1_25) F32.two F32.zero F32.zero F32.zero;
      mkVertex (F32.opp F32.lit_1_25) (F32.opp F32.two) F32.zero F32.zero F32.zero;
      mkVertex F32.lit_1_25 (F32.opp F32.two) F32.zero F32.zero F32.zero ] in
  let noTexture : shared_ptr TextureAsset := None in
  modify (fun r => set_modelsRed r
    (modelsRed_ r ++ [ {| vertices_ := vertices; indices_ := quad_indices;
                          spTexture_ := noTexture |} ])).

Section Assets.
(** [TextureAsset::loadAsset] is outside [Renderer.cpp]: it is a
    parameter, a function of the state of the asset store. *)
Context {AssetWorld : Type}.
Variable loadAsset : AssetWorld -> Z -> string -> shared_ptr TextureAsset * AssetWorld.

Definition World : Type := Renderer * AssetWorld.

Definition onRenderer {A} (m : StateT Renderer A) : StateT World A :=
  fun '(r, w) => bind (m r) (fun '(a, r') => ret (a, (r', w))).

(** [app_->activity->assetManager], when all three pointers are set *)
Definition availableAssetManager (r : Renderer) : option Z :=
  match app_ r with
  | None => None
  | Some app =>
      match activity app with
      | None => None
      | Some act => assetManager act
      end
  end.

(** [Renderer::getOrLoadTexture] *)
Definition getOrLoadTexture (assetPath : string) : StateT World (shared_ptr TextureAsset) :=
  fun '(r, w) =>
    match textureCache_ r !! assetPath with
    | Some it_second => ret (it_second, (r, w))
    | None =>
        match availableAssetManager r with
        | None => ret (None, (r, w))
        | Some manager =>
            let '(newTexture, w') := loadAsset w manager assetPath in
            emit (LoadAsset assetPath newTexture) ;;;
            match newTexture with
            | Some _ =>
                ret (newTexture,
                     (set_textureCache r (<[assetPath := newTexture]> (textureCache_ r)), w'))
            | None => ret (newTexture, (r, w'))
            end
        end
    end.

Definition emplace_back (m : Model) : StateT World unit :=
  onRenderer (modify (fun r => set_models r (models_ r ++ [m]))).

(** [Renderer::createModels] *)
Definition createModels : StateT World unit :=
  let+ s := get in
  let c := counter (fst s) in
  let vertices :=
    [ mkVertex F32.one F32.one c F32.zero F32.zero;
      mkVertex (F32.opp F32.one) F32.one c F32.one F32.zero;
      mkVertex (F32.opp F32.one) (F32.opp F32.one) c F32.one F32.one;
      mkVertex F32.one (F32.opp F32.one) c F32.zero F32.one ] in
  let+ spAndroidRobotTexture := getOrLoadTexture "android_robot.png" in
  (match spAndroidRobotTexture with
   | Some _ => emplace_back {| vertices_ := vertices; indices_ := quad_indices;
                               spTexture_ := spAndroidRobotTexture |}
   | None => sret tt
   end) ;+
  emplace_back {| vertices_ := vertices; indices_ := quad_indices;
                  spTexture_ := spAndroidRobotTexture |}.

(** [Renderer::drawRobotInPosition] *)
Definition robot_vertices (x y z : float) : list Vertex :=
  [ mkVertex (F32.add x F32.lit_0_1) (F32.add y F32.lit_0_1) z F32.zero F32.zero;
    mkVertex (F32.sub x F32.lit_0_1) (F32.add y F32.lit_0_1) z F32.one F32.zero;
    mkVertex (F32.sub x F32.lit_0_1) (F32.sub y F32.lit_0_1) z F32.one F32.one;
    mkVertex (F32.add x F32.lit_0_1) (F32.sub y F32.lit_0_1) z F32.zero F32.one ].

Definition drawRobotInPosition (x y z : float) : StateT World unit :=
  let vertices := robot_vertices x y z in
  let+ spAndroidRobotTexture := getOrLoadTexture "android_robot.png" in
  match spAndroidRobotTexture with
  | Some _ => emplace_back {| vertices_ := vertices; indices_ := quad_indices;
                              spTexture_ := spAndroidRobotTexture |}
  | None => sret tt
  end.

(** The body of the loop over the motion events of [handleInput]. *)
Definition handleMotionEvent (motionEvent : GameActivityMotionEvent) : StateT World unit :=
  let pointerIndex :=
    Z.shiftr (Z.land (action motionEvent) AMOTION_EVENT_ACTION_POINTER_INDEX_MASK)
             AMOTION_EVENT_ACTION_POINTER_INDEX_SHIFT in
  let+ pointer := deref (pointers motionEvent !! Z.to_nat pointerIndex) in
  let x := GameActivityPointerAxes_getX pointer in
  let y := GameActivityPointerAxes_getY pointer in
  let kind := Z.land (action motionEvent) AMOTION_EVENT_ACTION_MASK in
  if (kind =? AMOTION_EVENT_ACTION_DOWN) || (kind =? AMOTION_EVENT_ACTION_POINTER_DOWN) then
    let+ s := get in
    let r := fst s in
    drawRobotInPosition
      (F32.sub (F32.div (F32.mul F32.lit_2_5 x) (F32.of_int (width_ r))) F32.lit_1_25)
      (F32.add (F32.div (F32.mul (F32.opp F32.four) y) (F32.of_int (height_ r))) F32.two)
      (counter r) ;+
    onRenderer (modify (fun r => set_counter r (F32.add (counter r) F32.lit_0_00001)))
  else if kind =? AMOTION_EVENT_ACTION_MOVE then
    (* the loop reads pointers[index] for every index below pointerCount *)
    for_each (seq 0 (Z.to_nat (pointerCount motionEvent)))
      (fun index =>
         let+ pointer := deref (pointers motionEvent !! index) in
         sret tt)
  else sret tt.

(** [Renderer::handleInput]; [inputBuffer] is what
    [android_app_swap_input_buffers] returns. *)
Definition handleInput (inputBuffer : option android_input_buffer) : StateT World unit :=
  match inputBuffer with
  | None => sret tt
  | Some buffer =>
      for_each (motionEvents buffer) handleMotionEvent ;+
      lift (emit ClearMotionEvents) ;+
      for_each (keyEvents buffer) (fun _ => sret tt) ;+
      lift (emit ClearKeyEvents)
  end.

(** A sequence of requests to the cache, with the handles returned. *)
Fixpoint requests (keys : list string)
    : StateT World (list (shared_ptr TextureAsset)) :=
  match keys with
  | [] => sret []
  | key :: keys' =>
      let+ handle := getOrLoadTexture key in
      let+ handles := requests keys' in
      sret (handle :: handles)
  end.

(** [Renderer::initRenderer].  The negotiation of the EGL
    configuration only feeds the calls that create the surface and
    the context; their results are part of [InitEnv]. *)
Definition initRenderer (env : InitEnv) : StateT World unit :=
  let display := init_display env in
  let surface := init_surface env in
  let context := init_context env in
  lift (emit (EglMakeCurrent display surface surface context)) ;+
  assert (init_madeCurrent env) ;+
  onRenderer (modify (fun r => set_egl r display surface context)) ;+
  onRenderer (modify (fun r => set_area r (-1) (-1))) ;+
  let+ shader :=
    lift (Shader.loadShader (init_drv env) vertex fragment
            "inPosition" "inUV" "uProjection") in
  onRenderer (modify (fun r => set_shaders r shader (shaderRed_ r))) ;+
  assert (non_null shader) ;+
  let+ shaderRed :=
    lift (Shader.loadShader (init_drvRed env) vertexRed fragmentSolidRed
            "inPosition" "" "uProjection") in
  onRenderer (modify (fun r => set_shaders r (shader_ r) shaderRed)) ;+
  assert (non_null shaderRed) ;+
  lift (emit (ClearColor (F32.of_int 255) (F32.of_int 255) (F32.of_int 255) F32.zero)) ;+
  lift (emit (Enable "GL_BLEND")) ;+
  lift (emit (BlendFunc "GL_SRC_ALPHA" "GL_ONE_MINUS_SRC_ALPHA")) ;+
  lift (emit (Enable "GL_DEPTH_TEST")) ;+
  lift (emit (DepthFunc "GL_LESS")) ;+
  lift (emit (DepthMask GL_TRUE)) ;+
  onRenderer (modify (fun r => set_counter r F32.lit_0_0001)) ;+
  createModels ;+
  onRenderer createBackground ;+
  onRenderer (modify (fun r => set_counter r (F32.add (counter r) F32.lit_0_00001))).

End Assets.

End Renderer.

(** ** Renderer.cpp: the choice of the EGL configuration in [initRenderer] *)

Definition EGL_BLUE_SIZE : EGLint := 12322.
Definition EGL_GREEN_SIZE : EGLint := 12323.
Definition EGL_RED_SIZE : EGLint := 12324.
Definition EGL_DEPTH_SIZE : EGLint := 12325.

(** A configuration as [eglGetConfigAttrib] reports it: the value of an
    attribute, or nothing when the query fails. *)
Record EGLConfig := {
  config_handle : EGLHandle;
  eglGetConfigAttrib : EGLint -> option EGLint
}.

(** The predicate handed to [std::find_if]: the four queries succeed
    and report exactly 8, 8, 8 and 24 bits. *)
Definition acceptable (config : EGLConfig) : bool :=
  match eglGetConfigAttrib config EGL_RED_SIZE with
  | None => false
  | Some red =>
      match eglGetConfigAttrib config EGL_GREEN_SIZE with
      | None => false
      | Some green =>
          match eglGetConfigAttrib config EGL_BLUE_SIZE with
          | None => false
          | Some blue =>
              match eglGetConfigAttrib config EGL_DEPTH_SIZE with
              | None => false
              | Some depth =>
                  (red =? 8) && (green =? 8) && (blue =? 8) && (depth =? 24)
              end
          end
      end
  end.

(** [*std::find_if(supportedConfigs.get(), supportedConfigs.get() + numConfigs, ...)]:
    the first configuration the predicate accepts; without one the end
    of the array is dereferenced, which is undefined ([None]). *)
Fixpoint chooseConfig (supportedConfigs : list EGLConfig) : option EGLConfig :=
  match supportedConfigs with
  | [] => None
  | config :: rest => if acceptable config then Some config else chooseConfig rest
  end.

(** ** Concrete environments used to run the model *)

Module Examples.

(** A GL implementation on which the stages of [Renderer.cpp] compile
    (names 1 and 2) and the program (name 3) links; it knows the
    attributes [inPosition] and [inUV] and the uniform [uProjection],
    and answers -1 for every other name. *)
Definition drv_ok : GLDriver :=
  {| drv_glCreateShader := fun type => if type =? GL_VERTEX_SHADER then 1 else 2;
     drv_glGetShaderiv := fun _ pname => if pname =? GL_COMPILE_STATUS then 1 else 0;
     drv_glCreateProgram := 3;
     drv_glGetProgramiv := fun _ pname => if pname =? GL_LINK_STATUS then GL_TRUE else 0;
     drv_glGetAttribLocation := fun _ name =>
       if String.eqb name "inPosition" then 0
       else if String.eqb name "inUV" then 1 else -1;
     drv_glGetUniformLocation := fun _ name =>
       if String.eqb name "uProjection" then 0 else -1 |}.

(** An asset store that decodes every image: the [n]-th load yields a
    new texture object at address [n]. *)
Definition loader_ok (n : nat) (manager : Z) (assetPath : string)
    : shared_ptr TextureAsset * nat :=
  (Some {| address := n; textureID := Z.of_nat n + 1 |}, S n).

(** An asset store on which every load fails. *)
Definition loader_fail (n : nat) (manager : Z) (assetPath : string)
    : shared_ptr TextureAsset * nat :=
  (None, S n).

Definition app : android_app :=
  {| activity := Some {| assetManager := Some 7 |} |}.

(** A renderer on which [initRenderer] has not run yet. *)
Definition blank : Renderer :=
  {| app_ := Some app;
     display_ := EGL_NO_DISPLAY; surface_ := EGL_NO_SURFACE; context_ := EGL_NO_CONTEXT;
     width_ := 0; height_ := 0;
     shaderNeedsNewProjectionMatrix_ := true;
     shader_ := None; shaderRed_ := None;
     models_ := []; modelsRed_ := [];
     textureCache_ := ∅;
     counter := F32.zero |}.

Definition env_ok : InitEnv :=
  {| init_display := 11; init_surface := 12; init_context := 13;
     init_madeCurrent := true;
     init_drv := drv_ok;
     init_drvRed :=
       {| drv_glCreateShader := fun type => if type =? GL_VERTEX_SHADER then 4 else 5;
          drv_glGetShaderiv := drv_glGetShaderiv drv_ok;
          drv_glCreateProgram := 6;
          drv_glGetProgramiv := drv_glGetProgramiv drv_ok;
          drv_glGetAttribLocation := drv_glGetAttribLocation drv_ok;
          drv_glGetUniformLocation := drv_glGetUniformLocation drv_ok |} |}.

(** The renderer after a successful initialisation. *)
Definition initialised : option (Renderer * nat) :=
  match Renderer.initRenderer loader_ok env_ok (blank, 0%nat) with
  | Some (_, s, _) => Some s
  | None => None
  end.

Definition ready : Renderer :=
  match initialised with
  | Some (r, _) => r
  | None => blank
  end.

(** A frame on a 1080 x 1920 surface. *)
Definition frame : Frame :=
  {| query_width := 1080; query_height := 1920; swapResult := true |}.

(** The renderer after its first frame. *)
Definition running : Renderer :=
  match Renderer.render frame ready with
  | Some (_, r, _) => r
  | None => ready
  end.

(** A pointer-down of pointer 0 at pixel [(x, y)]. *)
Definition tap (x y : Z) : GameActivityMotionEvent :=
  {| action := AMOTION_EVENT_ACTION_DOWN;
     pointerCount := 1;
     pointers := [ {| pointer_id := 0; axis_x := F32.of_int x; axis_y := F32.of_int y |} ] |}.

Definition move (x y : Z) : GameActivityMotionEvent :=
  {| action := AMOTION_EVENT_ACTION_MOVE;
     pointerCount := 1;
     pointers := [ {| pointer_id := 0; axis_x := F32.of_int x; axis_y := F32.of_int y |} ] |}.

(** Two taps with a move in between. *)
Definition two_taps : android_input_buffer :=
  {| motionEvents := [tap 540 960; move 300 300; tap 0 0]; keyEvents := [] |}.

(** The running renderer with its depth counter at 256. *)
Definition stalled : Renderer := set_counter running F32.lit_256.

End Examples.

(** ** Observations on traces and states *)

(** The events of one [drawModel] call that returns. *)
Definition draw_events (s : Shader) (model : Model) : Trace :=
  [ VertexAttribPointer (position_ s) 3 GL_FLOAT GL_FALSE sizeof_Vertex (vertices_ model) 0;
    EnableVertexAttribArray (position_ s) ] ++
  (if uv_ s =? -1 then []
   else [ VertexAttribPointer (uv_ s) 2 GL_FLOAT GL_FALSE sizeof_Vertex
            (vertices_ model) sizeof_Vector3;
          EnableVertexAttribArray (uv_ s);
          ActiveTexture GL_TEXTURE0;
          BindTexture GL_TEXTURE_2D (from_option textureID 0 (spTexture_ model)) ]) ++
  [ DrawElements GL_TRIANGLES (getIndexCount model) GL_UNSIGNED_SHORT (indices_ model) ] ++
  (if uv_ s =? -1 then [] else [ DisableVertexAttribArray (uv_ s) ]) ++
  [ DisableVertexAttribArray (position_ s) ].

(** A model can be drawn through a program when the program samples no
    texture or the model has one. *)
Definition drawable (s : Shader) (model : Model) : Prop :=
  uv_ s = -1 ∨ spTexture_ model ≠ None.

(** The events of one batch of [render]. *)
Definition batch_events (s : Shader) (models : list Model) : Trace :=
  match models with
  | [] => []
  | _ => UseProgram (program_ s) :: flat_map (draw_events s) models ++ [UseProgram 0]
  end.

(** The draw calls of a trace in the order of their submission, each
    with the program in use and the vertex data bound when it is
    issued. *)
Fixpoint submitted (program : GLuint) (data : list Vertex) (t : Trace)
    : list (GLuint * list Vertex * list Index) :=
  match t with
  | [] => []
  | UseProgram p :: t' => submitted p data t'
  | VertexAttribPointer _ _ _ _ _ d _ :: t' => submitted program d t'
  | DrawElements _ _ _ indices :: t' => (program, data, indices) :: submitted program data t'
  | _ :: t' => submitted program data t'
  end.

Definition submission (s : Shader) (model : Model) : GLuint * list Vertex * list Index :=
  (program_ s, vertices_ model, indices_ model).

(** The projection uploads of a trace, each with the program in use. *)
Fixpoint uploads (program : GLuint) (t : Trace) : list (GLuint * GLint * Matrix4) :=
  match t with
  | [] => []
  | UseProgram p :: t' => uploads p t'
  | UniformMatrix4fv location _ _ value :: t' => (program, location, value) :: uploads program t'
  | _ :: t' => uploads program t'
  end.

(** The results of the loader calls for one key, in order. *)
Definition loads_of (key : string) (t : Trace) : list (shared_ptr TextureAsset) :=
  omap (fun e => match e with
                 | LoadAsset k r => if decide (k = key) then Some r else None
                 | _ => None
                 end) t.

Definition successes (l : list (shared_ptr TextureAsset)) : list TextureAsset :=
  omap id l.

(** The depth of a quad: the [z] of its first vertex. *)
Definition depth_of (m : Model) : option float :=
  match vertices_ m with
  | v :: _ => Some (v3z (position v))
  | [] => None
  end.

(** The stage of type [type] can be created and compiles. *)
Definition stage_compiles (drv : GLDriver) (type : GLenum) : Prop :=
  drv_glCreateShader drv type ≠ 0 ∧
  drv_glGetShaderiv drv (drv_glCreateShader drv type) GL_COMPILE_STATUS ≠ 0.

(** The program object can be created and links. *)
Definition program_links (drv : GLDriver) : Prop :=
  drv_glCreateProgram drv ≠ 0 ∧
  drv_glGetProgramiv drv (drv_glCreateProgram drv) GL_LINK_STATUS = GL_TRUE.

Definition attribute_resolves (drv : GLDriver) (name : string) : Prop :=
  drv_glGetAttribLocation drv (drv_glCreateProgram drv) name ≠ -1.

Definition uniform_resolves (drv : GLDriver) (name : string) : Prop :=
  drv_glGetUniformLocation drv (drv_glCreateProgram drv) name ≠ -1.

(** the size changed with respect to the cached one *)
Definition resized (r : Renderer) (width height : EGLint) : bool :=
  negb (width =? width_ r) || negb (height =? height_ r).

(** the events of one projection upload *)
Definition upload_events (s : Shader) (m : Matrix4) : Trace :=
  [ UseProgram (program_ s);
    UniformMatrix4fv (projectionMatrix_ s) 1 false m;
    UseProgram 0 ].

Definition projection (width height : EGLint) : Matrix4 :=
  OrthographicMatrix kProjectionHalfHeight
    (F32.div (F32.of_int width) (F32.of_int height))
    kProjectionNearPlane kProjectionFarPlane.

Definition is_upload (e : Event) : bool :=
  match e with UniformMatrix4fv _ _ _ _ => true | _ => false end.

(** a trace whose draw calls do not depend on what was bound before *)
Definition self_contained (t : Trace) : Prop :=
  ∀ p d p' d', submitted p d t = submitted p' d' t.

Definition textured (m : Model) : Prop := spTexture_ m ≠ None.

(** [counter += 0.00001f] *)
Definition bump (c : float) : float := F32.add c F32.lit_0_00001.

Definition action_kind (ev : GameActivityMotionEvent) : Z :=
  Z.land (action ev) AMOTION_EVENT_ACTION_MASK.

Definition pointer_index (ev : GameActivityMotionEvent) : nat :=
  Z.to_nat (Z.shiftr (Z.land (action ev) AMOTION_EVENT_ACTION_POINTER_INDEX_MASK)
                     AMOTION_EVENT_ACTION_POINTER_INDEX_SHIFT).

(** a pointer-down event *)
Definition is_down (ev : GameActivityMotionEvent) : bool :=
  (action_kind ev =? AMOTION_EVENT_ACTION_DOWN)
  || (action_kind ev =? AMOTION_EVENT_ACTION_POINTER_DOWN).

Fixpoint downs (evs : list GameActivityMotionEvent) : nat :=
  match evs with
  | [] => 0
  | ev :: evs' => if is_down ev then S (downs evs') else downs evs'
  end.

(** an event whose pointer index, and pointer count for a move, lie
    within its pointer array *)
Definition well_formed (ev : GameActivityMotionEvent) : Prop :=
  (pointer_index ev < length (pointers ev))%nat ∧
  (action_kind ev = AMOTION_EVENT_ACTION_MOVE ->
   (Z.to_nat (pointerCount ev) ≤ length (pointers ev))%nat).

(** one model is in front of the other *)
Definition depth_lt (m1 m2 : Model) : Prop :=
  match depth_of m1, depth_of m2 with
  | Some d1, Some d2 => F32.ltb d1 d2 = true
  | _, _ => False
  end.

(** [depths_from c n l]: the models [l] were created, in this order, by
    some of [n] successive pointer-down events, the first of which
    found the counter at [c] *)
Inductive depths_from : float -> nat -> list Model -> Prop :=
  | depths_none c n : depths_from c n []
  | depths_skip c n l : depths_from (bump c) n l -> depths_from c (S n) l
  | depths_take c n m l :
      depth_of m = Some c -> textured m ->
      depths_from (bump c) n l -> depths_from c (S n) (m :: l).

(** the counters met by [n] pointer-downs from [c] on: each addition of
    0.00001f yields a larger binary32 value *)
Definition increasing_from (c : float) (n : nat) : Prop :=
  ∀ i, (i < n)%nat -> F32.ltb (Nat.iter i bump c) (Nat.iter (S i) bump c) = true.

(** the robot quad: half side 0.1 around [(x, y)], at depth [z] *)
Definition robot (x y z : float) (texture : TextureAsset) : Model :=
  {| vertices_ := Renderer.robot_vertices x y z;
     indices_ := quad_indices;
     spTexture_ := Some texture |}.

(** Modelled from the spec: the matrix built by
    [Utility::buildOrthographicMatrix] from half height [H] and aspect
    ratio [A] maps the world rectangle [-H*A, H*A] x [-H, H] onto the
    surface; these are the half extents of the visible area. *)
Definition visible_half_width (m : Matrix4) : float :=
  F32.mul (halfHeight m) (aspect m).

Definition visible_half_height (m : Matrix4) : float := halfHeight m.

(** a normal binary32 number from 2^-14 up to, but not including, 256 *)
Definition counting (c : float) : Prop :=
  ∃ (m : positive) (e : Z),
    c = S754_finite false m e ∧ Zpos (digits2_pos m) = 24 ∧ -37 <= e <= -16.

(** the position of a counter value among the binary32 numbers from
    2^-14 on *)
Definition rank (c : float) : Z :=
  match c with
  | S754_finite _ m e => (e + 37) * 8388608 + (Zpos m - 8388608)
  | _ => 0
  end.

(** ** Further environments *)

Module Scenarios.

(** A GL implementation like [Examples.drv_ok] on which the fragment
    stage does not compile and leaves an info log. *)
Definition drv_bad_fragment : GLDriver :=
  {| drv_glCreateShader := drv_glCreateShader Examples.drv_ok;
     drv_glGetShaderiv := fun shader pname =>
       if shader =? 2 then (if pname =? GL_COMPILE_STATUS then 0 else 80)
       else drv_glGetShaderiv Examples.drv_ok shader pname;
     drv_glCreateProgram := drv_glCreateProgram Examples.drv_ok;
     drv_glGetProgramiv := drv_glGetProgramiv Examples.drv_ok;
     drv_glGetAttribLocation := drv_glGetAttribLocation Examples.drv_ok;
     drv_glGetUniformLocation := drv_glGetUniformLocation Examples.drv_ok |}.

(** A pointer that leaves the screen at pixel [(x, y)]. *)
Definition release (x y : Z) : GameActivityMotionEvent :=
  {| action := AMOTION_EVENT_ACTION_UP;
     pointerCount := 1;
     pointers := [ {| pointer_id := 0; axis_x := F32.of_int x; axis_y := F32.of_int y |} ] |}.

(** A buffer without pointer-down: a move, the release and two key
    events. *)
Definition drag : android_input_buffer :=
  {| motionEvents := [Examples.move 300 300; release 310 305];
     keyEvents := [ {| key_action := 0; keyCode := 96 |};
                    {| key_action := 1; keyCode := 96 |} ] |}.

(** The renderer after initialisation, detached from its application:
    no asset manager, and nothing in the texture cache. *)
Definition detached : Renderer :=
  {| app_ := None;
     display_ := display_ Examples.ready; surface_ := surface_ Examples.ready;
     context_ := context_ Examples.ready;
     width_ := 1080; height_ := 1920;
     shaderNeedsNewProjectionMatrix_ := false;
     shader_ := shader_ Examples.ready; shaderRed_ := shaderRed_ Examples.ready;
     models_ := []; modelsRed_ := modelsRed_ Examples.ready;
     textureCache_ := ∅;
     counter := counter Examples.ready |}.

(** A frame on a surface that has lost its height. *)
Definition flat : Frame :=
  {| query_width := 1080; query_height := 0; swapResult := true |}.

End Scenarios.

(** ** Further observations on traces and states *)

(** every delete call of the trace names an object that is allocated
    when the call is made *)
Fixpoint deletes_allocated (live : list GLObject) (t : Trace) : Prop :=
  match t with
  | [] => True
  | e :: t' =>
      match e with
      | DeleteShader s => ShaderObject s ∈ live
      | DeleteProgram p => ProgramObject p ∈ live
      | _ => True
      end ∧ deletes_allocated (track live e) t'
  end.

(** a query of an attribute or uniform location *)
Definition is_lookup (e : Event) : bool :=
  match e with
  | GetAttribLocation _ _ _ | GetUniformLocation _ _ _ => true
  | _ => false
  end.


(** one batch of [render] is defined: there is nothing to draw, or there
    is a program through which every model of the list can be drawn *)
Definition batch_defined (s : option Shader) (models : list Model) : Prop :=
  models = [] ∨ ∃ sh, s = Some sh ∧ Forall (drawable sh) models.

(** the conditions under which a frame returns *)
Definition render_defined (f : Frame) (r : Renderer) : Prop :=
  ((resized r (query_width f) (query_height f) = true
    ∨ shaderNeedsNewProjectionMatrix_ r = true) ->
   is_Some (shader_ r) ∧ is_Some (shaderRed_ r)) ∧
  batch_defined (shaderRed_ r) (modelsRed_ r) ∧
  batch_defined (shader_ r) (models_ r) ∧
  swapResult f = true.

(** the events of a batch drawn through the program at hand *)
Definition batch_trace (s : option Shader) (models : list Model) : Trace :=
  from_option (fun sh => batch_events sh models) [] s.

(** the events of a frame that returns *)
Definition frame_events (f : Frame) (r : Renderer) : Trace :=
  let width := query_width f in
  let height := query_height f in
  (if resized r width height then [Viewport 0 0 width height] else []) ++
  (if resized r width height || shaderNeedsNewProjectionMatrix_ r
   then from_option (fun sh => upload_events sh (projection width height)) [] (shader_ r) ++
        from_option (fun sh => upload_events sh (projection width height)) [] (shaderRed_ r)
   else []) ++
  [Clear (Z.lor GL_COLOR_BUFFER_BIT GL_DEPTH_BUFFER_BIT)] ++
  batch_trace (shaderRed_ r) (modelsRed_ r) ++
  batch_trace (shader_ r) (models_ r) ++
  [EglSwapBuffers (display_ r) (surface_ r) true].

(** the renderer a frame leaves: the reported size cached, the rebuild
    flag down *)
Definition after_frame (f : Frame) (r : Renderer) : Renderer :=
  set_needsProjection (set_area r (query_width f) (query_height f)) false.

(** the vertex attribute arrays a trace leaves enabled, from the set
    enabled before it *)
Definition enable_step (enabled : gset Z) (e : Event) : gset Z :=
  match e with
  | EnableVertexAttribArray index => {[index]} ∪ enabled
  | DisableVertexAttribArray index => enabled ∖ {[index]}
  | _ => enabled
  end.

Definition enabled_arrays (t : Trace) : gset Z := fold_left enable_step t ∅.

(** the program a trace leaves in use, from the one in use before it *)
Definition use_step (program : GLuint) (e : Event) : GLuint :=
  match e with
  | UseProgram p => p
  | _ => program
  end.

Definition program_in_use (t : Trace) : GLuint := fold_left use_step t 0.

(** the quad of [createModels]: the square of half side 1 at depth [c] *)
Definition robot_quad (c : float) (texture : shared_ptr TextureAsset) : Model :=
  {| vertices_ :=
       [ mkVertex F32.one F32.one c F32.zero F32.zero;
         mkVertex (F32.opp F32.one) F32.one c F32.one F32.zero;
         mkVertex (F32.opp F32.one) (F32.opp F32.one) c F32.one F32.one;
         mkVertex F32.one (F32.opp F32.one) c F32.zero F32.one ];
     indices_ := quad_indices;
     spTexture_ := texture |}.

(** what [createModels] appends for the handle it got: the quad twice
    when there is a texture, once without *)
Definition initial_quads (c : float) (handle : shared_ptr TextureAsset) : list Model :=
  match handle with
  | Some _ => [robot_quad c handle; robot_quad c handle]
  | None => [robot_quad c handle]
  end.

(** the quad of [createBackground] *)
Definition background : Model :=
  {| vertices_ :=
       [ mkVertex F32.lit_1_25 F32.two F32.zero F32.zero F32.zero;
         mkVertex (F32.opp F32.lit_1_25) F32.two F32.zero F32.zero F32.zero;
         mkVertex (F32.opp F32.lit_1_25) (F32.opp F32.two) F32.zero F32.zero F32.zero;
         mkVertex F32.lit_1_25 (F32.opp F32.two) F32.zero F32.zero F32.zero ];
     indices_ := quad_indices;
     spTexture_ := None |}.

(** the renderer [initRenderer] has set up when it reaches
    [createModels] *)
Definition prepared (env : InitEnv) (r : Renderer) (sh shRed : Shader) : Renderer :=
  set_counter
    (set_shaders
       (set_area (set_egl r (init_display env) (init_surface env) (init_context env))
                 (-1) (-1))
       (Some sh) (Some shRed))
    F32.lit_0_0001.

(** the renderer [initRenderer] leaves, from the one the texture fetch
    of [createModels] left *)
Definition populated (r : Renderer) (handle : shared_ptr TextureAsset) : Renderer :=
  set_counter
    (set_modelsRed
       (set_models r (models_ r ++ initial_quads F32.lit_0_0001 handle))
       (modelsRed_ r ++ [background]))
    (bump F32.lit_0_0001).

(** the calls that set the global GL state in [initRenderer] *)
Definition state_setup : Trace :=
  [ ClearColor (F32.of_int 255) (F32.of_int 255) (F32.of_int 255) F32.zero;
    Enable "GL_BLEND";
    BlendFunc "GL_SRC_ALPHA" "GL_ONE_MINUS_SRC_ALPHA";
    Enable "GL_DEPTH_TEST";
    DepthFunc "GL_LESS";
    DepthMask GL_TRUE ].

(** [r'] differs from [r] at most in the texture cache, the textured
    models and the depth counter *)
Definition same_setup (r r' : Renderer) : Prop :=
  r' = set_counter (set_models (set_textureCache r (textureCache_ r')) (models_ r'))
         (counter r').

(** the texture cache holds no null handle *)
Definition cache_sound (r : Renderer) : Prop :=
  ∀ key : string, textureCache_ r !! key ≠ Some None.

(** the events [handleInput] may emit: a load of the robot image and
    the two calls that hand the buffer back *)
Definition input_event (e : Event) : Prop :=
  e = ClearMotionEvents ∨ e = ClearKeyEvents ∨ ∃ h, e = LoadAsset "android_robot.png" h.

(** what input handling may do to the renderer: append to the textured
    models, add the robot texture to the cache, advance the counter *)
Definition input_effect (r r' : Renderer) (t : Trace) : Prop :=
  same_setup r r' ∧
  (∃ new, models_ r' = models_ r ++ new) ∧
  (∀ key v, textureCache_ r !! key = Some v -> textureCache_ r' !! key = Some v) ∧
  (∀ key, key ≠ "android_robot.png" -> textureCache_ r' !! key = textureCache_ r !! key) ∧
  (cache_sound r -> cache_sound r') ∧
  Forall input_event t.

(** ** The event monads *)

Lemma bind_ret_l {A B} (a : A) (k : A -> GL B) : bind (ret a) k = k a.
Proof. unfold bind, ret. destruct (k a) as [[b t]|]; reflexivity. Qed.

Lemma bind_emit {B} (e : Event) (k : unit -> GL B) :
  bind (emit e) k = match k tt with None => None | Some (b, t) => Some (b, e :: t) end.
Proof. reflexivity. Qed.

Lemma bind_assoc {A B C} (m : GL A) (k : A -> GL B) (h : B -> GL C) :
  bind (bind m k) h = bind m (fun a => bind (k a) h).
Proof.
  destruct m as [[a t1]|]; simpl; [|reflexivity].
  destruct (k a) as [[b t2]|]; simpl; [|reflexivity].
  destruct (h b) as [[c t3]|]; simpl; [|reflexivity].
  by rewrite app_assoc.
Qed.

(** ** Shader.cpp: program construction and drawing *)

Ltac run :=
  repeat (cbn [bind ret emit crash sbind sret lift get modify deref assert
               fst snd app] in *).

Section ShaderFacts.
Variable drv : GLDriver.

Lemma loadShader_type_ok (type : GLenum) (source : string) :
  stage_compiles drv type ->
  Shader.loadShader_type drv type source =
    Some (drv_glCreateShader drv type,
          [ CreateShader type (drv_glCreateShader drv type);
            ShaderSource (drv_glCreateShader drv type) source;
            CompileShader (drv_glCreateShader drv type);
            GetShaderiv (drv_glCreateShader drv type) GL_COMPILE_STATUS
              (drv_glGetShaderiv drv (drv_glCreateShader drv type) GL_COMPILE_STATUS) ]).
Proof.
  intros [Hc Hs]. unfold Shader.loadShader_type, Shader.glCreateShader, Shader.glGetShaderiv.
  run.
  destruct (Z.eqb_spec (drv_glCreateShader drv type) 0) as [E|_]; [contradiction|].
  run.
  destruct (Z.eqb_spec (drv_glGetShaderiv drv (drv_glCreateShader drv type)
                          GL_COMPILE_STATUS) 0) as [E|_]; [contradiction|].
  reflexivity.
Qed.

Lemma drawModel_without_uv (s : Shader) (model : Model) :
  uv_ s = -1 ->
  Shader.drawModel s model =
    Some (tt, [ VertexAttribPointer (position_ s) 3 GL_FLOAT GL_FALSE sizeof_Vertex
                  (vertices_ model) 0;
                EnableVertexAttribArray (position_ s);
                DrawElements GL_TRIANGLES (getIndexCount model) GL_UNSIGNED_SHORT
                  (indices_ model);
                DisableVertexAttribArray (position_ s) ]).
Proof. intros E. unfold Shader.drawModel. rewrite E. reflexivity. Qed.

Lemma drawModel_events (s : Shader) (model : Model) :
  drawable s model ->
  Shader.drawModel s model = Some (tt, draw_events s model).
Proof.
  intros Hd. unfold Shader.drawModel, draw_events, Shader.getTexture.
  destruct (uv_ s =? -1) eqn:E; [reflexivity|].
  destruct Hd as [Hd|Hd]; [apply Z.eqb_neq in E; contradiction|].
  destruct (spTexture_ model); [reflexivity|contradiction].
Qed.

(** drawing a model that lacks its texture through a program that
    samples one dereferences a null pointer *)
Lemma drawModel_null_texture (s : Shader) (model : Model) :
  uv_ s ≠ -1 -> spTexture_ model = None -> Shader.drawModel s model = None.
Proof.
  intros Hu Ht. unfold Shader.drawModel, Shader.getTexture.
  apply Z.eqb_neq in Hu. rewrite Hu, Ht. reflexivity.
Qed.

(** C4: the UV attribute is optional.  When both stages compile, the
    program links and the position attribute and the projection
    uniform resolve, construction with an empty UV attribute name
    succeeds, the program's UV location is the sentinel -1, and
    drawing any model through it binds and enables the position
    attribute only: no UV pointer, no texture unit, no texture. *)
Theorem uv_attribute_is_optional
    (vertexSource fragmentSource positionName projectionName : string) :
  stage_compiles drv GL_VERTEX_SHADER ->
  stage_compiles drv GL_FRAGMENT_SHADER ->
  program_links drv ->
  attribute_resolves drv positionName ->
  uniform_resolves drv projectionName ->
  ∃ (s : Shader) (t : Trace),
    Shader.loadShader drv vertexSource fragmentSource positionName "" projectionName
      = Some (Some s, t) ∧
    program_ s = drv_glCreateProgram drv ∧
    position_ s = drv_glGetAttribLocation drv (drv_glCreateProgram drv) positionName ∧
    projectionMatrix_ s
      = drv_glGetUniformLocation drv (drv_glCreateProgram drv) projectionName ∧
    uv_ s = -1 ∧
    ∀ model : Model,
      Shader.drawModel s model =
        Some (tt, [ VertexAttribPointer (position_ s) 3 GL_FLOAT GL_FALSE sizeof_Vertex
                      (vertices_ model) 0;
                    EnableVertexAttribArray (position_ s);
                    DrawElements GL_TRIANGLES (getIndexCount model) GL_UNSIGNED_SHORT
                      (indices_ model);
                    DisableVertexAttribArray (position_ s) ]).
Proof.
  intros Hv Hf [Hp Hl] Ha Hu.
  unfold Shader.loadShader.
  rewrite (loadShader_type_ok _ _ Hv). run.
  destruct Hv as [Hv _]. apply Z.eqb_neq in Hv. rewrite Hv.
  rewrite (loadShader_type_ok _ _ Hf). run.
  destruct Hf as [Hf _]. apply Z.eqb_neq in Hf. rewrite Hf.
  unfold Shader.glCreateProgram. run.
  apply Z.eqb_neq in Hp. rewrite Hp.
  unfold Shader.linkAndResolve, Shader.glGetProgramiv, Shader.glGetAttribLocation,
    Shader.glGetUniformLocation. run.
  rewrite Hl. cbn [Z.eqb GL_TRUE Pos.eqb negb]. run.
  unfold attribute_resolves in Ha. apply Z.eqb_neq in Ha. rewrite Ha.
  cbn [String.eqb]. run.
  unfold uniform_resolves in Hu. apply Z.eqb_neq in Hu. rewrite Hu.
  cbn [negb andb]. run.
  eexists _, _. split; [reflexivity|].
  cbn [program_ position_ uv_ projectionMatrix_].
  do 4 (split; [reflexivity|]).
  intros model. apply drawModel_without_uv. reflexivity.
Qed.

End ShaderFacts.

(** The check of C4 on a concrete implementation. *)
Lemma uv_attribute_is_optional_witness :
  ∃ (s : Shader) (t : Trace),
    Shader.loadShader Examples.drv_ok vertexRed fragmentSolidRed "inPosition" "" "uProjection"
      = Some (Some s, t) ∧
    program_ s = drv_glCreateProgram Examples.drv_ok ∧
    position_ s = drv_glGetAttribLocation Examples.drv_ok
                    (drv_glCreateProgram Examples.drv_ok) "inPosition" ∧
    projectionMatrix_ s = drv_glGetUniformLocation Examples.drv_ok
                            (drv_glCreateProgram Examples.drv_ok) "uProjection" ∧
    uv_ s = -1 ∧
    ∀ model : Model,
      Shader.drawModel s model =
        Some (tt, [ VertexAttribPointer (position_ s) 3 GL_FLOAT GL_FALSE sizeof_Vertex
                      (vertices_ model) 0;
                    EnableVertexAttribArray (position_ s);
                    DrawElements GL_TRIANGLES (getIndexCount model) GL_UNSIGNED_SHORT
                      (indices_ model);
                    DisableVertexAttribArray (position_ s) ]).
Proof.
  apply (uv_attribute_is_optional Examples.drv_ok vertexRed fragmentSolidRed
           "inPosition" "uProjection").
  - split; vm_compute; discriminate.
  - split; vm_compute; discriminate.
  - split; vm_compute; [discriminate|reflexivity].
  - vm_compute; discriminate.
  - vm_compute; discriminate.
Defined.

(** *** Release of the intermediate objects *)

Ltac case_eqb :=
  match goal with
  | |- context [Z.eqb ?a ?b] =>
      let E := fresh "E" in
      destruct (Z.eqb_spec a b) as [E|E]; try rewrite E in *; try contradiction
  | |- context [String.eqb ?a ?b] =>
      let E := fresh "E" in destruct (String.eqb a b) eqn:E
  | |- context [decide (?a = ?b)] =>
      let E := fresh "E" in destruct (decide (a = b)) as [E|E]; try congruence
  end.

Ltac unfold_load :=
  unfold Shader.loadShader, Shader.linkAndResolve, Shader.loadShader_type,
    Shader.glCreateShader, Shader.glGetShaderiv, Shader.glCreateProgram,
    Shader.glGetProgramiv, Shader.glGetAttribLocation, Shader.glGetUniformLocation.

Section Release.
Variable drv : GLDriver.
Variables vertexSource fragmentSource : string.
Variables positionName uvName projectionName : string.

Local Abbreviation construction :=
  (Shader.loadShader drv vertexSource fragmentSource positionName uvName projectionName).

(** program construction always returns *)
Lemma loadShader_returns : ∃ r t, construction = Some (r, t).
Proof.
  unfold_load.
  repeat (run; cbn [negb andb]; try case_eqb); eauto.
Qed.

(** a stage that does not compile, a program that cannot be created
    or does not link: no program is returned and nothing stays
    allocated *)
Lemma loadShader_unwinds_compile_and_link :
  ¬ (stage_compiles drv GL_VERTEX_SHADER ∧ stage_compiles drv GL_FRAGMENT_SHADER
     ∧ program_links drv) ->
  ∃ t, construction = Some (None, t) ∧ unreleased t = [].
Proof.
  intros Hn.
  unfold stage_compiles, program_links in Hn. unfold_load.
  repeat (run; cbn [negb andb]; try case_eqb);
    try (eexists; split; [reflexivity|];
         unfold unreleased; cbn [fold_left track remove_first app];
         repeat (case_eqb; cbn [fold_left track remove_first app]);
         reflexivity);
    exfalso; apply Hn; repeat split; try assumption; try congruence.
Qed.

(** success: the program is the only object left, both stages are
    released *)
Lemma loadShader_success_releases_stages :
  stage_compiles drv GL_VERTEX_SHADER -> stage_compiles drv GL_FRAGMENT_SHADER ->
  program_links drv ->
  attribute_resolves drv positionName -> uniform_resolves drv projectionName ->
  ∃ s t, construction = Some (Some s, t) ∧
         unreleased t = [ProgramObject (drv_glCreateProgram drv)].
Proof.
  intros [Hv1 Hv2] [Hf1 Hf2] [Hp1 Hp2] Ha Hu.
  unfold attribute_resolves in Ha. unfold uniform_resolves in Hu. unfold_load.
  repeat (run; cbn [negb andb]; try case_eqb); try congruence;
    (eexists _, _; split; [reflexivity|];
     unfold unreleased; cbn [fold_left track remove_first app];
     repeat (case_eqb; cbn [fold_left track remove_first app]);
     reflexivity).
Qed.

(** the two [return nullptr] inside the block: the program is deleted,
    the two stages are not *)
Lemma loadShader_missing_location_keeps_stages :
  stage_compiles drv GL_VERTEX_SHADER -> stage_compiles drv GL_FRAGMENT_SHADER ->
  program_links drv ->
  ¬ (attribute_resolves drv positionName ∧ uniform_resolves drv projectionName) ->
  ∃ t, construction = Some (None, t) ∧
       unreleased t = [ ShaderObject (drv_glCreateShader drv GL_VERTEX_SHADER);
                        ShaderObject (drv_glCreateShader drv GL_FRAGMENT_SHADER) ].
Proof.
  intros [Hv1 Hv2] [Hf1 Hf2] [Hp1 Hp2] Hn.
  unfold attribute_resolves, uniform_resolves in Hn. unfold_load.
  repeat (run; cbn [negb andb]; try case_eqb); try congruence;
    try (eexists; split; [reflexivity|];
         unfold unreleased; cbn [fold_left track remove_first app];
         repeat (case_eqb; cbn [fold_left track remove_first app]);
         reflexivity);
    exfalso; apply Hn; split; congruence.
Qed.
End Release.

(** C2 (the code departs from it): on an implementation where both
    stages compile and the program links, a construction that asks for
    a position attribute, or for a projection uniform, that the program
    does not have returns no program and deletes the program object,
    yet leaves the vertex stage 1 and the fragment stage 2 allocated:
    the [return nullptr] of these two checks comes before the two
    [glDeleteShader] calls. *)
Theorem loadShader_missing_location_leaks_stages :
  (∃ t, Shader.loadShader Examples.drv_ok vertex fragment
          "position" "inUV" "uProjection" = Some (None, t)
        ∧ In (DeleteProgram 3) t
        ∧ ¬ In (DeleteShader 1) t ∧ ¬ In (DeleteShader 2) t
        ∧ unreleased t = [ShaderObject 1; ShaderObject 2])
  ∧
  (∃ t, Shader.loadShader Examples.drv_ok vertex fragment
          "inPosition" "inUV" "projection" = Some (None, t)
        ∧ In (DeleteProgram 3) t
        ∧ ¬ In (DeleteShader 1) t ∧ ¬ In (DeleteShader 2) t
        ∧ unreleased t = [ShaderObject 1; ShaderObject 2]).
Proof.
  split; (eexists; split; [vm_compute; reflexivity|]);
    (split; [cbn; tauto|]);
    (split; [cbn; intros H; repeat (destruct H as [H|H]; [discriminate H|]); exact H|]);
    (split; [cbn; intros H; repeat (destruct H as [H|H]; [discriminate H|]); exact H|]);
    reflexivity.
Qed.

(** ** Renderer.cpp: teardown, resize and the frame *)

Section Frame.

Lemma set_needsProjection_same (r : Renderer) :
  shaderNeedsNewProjectionMatrix_ r = false -> set_needsProjection r false = r.
Proof. destruct r; cbn. intros ->. reflexivity. Qed.

Lemma updateRenderArea_changed (r : Renderer) (width height : EGLint) :
  resized r width height = true ->
  Renderer.updateRenderArea width height r =
    Some (tt, set_needsProjection (set_area r width height) true,
          [Viewport 0 0 width height]).
Proof.
  intros H. unfold Renderer.updateRenderArea, resized in *. run. rewrite H. reflexivity.
Qed.

Lemma updateRenderArea_unchanged (r : Renderer) (width height : EGLint) :
  resized r width height = false ->
  Renderer.updateRenderArea width height r = Some (tt, r, []).
Proof.
  intros H. unfold Renderer.updateRenderArea, resized in *. run. rewrite H. reflexivity.
Qed.

Lemma resized_after_update (r : Renderer) (width height : EGLint) :
  resized (set_needsProjection (set_area r width height) true) width height = false.
Proof. unfold resized. cbn. rewrite !Z.eqb_refl. reflexivity. Qed.

Lemma for_each_draw (s : Shader) (models : list Model) (r : Renderer) :
  Forall (drawable s) models ->
  for_each models (fun model => lift (Shader.drawModel s model)) r =
    Some (tt, r, flat_map (draw_events s) models).
Proof.
  induction 1 as [|m ms Hm _ IH]; [reflexivity|].
  cbn [for_each flat_map]. unfold sbind at 1, lift at 1.
  rewrite (drawModel_events _ _ Hm). run. rewrite IH, app_nil_r. reflexivity.
Qed.

Lemma drawBatch_events (s : Shader) (models : list Model) (r : Renderer) :
  Forall (drawable s) models ->
  Renderer.drawBatch (Some s) models r = Some (tt, r, batch_events s models).
Proof.
  intros H. destruct models as [|m ms]; [reflexivity|].
  unfold Renderer.drawBatch, batch_events. run.
  set (l := m :: ms) in *.
  unfold sbind, lift, Shader.activate, Shader.deactivate. run.
  rewrite (for_each_draw _ _ _ H). reflexivity.
Qed.

(** the part of a frame after [updateRenderArea] *)
Lemma render_after_update (f : Frame) (r r1 : Renderer) (t1 : Trace) (sh shRed : Shader) :
  Renderer.updateRenderArea (query_width f) (query_height f) r = Some (tt, r1, t1) ->
  shader_ r1 = Some sh -> shaderRed_ r1 = Some shRed ->
  Forall (drawable shRed) (modelsRed_ r1) -> Forall (drawable sh) (models_ r1) ->
  swapResult f = true ->
  Renderer.render f r =
    Some (tt, set_needsProjection r1 false,
          t1 ++
          (if shaderNeedsNewProjectionMatrix_ r1
           then upload_events sh (projection (width_ r1) (height_ r1)) ++
                upload_events shRed (projection (width_ r1) (height_ r1))
           else []) ++
          [Clear (Z.lor GL_COLOR_BUFFER_BIT GL_DEPTH_BUFFER_BIT)] ++
          batch_events shRed (modelsRed_ r1) ++
          batch_events sh (models_ r1) ++
          [EglSwapBuffers (display_ r1) (surface_ r1) true]).
Proof.
  intros Hu Hs Hr Hdr Hd Hw.
  unfold Renderer.render. unfold sbind at 1. rewrite Hu. run.
  unfold sbind at 1, get at 1. run.
  destruct (shaderNeedsNewProjectionMatrix_ r1) eqn:Hflag.
  - unfold sbind at 1. rewrite Hs, Hr.
    unfold sbind, deref, sret, Renderer.uploadProjection, sbind, lift, modify,
      Shader.activate, Shader.setProjectionMatrix, Shader.deactivate, get. run.
    cbn [shaderRed_ shader_ modelsRed_ models_ set_needsProjection].
    rewrite Hr, Hs.
    rewrite (drawBatch_events shRed (modelsRed_ r1)) by assumption. run.
    rewrite (drawBatch_events sh (models_ r1)) by assumption. run.
    rewrite Hw. unfold assert, sret. run.
    cbn [display_ surface_ set_needsProjection].
    unfold upload_events, projection.
    rewrite ?app_nil_r. cbn [app]. rewrite <- ?app_assoc. reflexivity.
  - rewrite (set_needsProjection_same _ Hflag).
    unfold sbind, sret, lift, get. run.
    rewrite Hr, Hs.
    rewrite (drawBatch_events shRed (modelsRed_ r1)) by assumption. run.
    rewrite (drawBatch_events sh (models_ r1)) by assumption. run.
    rewrite Hw. unfold assert, sret. run.
    rewrite ?app_nil_r. cbn [app]. rewrite <- ?app_assoc. reflexivity.
Qed.

Lemma updateRenderArea_returns (r : Renderer) (width height : EGLint) :
  ∃ r1 t1,
    Renderer.updateRenderArea width height r = Some (tt, r1, t1) ∧
    width_ r1 = width ∧ height_ r1 = height ∧
    shader_ r1 = shader_ r ∧ shaderRed_ r1 = shaderRed_ r ∧
    models_ r1 = models_ r ∧ modelsRed_ r1 = modelsRed_ r ∧
    (resized r width height = true ->
       shaderNeedsNewProjectionMatrix_ r1 = true ∧ t1 = [Viewport 0 0 width height]) ∧
    (resized r width height = false -> r1 = r ∧ t1 = []) ∧
    Renderer.updateRenderArea width height r1 = Some (tt, r1, []).
Proof.
  destruct (resized r width height) eqn:E.
  - eexists _, _. split; [apply updateRenderArea_changed, E|].
    do 6 (split; [reflexivity|]).
    split; [intros _; split; reflexivity|].
    split; [discriminate|].
    apply updateRenderArea_unchanged, resized_after_update.
  - eexists _, _. split; [apply updateRenderArea_unchanged, E|].
    unfold resized in E. apply orb_false_elim in E as [E1 E2].
    apply negb_false_iff, Z.eqb_eq in E1. apply negb_false_iff, Z.eqb_eq in E2.
    do 2 (split; [congruence|]).
    do 4 (split; [reflexivity|]).
    split; [discriminate|].
    split; [intros _; split; reflexivity|].
    apply updateRenderArea_unchanged. unfold resized.
    rewrite E1, E2, !Z.eqb_refl. reflexivity.
Qed.

(** *** Projection uploads *)

Lemma uploads_none (t : Trace) :
  Forall (fun e => is_upload e = false) t -> ∀ p, uploads p t = [].
Proof.
  induction 1 as [|e t He _ IH]; intros p; [reflexivity|].
  destruct e; try discriminate He; cbn [uploads]; apply IH.
Qed.

Lemma draw_events_no_upload (s : Shader) (m : Model) :
  Forall (fun e => is_upload e = false) (draw_events s m).
Proof. unfold draw_events. destruct (uv_ s =? -1); repeat constructor. Qed.

Lemma batch_events_no_upload (s : Shader) (ms : list Model) :
  Forall (fun e => is_upload e = false) (batch_events s ms).
Proof.
  destruct ms as [|m ms]; [constructor|].
  unfold batch_events. constructor; [reflexivity|].
  apply Forall_app. split; [|repeat constructor].
  generalize (m :: ms). intros l. induction l as [|x l IH]; [constructor|].
  cbn [flat_map]. apply Forall_app. split; [apply draw_events_no_upload|exact IH].
Qed.

(** *** Order of the draw calls *)

Lemma submitted_draw_events (s : Shader) (m : Model) (p : GLuint) (d : list Vertex)
    (t : Trace) :
  submitted p d (draw_events s m ++ t) = (p, vertices_ m, indices_ m)
                                          :: submitted p (vertices_ m) t.
Proof. unfold draw_events. destruct (uv_ s =? -1); reflexivity. Qed.

Lemma submitted_draws (s : Shader) (ms : list Model) (p : GLuint) (t : Trace) :
  self_contained t ->
  ∀ d, submitted p d (flat_map (draw_events s) ms ++ t)
       = map (fun m => (p, vertices_ m, indices_ m)) ms ++ submitted p d t.
Proof.
  intros Ht. induction ms as [|m ms IH]; intros d; [reflexivity|].
  cbn [flat_map map]. rewrite <- app_assoc, submitted_draw_events, IH.
  cbn [app]. do 2 f_equal. apply Ht.
Qed.

Lemma submitted_batch (s : Shader) (ms : list Model) (t : Trace) :
  self_contained t ->
  ∀ p d, submitted p d (batch_events s ms ++ t)
         = map (submission s) ms ++ submitted p d t.
Proof.
  intros Ht p d. destruct ms as [|m ms]; [reflexivity|].
  unfold batch_events. cbn [app submitted]. rewrite <- app_assoc.
  rewrite submitted_draws.
  - f_equal. cbn [app submitted]. apply Ht.
  - intros p1 d1 p2 d2. cbn [app submitted]. apply Ht.
Qed.

Lemma self_contained_batch (s : Shader) (ms : list Model) (t : Trace) :
  self_contained t -> self_contained (batch_events s ms ++ t).
Proof.
  intros Ht p d p' d'. rewrite !submitted_batch by assumption. f_equal. apply Ht.
Qed.

End Frame.

(** C5: resize handling is idempotent.  [updateRenderArea] raises the
    rebuild flag (and resets the viewport) only when the reported size
    differs from the cached one, and a second call with the same size
    does nothing at all.  [render] uploads a projection only when the
    flag is up after the size check: then the matrix of the current
    size goes to both programs, each activated before and deactivated
    after its upload, and in every case the flag is down when the frame
    is done. *)
Theorem resize_is_idempotent (r : Renderer) (f : Frame) (sh shRed : Shader) :
  shader_ r = Some sh -> shaderRed_ r = Some shRed ->
  Forall (drawable shRed) (modelsRed_ r) -> Forall (drawable sh) (models_ r) ->
  swapResult f = true ->
  let width := query_width f in
  let height := query_height f in
  ∃ r1 t1,
    Renderer.updateRenderArea width height r = Some (tt, r1, t1) ∧
    (resized r width height = true ->
       shaderNeedsNewProjectionMatrix_ r1 = true ∧ t1 = [Viewport 0 0 width height]) ∧
    (resized r width height = false -> r1 = r ∧ t1 = []) ∧
    Renderer.updateRenderArea width height r1 = Some (tt, r1, []) ∧
    ∃ r2 t2,
      Renderer.render f r = Some (tt, r2, t2) ∧
      shaderNeedsNewProjectionMatrix_ r2 = false ∧
      (shaderNeedsNewProjectionMatrix_ r1 = true ->
         ∃ rest,
           t2 = t1 ++ upload_events sh (projection width height)
                   ++ upload_events shRed (projection width height) ++ rest
           ∧ ∀ p, uploads p rest = []) ∧
      (shaderNeedsNewProjectionMatrix_ r1 = false -> ∀ p, uploads p t2 = []).
Proof.
  intros Hs Hr Hdr Hd Hw width height.
  destruct (updateRenderArea_returns r width height)
    as (r1 & t1 & Hu & Hwd & Hht & Hs1 & Hr1 & Hm1 & Hmr1 & Hch & Hsame & Hagain).
  exists r1, t1. do 4 (split; [assumption|]).
  rewrite <- Hs1 in Hs. rewrite <- Hr1 in Hr. rewrite <- Hmr1 in Hdr. rewrite <- Hm1 in Hd.
  eexists _, _. split; [exact (render_after_update f r r1 t1 sh shRed Hu Hs Hr Hdr Hd Hw)|].
  split; [reflexivity|]. rewrite Hwd, Hht.
  assert (Htail : Forall (fun e => is_upload e = false)
            ([Clear (Z.lor GL_COLOR_BUFFER_BIT GL_DEPTH_BUFFER_BIT)] ++
             batch_events shRed (modelsRed_ r1) ++ batch_events sh (models_ r1) ++
             [EglSwapBuffers (display_ r1) (surface_ r1) true])).
  { repeat (apply Forall_app; split); try apply batch_events_no_upload; repeat constructor. }
  split.
  - intros ->. eexists. split.
    + rewrite <- !app_assoc. reflexivity.
    + apply uploads_none, Htail.
  - intros ->. cbn [app]. intros p. apply uploads_none.
    apply Forall_app. split; [|exact Htail].
    destruct (resized r width height) eqn:E.
    + destruct (Hch eq_refl) as [_ ->]. repeat constructor.
    + destruct (Hsame eq_refl) as [_ ->]. constructor.
Qed.

(** C5 on the first frame after initialisation: the cached size is the
    sentinel, so the flag is raised and both programs get the matrix. *)
Lemma resize_is_idempotent_witness :
  ∃ r1 t1,
    Renderer.updateRenderArea 1080 1920 Examples.ready = Some (tt, r1, t1) ∧
    Renderer.updateRenderArea 1080 1920 r1 = Some (tt, r1, []) ∧
    ∃ r2 t2,
      Renderer.render Examples.frame Examples.ready = Some (tt, r2, t2) ∧
      shaderNeedsNewProjectionMatrix_ r2 = false.
Proof.
  destruct (resize_is_idempotent Examples.ready Examples.frame
              {| program_ := 3; position_ := 0; uv_ := 1; projectionMatrix_ := 0 |}
              {| program_ := 6; position_ := 0; uv_ := -1; projectionMatrix_ := 0 |})
    as (r1 & t1 & H1 & _ & _ & H2 & r2 & t2 & H3 & H4 & _).
  - vm_compute. reflexivity.
  - vm_compute. reflexivity.
  - repeat (constructor; [left; reflexivity|]). constructor.
  - repeat (constructor; [right; vm_compute; discriminate|]). constructor.
  - reflexivity.
  - exists r1, t1. split; [exact H1|]. split; [exact H2|].
    exists r2, t2. split; [exact H3|exact H4].
Defined.

(** C6: in every frame all models of the solid-color list are submitted
    before any model of the textured list, each with its own program in
    use, and within each list in list order. *)
Theorem solid_color_drawn_before_textured (r : Renderer) (f : Frame) (sh shRed : Shader) :
  shader_ r = Some sh -> shaderRed_ r = Some shRed ->
  Forall (drawable shRed) (modelsRed_ r) -> Forall (drawable sh) (models_ r) ->
  swapResult f = true ->
  ∃ r2 t2,
    Renderer.render f r = Some (tt, r2, t2) ∧
    ∀ p d, submitted p d t2
           = map (submission shRed) (modelsRed_ r) ++ map (submission sh) (models_ r).
Proof.
  intros Hs Hr Hdr Hd Hw.
  destruct (updateRenderArea_returns r (query_width f) (query_height f))
    as (r1 & t1 & Hu & Hwd & Hht & Hs1 & Hr1 & Hm1 & Hmr1 & Hch & Hsame & Hagain).
  rewrite <- Hs1 in Hs. rewrite <- Hr1 in Hr. rewrite <- Hmr1 in Hdr. rewrite <- Hm1 in Hd.
  eexists _, _. split; [exact (render_after_update f r r1 t1 sh shRed Hu Hs Hr Hdr Hd Hw)|].
  rewrite <- Hm1, <- Hmr1.
  assert (Hend : self_contained [EglSwapBuffers (display_ r1) (surface_ r1) true]).
  { intros p d p' d'. reflexivity. }
  assert (Hbatches : ∀ p d,
            submitted p d (batch_events shRed (modelsRed_ r1) ++
                           batch_events sh (models_ r1) ++
                           [EglSwapBuffers (display_ r1) (surface_ r1) true])
            = map (submission shRed) (modelsRed_ r1) ++ map (submission sh) (models_ r1)).
  { intros p d. rewrite submitted_batch by (apply self_contained_batch, Hend).
    rewrite submitted_batch by exact Hend. cbn [submitted]. rewrite app_nil_r. reflexivity. }
  intros p d.
  assert (Ht1 : t1 = [] ∨ t1 = [Viewport 0 0 (query_width f) (query_height f)]).
  { destruct (resized r (query_width f) (query_height f)) eqn:E.
    - right. apply (Hch eq_refl).
    - left. apply (Hsame eq_refl). }
  destruct (shaderNeedsNewProjectionMatrix_ r1);
    destruct Ht1 as [-> | ->]; cbn [app upload_events submitted]; apply Hbatches.
Qed.

(** C6 on the frame after initialisation: the background quad is the
    first submission, the two robot quads follow. *)
Lemma solid_color_drawn_before_textured_witness :
  ∃ r2 t2,
    Renderer.render Examples.frame Examples.ready = Some (tt, r2, t2) ∧
    ∀ p d, map (fun x => fst (fst x)) (submitted p d t2) = [6; 3; 3].
Proof.
  destruct (solid_color_drawn_before_textured Examples.ready Examples.frame
              {| program_ := 3; position_ := 0; uv_ := 1; projectionMatrix_ := 0 |}
              {| program_ := 6; position_ := 0; uv_ := -1; projectionMatrix_ := 0 |})
    as (r2 & t2 & H1 & H2).
  - vm_compute. reflexivity.
  - vm_compute. reflexivity.
  - repeat (constructor; [left; reflexivity|]). constructor.
  - repeat (constructor; [right; vm_compute; discriminate|]). constructor.
  - reflexivity.
  - exists r2, t2. split; [exact H1|]. intros p d. rewrite H2. reflexivity.
Defined.

(** C9: the destructor of a renderer whose display connection is open
    releases the context, then the surface, then the display; a context
    or a surface that is already null is skipped; whatever the two
    handles were, the renderer ends with all three handles null, and
    running the same teardown again does nothing. *)
Theorem teardown_in_dependency_order (r : Renderer) :
  display_ r ≠ EGL_NO_DISPLAY ->
  let released := set_egl r EGL_NO_DISPLAY EGL_NO_SURFACE EGL_NO_CONTEXT in
  Renderer.destructor r =
    Some (tt, released,
          [EglMakeCurrent (display_ r) EGL_NO_SURFACE EGL_NO_SURFACE EGL_NO_CONTEXT] ++
          (if context_ r =? EGL_NO_CONTEXT then []
           else [EglDestroyContext (display_ r) (context_ r)]) ++
          (if surface_ r =? EGL_NO_SURFACE then []
           else [EglDestroySurface (display_ r) (surface_ r)]) ++
          [EglTerminate (display_ r)]) ∧
  display_ released = EGL_NO_DISPLAY ∧
  surface_ released = EGL_NO_SURFACE ∧
  context_ released = EGL_NO_CONTEXT ∧
  Renderer.destructor released = Some (tt, released, []).
Proof.
  intros Hd released. split; [|repeat split].
  unfold Renderer.destructor, released.
  unfold sbind at 1, get at 1. run.
  apply Z.eqb_neq in Hd. rewrite Hd. cbn [negb].
  destruct r as [a d s c w h n sh shr ms msr tc k]. cbn [display_ surface_ context_] in *.
  destruct (Z.eqb_spec c EGL_NO_CONTEXT) as [->|Hc];
    destruct (Z.eqb_spec s EGL_NO_SURFACE) as [->|Hs]; reflexivity.
Qed.

(** C9 on a renderer whose context is already gone. *)
Lemma teardown_in_dependency_order_witness :
  let r := set_egl Examples.ready 11 12 EGL_NO_CONTEXT in
  Renderer.destructor r =
    Some (tt, set_egl r EGL_NO_DISPLAY EGL_NO_SURFACE EGL_NO_CONTEXT,
          [EglMakeCurrent 11 0 0 0; EglDestroySurface 11 12; EglTerminate 11]).
Proof.
  intros r.
  exact (proj1 (teardown_in_dependency_order r ltac:(vm_compute; discriminate))).
Defined.

(** C10: without an input buffer [handleInput] returns at once: no
    event is emitted and the renderer (both model lists, the texture
    cache, the depth counter) and the asset store are as before. *)
Theorem handleInput_without_buffer {AssetWorld : Type}
    (loadAsset : AssetWorld -> Z -> string -> shared_ptr TextureAsset * AssetWorld)
    (s : Renderer * AssetWorld) :
  Renderer.handleInput loadAsset None s = Some (tt, s, []).
Proof. reflexivity. Qed.

(** ** Renderer.cpp: the texture cache *)

Section TextureCache.
Context {AssetWorld : Type}.
Variable loadAsset : AssetWorld -> Z -> string -> shared_ptr TextureAsset * AssetWorld.

Local Abbreviation getOrLoadTexture := (Renderer.getOrLoadTexture loadAsset).
Local Abbreviation requests := (Renderer.requests loadAsset).

(** the four ways through [getOrLoadTexture] *)
Lemma getOrLoadTexture_hit (key : string) (r : Renderer) (w : AssetWorld)
    (cached : shared_ptr TextureAsset) :
  textureCache_ r !! key = Some cached ->
  getOrLoadTexture key (r, w) = Some (cached, (r, w), []).
Proof. intros H. unfold Renderer.getOrLoadTexture. rewrite H. reflexivity. Qed.

Lemma getOrLoadTexture_no_manager (key : string) (r : Renderer) (w : AssetWorld) :
  textureCache_ r !! key = None ->
  Renderer.availableAssetManager r = None ->
  getOrLoadTexture key (r, w) = Some (None, (r, w), []).
Proof. intros H1 H2. unfold Renderer.getOrLoadTexture. rewrite H1, H2. reflexivity. Qed.

Lemma getOrLoadTexture_loaded (key : string) (r : Renderer) (w w' : AssetWorld)
    (manager : Z) (texture : TextureAsset) :
  textureCache_ r !! key = None ->
  Renderer.availableAssetManager r = Some manager ->
  loadAsset w manager key = (Some texture, w') ->
  getOrLoadTexture key (r, w) =
    Some (Some texture,
          (set_textureCache r (<[key := Some texture]> (textureCache_ r)), w'),
          [LoadAsset key (Some texture)]).
Proof.
  intros H1 H2 H3. unfold Renderer.getOrLoadTexture. rewrite H1, H2, H3. reflexivity.
Qed.

Lemma getOrLoadTexture_failed (key : string) (r : Renderer) (w w' : AssetWorld)
    (manager : Z) :
  textureCache_ r !! key = None ->
  Renderer.availableAssetManager r = Some manager ->
  loadAsset w manager key = (None, w') ->
  getOrLoadTexture key (r, w) = Some (None, (r, w'), [LoadAsset key None]).
Proof.
  intros H1 H2 H3. unfold Renderer.getOrLoadTexture. rewrite H1, H2, H3. reflexivity.
Qed.

(** what one request does to the cache and to the loader, for any key *)
Lemma getOrLoadTexture_step (k : string) (s : Renderer * AssetWorld) :
  ∃ handle s' t,
    getOrLoadTexture k s = Some (handle, s', t) ∧
    (∀ key v, textureCache_ (fst s) !! key = Some v ->
              textureCache_ (fst s') !! key = Some v ∧ loads_of key t = []) ∧
    (∀ texture, handle = Some texture ->
                textureCache_ (fst s') !! k = Some (Some texture)) ∧
    (∀ key, loads_of key t = [] ∨ loads_of key t = [None] ∨
            ∃ texture, loads_of key t = [Some texture] ∧
                       textureCache_ (fst s') !! key = Some (Some texture)) ∧
    (∀ key, length (loads_of key t) ≤ (if decide (k = key) then 1 else 0))%nat ∧
    models_ (fst s') = models_ (fst s) ∧ counter (fst s') = counter (fst s) ∧
    width_ (fst s') = width_ (fst s) ∧ height_ (fst s') = height_ (fst s).
Proof.
  destruct s as [r w]. cbn [fst].
  destruct (textureCache_ r !! k) as [cached|] eqn:Hc.
  { eexists _, _, _. split; [apply getOrLoadTexture_hit, Hc|]. cbn [fst].
    split; [auto|]. split; [intros texture ->; exact Hc|].
    split; [auto|]. split; [|auto]. intros key. cbn. destruct (decide (k = key)); lia. }
  destruct (Renderer.availableAssetManager r) as [manager|] eqn:Hm.
  2:{ eexists _, _, _. split; [apply getOrLoadTexture_no_manager; assumption|].
      cbn [fst]. split; [auto|]. split; [discriminate|].
      split; [auto|]. split; [|auto]. intros key. cbn. destruct (decide (k = key)); lia. }
  destruct (loadAsset w manager k) as [[texture|] w'] eqn:Hl.
  - eexists _, _, _. split; [eapply getOrLoadTexture_loaded; eassumption|].
    cbn [fst textureCache_ set_textureCache models_ counter width_ height_].
    split; [|split; [|split; [|split]]]; [| | | |auto].
    + intros key v Hv. assert (k ≠ key) by congruence.
      rewrite lookup_insert_ne by assumption. split; [exact Hv|].
      cbn. destruct (decide (k = key)); [contradiction|reflexivity].
    + intros t [= ->]. apply lookup_insert_eq.
    + intros key. cbn. destruct (decide (k = key)) as [->|]; [|left; reflexivity].
      right. right. exists texture. split; [reflexivity|apply lookup_insert_eq].
    + intros key. cbn. destruct (decide (k = key)); cbn; lia.
  - eexists _, _, _. split; [eapply getOrLoadTexture_failed; eassumption|].
    cbn [fst]. split; [|split; [|split; [|split]]]; [| | | |auto].
    + intros key v Hv. split; [exact Hv|]. cbn.
      destruct (decide (k = key)); [congruence|reflexivity].
    + discriminate.
    + intros key. cbn. destruct (decide (k = key)); auto.
    + intros key. cbn. destruct (decide (k = key)); cbn; lia.
Qed.

Lemma requests_cons (k : string) (ks : list string) (s s1 s2 : Renderer * AssetWorld)
    (h : shared_ptr TextureAsset) (hs : list (shared_ptr TextureAsset)) (t1 t2 : Trace) :
  getOrLoadTexture k s = Some (h, s1, t1) ->
  requests ks s1 = Some (hs, s2, t2) ->
  requests (k :: ks) s = Some (h :: hs, s2, t1 ++ t2).
Proof.
  intros H1 H2. cbn [Renderer.requests]. unfold sbind at 1. rewrite H1. run.
  unfold sbind at 1. rewrite H2. run. rewrite app_nil_r. reflexivity.
Qed.

Lemma loads_of_app (key : string) (t1 t2 : Trace) :
  loads_of key (t1 ++ t2) = loads_of key t1 ++ loads_of key t2.
Proof. apply omap_app. Qed.

Lemma successes_app (l1 l2 : list (shared_ptr TextureAsset)) :
  successes (l1 ++ l2) = successes l1 ++ successes l2.
Proof. apply omap_app. Qed.

(** a key that is cached stays cached: no load, the same handle *)
Lemma requests_cached (ks : list string) :
  ∀ s, ∃ handles s' t,
    requests ks s = Some (handles, s', t) ∧
    length handles = length ks ∧
    ∀ key v, textureCache_ (fst s) !! key = Some v ->
      textureCache_ (fst s') !! key = Some v ∧
      loads_of key t = [] ∧
      ∀ j, ks !! j = Some key -> handles !! j = Some v.
Proof.
  induction ks as [|k ks IH]; intros s.
  { exists [], s, []. split; [reflexivity|]. split; [reflexivity|].
    intros key v Hv. repeat split; auto. intros j Hj. destruct j; discriminate Hj. }
  destruct (getOrLoadTexture_step k s) as (h & s1 & t1 & Hstep & Hkeep & Hnew & _).
  destruct (IH s1) as (hs & s2 & t2 & Hrest & Hlen & Hcached).
  exists (h :: hs), s2, (t1 ++ t2).
  split; [exact (requests_cons _ _ _ _ _ _ _ _ _ Hstep Hrest)|].
  split; [cbn; congruence|].
  intros key v Hv. destruct (Hkeep key v Hv) as [Hv1 Hl1].
  destruct (Hcached key v Hv1) as (Hv2 & Hl2 & Hj).
  split; [exact Hv2|]. split; [rewrite loads_of_app, Hl1, Hl2; reflexivity|].
  intros [|j] Hlook; [|apply Hj, Hlook].
  cbn in Hlook. injection Hlook as ->. cbn.
  destruct s as [r w]. cbn [fst] in Hv.
  rewrite (getOrLoadTexture_hit _ _ _ _ Hv) in Hstep. congruence.
Qed.

(** the calls of the loader for one key: failures, then at most one
    success, which is the last call *)
Lemma requests_loads (ks : list string) (key : string) :
  ∀ s handles s' t,
    requests ks s = Some (handles, s', t) ->
    ∃ n rest,
      loads_of key t = replicate n None ++ rest ∧
      (rest = [] ∨ ∃ texture, rest = [Some texture]) ∧
      (length (loads_of key t) ≤ length (filter (eq key) ks))%nat.
Proof.
  induction ks as [|k ks IH]; intros s handles s' t Hrun.
  { cbn in Hrun. injection Hrun as <- <- <-. exists 0%nat, []. cbn. auto. }
  destruct (getOrLoadTexture_step k s) as (h & s1 & t1 & Hstep & _ & _ & Hform & Hone & _).
  destruct (requests_cached ks s1) as (hs & s2 & t2 & Hrest & _ & Hcached).
  rewrite (requests_cons _ _ _ _ _ _ _ _ _ Hstep Hrest) in Hrun.
  injection Hrun as <- <- <-.
  destruct (IH s1 hs s2 t2 Hrest) as (n & rest & Hl & Hr & Hlen).
  rewrite loads_of_app.
  assert (Hcount : (length (loads_of key t1 ++ loads_of key t2)
                    ≤ length (filter (eq key) (k :: ks)))%nat).
  { rewrite length_app. specialize (Hone key). rewrite filter_cons.
    destruct (decide (k = key)) as [->|Hne].
    - rewrite decide_True by reflexivity. cbn [length]. lia.
    - rewrite decide_False by congruence. lia. }
  destruct (Hform key) as [E | [E | (texture & E & Hc)]].
  - rewrite E in *. exists n, rest. cbn [app] in *.
    split; [exact Hl|]. split; [exact Hr|exact Hcount].
  - rewrite E in *. exists (S n), rest. cbn [app replicate] in *.
    split; [rewrite Hl; reflexivity|]. split; [exact Hr|exact Hcount].
  - destruct (Hcached key _ Hc) as (_ & E2 & _). rewrite E, E2 in *.
    exists 0%nat, [Some texture]. split; [reflexivity|]. split; [eauto|exact Hcount].
Qed.

(** once a request for a key has returned a texture, every later
    request for that key returns the same one *)
Lemma requests_same_handle (ks : list string) (key : string) :
  ∀ s handles s' t,
    requests ks s = Some (handles, s', t) ->
    ∀ i j texture, (i ≤ j)%nat ->
      ks !! i = Some key -> ks !! j = Some key ->
      handles !! i = Some (Some texture) -> handles !! j = Some (Some texture).
Proof.
  induction ks as [|k ks IH]; intros s handles s' t Hrun i j texture Hij Hi Hj Hh.
  { destruct i; discriminate Hi. }
  destruct (getOrLoadTexture_step k s) as (h & s1 & t1 & Hstep & _ & Hnew & _).
  destruct (requests_cached ks s1) as (hs & s2 & t2 & Hrest & _ & Hcached).
  rewrite (requests_cons _ _ _ _ _ _ _ _ _ Hstep Hrest) in Hrun.
  injection Hrun as <- <- <-.
  destruct i as [|i].
  - cbn in Hi, Hh. injection Hi as ->. injection Hh as ->.
    destruct j as [|j]; [reflexivity|]. cbn in Hj |- *.
    destruct (Hcached key _ (Hnew texture eq_refl)) as (_ & _ & Hall). apply Hall, Hj.
  - destruct j as [|j]; [lia|]. cbn in Hi, Hj, Hh |- *.
    eapply (IH s1 hs s2 t2 Hrest i j); [lia|eassumption..].
Qed.

(** C1, as the code has it: a request calls the loader at most once,
    and only on a miss with the asset manager at hand.  A hit returns
    the cached handle and changes nothing.  A load that succeeds is put
    into the cache; a load that fails leaves the cache as it was and a
    null handle is returned, so the next request for the key calls the
    loader again.  Over any sequence of requests the calls for one key
    are therefore failures followed by at most one success: a key is
    loaded successfully at most once, after that the loader is not
    called for it again, and every request that returns a texture for a
    key is followed only by requests returning that same texture. *)
Theorem texture_loaded_at_most_once_successfully :
  (∀ (key : string) (r : Renderer) (w : AssetWorld),
     match textureCache_ r !! key with
     | Some cached => getOrLoadTexture key (r, w) = Some (cached, (r, w), [])
     | None =>
         match Renderer.availableAssetManager r with
         | None => getOrLoadTexture key (r, w) = Some (None, (r, w), [])
         | Some manager =>
             match loadAsset w manager key with
             | (Some texture, w') =>
                 getOrLoadTexture key (r, w) =
                   Some (Some texture,
                         (set_textureCache r (<[key := Some texture]> (textureCache_ r)), w'),
                         [LoadAsset key (Some texture)])
             | (None, w') =>
                 getOrLoadTexture key (r, w) = Some (None, (r, w'), [LoadAsset key None])
             end
         end
     end) ∧
  (∀ (keys : list string) (s : Renderer * AssetWorld),
     ∃ handles s' t,
       requests keys s = Some (handles, s', t) ∧
       length handles = length keys ∧
       ∀ key : string,
         (is_Some (textureCache_ (fst s) !! key) -> loads_of key t = []) ∧
         (length (loads_of key t) ≤ length (filter (eq key) keys))%nat ∧
         (∃ n rest, loads_of key t = replicate n None ++ rest ∧
                    (rest = [] ∨ ∃ texture, rest = [Some texture])) ∧
         (length (successes (loads_of key t)) ≤ 1)%nat ∧
         (∀ i j texture, (i ≤ j)%nat ->
            keys !! i = Some key -> keys !! j = Some key ->
            handles !! i = Some (Some texture) -> handles !! j = Some (Some texture))).
Proof.
  split.
  - intros key r w.
    destruct (textureCache_ r !! key) eqn:Hc; [apply getOrLoadTexture_hit, Hc|].
    destruct (Renderer.availableAssetManager r) eqn:Hm;
      [|apply getOrLoadTexture_no_manager; assumption].
    destruct (loadAsset w z key) as [[texture|] w'] eqn:Hl.
    + eapply getOrLoadTexture_loaded; eassumption.
    + eapply getOrLoadTexture_failed; eassumption.
  - intros keys s.
    destruct (requests_cached keys s) as (handles & s' & t & Hrun & Hlen & Hcached).
    exists handles, s', t. split; [exact Hrun|]. split; [exact Hlen|].
    intros key.
    destruct (requests_loads keys key s handles s' t Hrun) as (n & rest & Hl & Hr & Hcount).
    split; [|split; [|split; [|split]]].
    + intros [v Hv]. apply (Hcached key v Hv).
    + exact Hcount.
    + eauto.
    + rewrite Hl, successes_app.
      assert (Hnone : successes (replicate n None) = []).
      { clear. induction n; [reflexivity|exact IHn]. }
      rewrite Hnone. destruct Hr as [-> | [texture ->]]; cbn; lia.
    + exact (requests_same_handle keys key s handles s' t Hrun).
Qed.

End TextureCache.

(** C1 as stated fails: when the loader fails, the key is not cached and
    the second request for it calls the loader a second time. *)
Lemma loader_called_again_after_failure :
  ¬ (∀ (keys : list string) (key : string) handles s' t,
       Renderer.requests Examples.loader_fail keys (Examples.blank, 0%nat)
         = Some (handles, s', t) ->
       (length (loads_of key t) ≤ 1)%nat).
Proof.
  intros H.
  specialize (H ["android_robot.png"; "android_robot.png"] "android_robot.png"
                _ _ _ eq_refl).
  vm_compute in H. lia.
Qed.

(** the same two requests on a loader that succeeds: one load, one
    texture object *)
Lemma texture_loaded_at_most_once_successfully_witness :
  ∃ s' t,
    Renderer.requests Examples.loader_ok ["android_robot.png"; "android_robot.png"]
      (Examples.blank, 0%nat)
      = Some ([Some {| address := 0; textureID := 1 |};
               Some {| address := 0; textureID := 1 |}], s', t) ∧
    loads_of "android_robot.png" t = [Some {| address := 0; textureID := 1 |}].
Proof.
  destruct (proj2 (texture_loaded_at_most_once_successfully Examples.loader_ok)
              ["android_robot.png"; "android_robot.png"] (Examples.blank, 0%nat))
    as (handles & s' & t & Hrun & _).
  vm_compute in Hrun. injection Hrun as <- <- <-.
  eexists _, _. split; reflexivity.
Defined.

(** ** Renderer.cpp: models and their textures *)

Section Models.
Context {AssetWorld : Type}.
Variable loadAsset : AssetWorld -> Z -> string -> shared_ptr TextureAsset * AssetWorld.

Local Abbreviation getOrLoadTexture := (Renderer.getOrLoadTexture loadAsset).
Local Abbreviation drawRobotInPosition := (Renderer.drawRobotInPosition loadAsset).
Local Abbreviation createModels := (Renderer.createModels loadAsset).

Lemma emplace_back_run (m : Model) (r : Renderer) (w : AssetWorld) :
  Renderer.emplace_back m (r, w) = Some (tt, (set_models r (models_ r ++ [m]), w), []).
Proof. reflexivity. Qed.

(** [drawRobotInPosition] appends one textured quad at depth [z], or
    nothing when the texture cannot be had *)
Lemma drawRobotInPosition_run (x y z : float) (s : Renderer * AssetWorld) :
  ∃ handle r' w' t,
    getOrLoadTexture "android_robot.png" s = Some (handle, (r', w'), t) ∧
    drawRobotInPosition x y z s =
      Some (tt,
            (match handle with
             | Some _ =>
                 set_models r' (models_ r' ++
                   [ {| vertices_ := Renderer.robot_vertices x y z;
                        indices_ := quad_indices; spTexture_ := handle |} ])
             | None => r'
             end, w'), t) ∧
    models_ r' = models_ (fst s) ∧ counter r' = counter (fst s) ∧
    width_ r' = width_ (fst s) ∧ height_ r' = height_ (fst s).
Proof.
  destruct (getOrLoadTexture_step loadAsset "android_robot.png" s)
    as (h & [r' w'] & t & Hstep & _ & _ & _ & _ & Hm & Hc & Hw & Hh).
  exists h, r', w', t. split; [exact Hstep|]. split; [|auto].
  unfold Renderer.drawRobotInPosition. unfold sbind. rewrite Hstep. run.
  destruct h; cbn; rewrite app_nil_r; reflexivity.
Qed.

(** the input-driven path keeps the textured list free of models
    without texture *)
Lemma drawRobotInPosition_keeps_textured (x y z : float) (s s' : Renderer * AssetWorld)
    (t : Trace) :
  Forall textured (models_ (fst s)) ->
  drawRobotInPosition x y z s = Some (tt, s', t) ->
  Forall textured (models_ (fst s')).
Proof.
  intros Hall Hrun.
  destruct (drawRobotInPosition_run x y z s) as (h & r' & w' & t' & _ & Hrun' & Hm & _).
  rewrite Hrun' in Hrun. injection Hrun as <- <-.
  destruct h; cbn [fst]; [|rewrite Hm; exact Hall].
  cbn [models_ set_models]. rewrite Hm. apply Forall_app. split; [exact Hall|].
  constructor; [discriminate|constructor].
Qed.

(** [createModels] after a failed fetch: the quad is appended all the
    same, without texture *)
Lemma createModels_failed_fetch (s : Renderer * AssetWorld) (r' : Renderer)
    (w' : AssetWorld) (t : Trace) :
  getOrLoadTexture "android_robot.png" s = Some (None, (r', w'), t) ->
  ∃ m, createModels s = Some (tt, (set_models r' (models_ r' ++ [m]), w'), t) ∧
       spTexture_ m = None.
Proof.
  intros Hfetch. eexists. split.
  - unfold Renderer.createModels. unfold sbind at 1, get at 1. run.
    unfold sbind at 1. rewrite Hfetch. run. unfold sbind, sret. run.
    rewrite emplace_back_run. rewrite ?app_nil_r. reflexivity.
  - reflexivity.
Qed.

End Models.

(** C3 (the code departs from it): when the asset loader fails during
    initialisation, the fetch of android_robot.png in [createModels]
    returns null, and yet one quad without texture is appended to the
    textured list; the first frame then hands it to the texture-sampling
    program, whose [drawModel] dereferences the null texture. *)
Theorem createModels_appends_model_without_texture :
  ∃ (r : Renderer) (w : nat) (t : Trace) (m : Model) (sh : Shader),
    Renderer.initRenderer Examples.loader_fail Examples.env_ok (Examples.blank, 0%nat)
      = Some (tt, (r, w), t) ∧
    loads_of "android_robot.png" t = [None] ∧
    models_ r = [m] ∧ spTexture_ m = None ∧
    shader_ r = Some sh ∧ uv_ sh ≠ -1 ∧
    Shader.drawModel sh m = None ∧
    Renderer.render Examples.frame r = None.
Proof.
  eexists _, _, _, _, _. split; [vm_compute; reflexivity|].
  split; [reflexivity|]. split; [reflexivity|]. split; [reflexivity|].
  split; [reflexivity|]. split; [discriminate|]. split; reflexivity.
Qed.

(** ** Binary32 arithmetic without rounding

    The operations of [SpecFloat] round a mantissa to 24 bits.  When the
    exact result has 24 significant bits followed by zeros, nothing is
    lost: this is all the pointer mapping of [handleInput] needs at the
    centre and at the corner of a surface. *)

Lemma digits2_pos_bounds (p : positive) :
  2 ^ (Zpos (digits2_pos p) - 1) <= Zpos p < 2 ^ Zpos (digits2_pos p).
Proof.
  induction p as [p IH|p IH|]; cbn [digits2_pos].
  - rewrite Pos2Z.inj_succ, Z.pow_succ_r by lia.
    replace (Z.succ (Zpos (digits2_pos p)) - 1) with (Z.succ (Zpos (digits2_pos p) - 1)) by lia.
    rewrite Z.pow_succ_r by lia. lia.
  - rewrite Pos2Z.inj_succ, Z.pow_succ_r by lia.
    replace (Z.succ (Zpos (digits2_pos p)) - 1) with (Z.succ (Zpos (digits2_pos p) - 1)) by lia.
    rewrite Z.pow_succ_r by lia. lia.
  - cbn. lia.
Qed.

Lemma digits2_pos_unique (p : positive) (d : Z) :
  2 ^ (d - 1) <= Zpos p < 2 ^ d -> Zpos (digits2_pos p) = d.
Proof.
  intros [Hl Hu]. pose proof (digits2_pos_bounds p) as [Hl' Hu'].
  assert (0 < d).
  { destruct (Z.lt_ge_cases 0 d) as [|Hd]; [assumption|].
    assert (2 ^ d <= 2 ^ 0) by (apply Z.pow_le_mono_r; lia). cbn in *. lia. }
  destruct (Z.lt_trichotomy (Zpos (digits2_pos p)) d) as [Hlt | [Heq | Hgt]]; [|exact Heq|].
  - assert (2 ^ Zpos (digits2_pos p) <= 2 ^ (d - 1)) by (apply Z.pow_le_mono_r; lia). lia.
  - assert (2 ^ d <= 2 ^ (Zpos (digits2_pos p) - 1)) by (apply Z.pow_le_mono_r; lia). lia.
Qed.

Lemma iter_pos_nat {A} (f : A -> A) (p : positive) :
  forall x, SpecFloat.iter_pos f p x = Nat.iter (Pos.to_nat p) f x.
Proof.
  induction p as [p IH|p IH|]; intros x; cbn [SpecFloat.iter_pos].
  - rewrite !IH, Pos2Nat.inj_xI. rewrite <- Nat.iter_add.
    replace (Pos.to_nat p + Pos.to_nat p)%nat with (2 * Pos.to_nat p)%nat by lia.
    rewrite <- Nat.iter_succ_r. reflexivity.
  - rewrite !IH, Pos2Nat.inj_xO. rewrite <- Nat.iter_add.
    replace (Pos.to_nat p + Pos.to_nat p)%nat with (2 * Pos.to_nat p)%nat by lia.
    reflexivity.
  - reflexivity.
Qed.

Lemma Zpos_shiftl_nat (m : positive) (k : nat) :
  Zpos (Pos.shiftl_nat m k) = Zpos m * 2 ^ Z.of_nat k.
Proof.
  induction k as [|k IH]; [cbn; lia|].
  change (Pos.shiftl_nat m (S k)) with (xO (Pos.shiftl_nat m k)).
  rewrite Pos2Z.inj_xO, IH, Nat2Z.inj_succ, Z.pow_succ_r by lia. lia.
Qed.

Lemma shr_exact (m : positive) (k : nat) :
  Nat.iter k shr_1 {| shr_m := Zpos (Pos.shiftl_nat m k); shr_r := false; shr_s := false |}
  = {| shr_m := Zpos m; shr_r := false; shr_s := false |}.
Proof.
  induction k as [|k IH]; [reflexivity|].
  rewrite Nat.iter_succ_r. exact IH.
Qed.

(** rounding a mantissa that has 24 significant bits followed by zeros *)
Lemma round_exact (s : bool) (M m : positive) (k : nat) (e : Z) :
  Zpos M = Zpos m * 2 ^ Z.of_nat k ->
  Zpos (digits2_pos m) = 24 ->
  -149 <= e + Z.of_nat k <= 104 ->
  binary_round_aux F32.prec F32.emax s (Zpos M) e loc_Exact = S754_finite s m (e + Z.of_nat k).
Proof.
  intros HM Hd He.
  assert (M = Pos.shiftl_nat m k) as ->.
  { apply Pos2Z.inj. rewrite HM, Zpos_shiftl_nat. reflexivity. }
  assert (HdM : Zpos (digits2_pos (Pos.shiftl_nat m k)) = 24 + Z.of_nat k).
  { apply digits2_pos_unique. rewrite Zpos_shiftl_nat.
    pose proof (digits2_pos_bounds m) as Hb. rewrite Hd in Hb.
    replace (24 + Z.of_nat k - 1) with (23 + Z.of_nat k) by lia.
    rewrite !Z.pow_add_r by lia. change (24 - 1) with 23 in Hb.
    assert (0 < 2 ^ Z.of_nat k) by (apply Z.pow_pos_nonneg; lia). nia. }
  unfold binary_round_aux, shr_fexp, Zdigits2. rewrite HdM.
  unfold fexp, emin, F32.prec, F32.emax.
  replace (Z.max (24 + Z.of_nat k + e - 24) (3 - 128 - 24) - e) with (Z.of_nat k) by lia.
  cbn [shr_record_of_loc].
  assert (Hshr : shr {| shr_m := Zpos (Pos.shiftl_nat m k); shr_r := false; shr_s := false |}
                     e (Z.of_nat k)
                 = ({| shr_m := Zpos m; shr_r := false; shr_s := false |}, e + Z.of_nat k)).
  { destruct k as [|k]; [unfold shr; cbn [Z.of_nat Pos.shiftl_nat nat_rect];
                          rewrite Z.add_0_r; reflexivity|].
    change (Z.of_nat (S k)) with (Zpos (Pos.of_succ_nat k)). unfold shr.
    f_equal.
    rewrite iter_pos_nat, SuccNat2Pos.id_succ. apply shr_exact. }
  rewrite Hshr. cbn [shr_m loc_of_shr_record round_nearest_even].
  rewrite Hd.
  replace (Z.max (24 + (e + Z.of_nat k) - 24) (3 - 128 - 24) - (e + Z.of_nat k)) with 0 by lia.
  cbn [shr_record_of_loc shr shr_m].
  replace (e + Z.of_nat k <=? 128 - 24) with true by (symmetry; apply Z.leb_le; lia).
  reflexivity.
Qed.

Lemma mul_exact (s1 s2 : bool) (m1 m2 m : positive) (e1 e2 : Z) (k : nat) :
  Zpos m1 * Zpos m2 = Zpos m * 2 ^ Z.of_nat k ->
  Zpos (digits2_pos m) = 24 ->
  -149 <= e1 + e2 + Z.of_nat k <= 104 ->
  F32.mul (S754_finite s1 m1 e1) (S754_finite s2 m2 e2)
  = S754_finite (xorb s1 s2) m (e1 + e2 + Z.of_nat k).
Proof.
  intros HM Hd He. unfold F32.mul, SFmul. apply round_exact; [|assumption..].
  rewrite Pos2Z.inj_mul. exact HM.
Qed.

Lemma div_exact (s1 s2 : bool) (m1 m2 m : positive) (e1 e2 : Z) (k : nat) :
  Zpos (digits2_pos m1) = 24 -> Zpos (digits2_pos m2) = 24 ->
  Zpos m1 * 2 ^ 24 = Zpos m * 2 ^ Z.of_nat k * Zpos m2 ->
  Zpos (digits2_pos m) = 24 ->
  -125 <= e1 - e2 ->
  -149 <= e1 - e2 - 24 + Z.of_nat k <= 104 ->
  F32.div (S754_finite s1 m1 e1) (S754_finite s2 m2 e2)
  = S754_finite (xorb s1 s2) m (e1 - e2 - 24 + Z.of_nat k).
Proof.
  intros Hd1 Hd2 HM Hd Hr He.
  unfold F32.div, SFdiv, SFdiv_core_binary, Zdigits2. rewrite Hd1, Hd2.
  unfold fexp, emin, F32.prec, F32.emax.
  replace (Z.min (Z.max (24 + e1 - (24 + e2) - 24) (3 - 128 - 24)) (e1 - e2))
    with (e1 - e2 - 24) by lia.
  replace (e1 - e2 - (e1 - e2 - 24)) with 24 by lia.
  rewrite Z.shiftl_mul_pow2 by lia.
  assert (Hq : Z.div_eucl (Zpos m1 * 2 ^ 24) (Zpos m2) = (Zpos m * 2 ^ Z.of_nat k, 0)).
  { pose proof (Z.div_eucl_eq (Zpos m1 * 2 ^ 24) (Zpos m2) ltac:(lia)) as Heq.
    pose proof (Z.mod_pos_bound (Zpos m1 * 2 ^ 24) (Zpos m2) ltac:(lia)) as Hb.
    unfold Z.modulo in Hb.
    destruct (Z.div_eucl (Zpos m1 * 2 ^ 24) (Zpos m2)) as [q r].
    assert (0 < 2 ^ Z.of_nat k) by (apply Z.pow_pos_nonneg; lia).
    assert (q = Zpos m * 2 ^ Z.of_nat k) by nia.
    subst q. f_equal. lia. }
  rewrite Hq.
  assert (Hloc : new_location (Zpos m2) 0 = loc_Exact).
  { unfold new_location, new_location_even, new_location_odd.
    destruct (Z.even (Zpos m2)); reflexivity. }
  rewrite Hloc.
  assert (0 < 2 ^ Z.of_nat k) by (apply Z.pow_pos_nonneg; lia).
  destruct (Zpos m * 2 ^ Z.of_nat k) as [|M|M] eqn:EM; try lia.
  apply (round_exact (xorb s1 s2) M m k); [|assumption..].
  lia.
Qed.

Lemma of_int_exact (W : Z) :
  0 < W < 2 ^ 24 ->
  exists (m : positive) (j : nat),
    F32.of_int W = S754_finite false m (- Z.of_nat j) /\
    Zpos (digits2_pos m) = 24 /\
    Zpos m = W * 2 ^ Z.of_nat j /\ (j <= 23)%nat.
Proof.
  intros [Hpos Hlt]. destruct W as [|p|p]; try lia.
  pose proof (digits2_pos_bounds p) as Hb.
  assert (Hd : 1 <= Zpos (digits2_pos p) <= 24).
  { split; [lia|].
    destruct (Z.le_gt_cases (Zpos (digits2_pos p)) 24) as [|Hgt]; [assumption|].
    assert (2 ^ 24 <= 2 ^ (Zpos (digits2_pos p) - 1)) by (apply Z.pow_le_mono_r; lia). lia. }
  set (j := Z.to_nat (24 - Zpos (digits2_pos p))).
  exists (Pos.shiftl_nat p j), j.
  assert (Hj : Z.of_nat j = 24 - Zpos (digits2_pos p)) by (unfold j; lia).
  assert (Hdm : Zpos (digits2_pos (Pos.shiftl_nat p j)) = 24).
  { apply digits2_pos_unique. rewrite Zpos_shiftl_nat.
    assert (0 < 2 ^ Z.of_nat j) by (apply Z.pow_pos_nonneg; lia).
    replace 24 with (Zpos (digits2_pos p) + Z.of_nat j) at 2 by lia.
    replace (24 - 1) with (Zpos (digits2_pos p) - 1 + Z.of_nat j) by lia.
    rewrite !Z.pow_add_r by lia. nia. }
  split; [|split; [exact Hdm|split; [apply Zpos_shiftl_nat|lia]]].
  unfold F32.of_int, binary_normalize, binary_round.
  unfold fexp, emin, F32.prec, F32.emax, shl_align.
  replace (Z.max (Zpos (digits2_pos p) + 0 - 24) (3 - 128 - 24) - 0) with (- Z.of_nat j) by lia.
  destruct j as [|j'] eqn:Ej.
  - cbn [Z.of_nat Z.opp].
    replace (Z.max (Zpos (digits2_pos p) + 0 - 24) (3 - 128 - 24)) with 0 by lia.
    apply (round_exact false p p 0 0); [cbn; lia|exact Hdm|cbn; lia].
  - change (- Z.of_nat (S j')) with (Zneg (Pos.of_succ_nat j')).
    replace (Z.max (Zpos (digits2_pos p) + 0 - 24) (3 - 128 - 24))
      with (- Z.of_nat (S j')) by lia.
    assert (Hiter : Pos.iter xO p (Pos.of_succ_nat j') = Pos.shiftl_nat p (S j')).
    { rewrite Pos2Nat.inj_iter, SuccNat2Pos.id_succ. reflexivity. }
    rewrite Hiter.
    replace (- Z.of_nat (S j')) with (- Z.of_nat (S j') + Z.of_nat 0) at 2 by (cbn; lia).
    apply (round_exact false _ (Pos.shiftl_nat p (S j')) 0); [cbn; lia|exact Hdm|cbn [Z.of_nat]; lia].
Qed.

Lemma half_exact (m : positive) (j : nat) :
  Zpos (digits2_pos m) = 24 -> (j <= 23)%nat ->
  F32.div (S754_finite false m (- Z.of_nat j)) F32.two = S754_finite false m (- Z.of_nat j - 1).
Proof.
  intros Hd Hj. unfold F32.two.
  rewrite (div_exact false false m 8388608 m (- Z.of_nat j) (-22) 1);
    [f_equal; cbn [Z.of_nat]; lia | assumption | reflexivity | | assumption | lia | cbn [Z.of_nat]; lia].
  change (2 ^ 24) with 16777216. change (2 ^ Z.of_nat 1) with 2. lia.
Qed.

Lemma centre_y_exact (m : positive) (j : nat) :
  Zpos (digits2_pos m) = 24 -> (j <= 23)%nat ->
  let h := S754_finite false m (- Z.of_nat j) in
  F32.add (F32.div (F32.mul (F32.opp F32.four) (F32.div h F32.two)) h) F32.two = F32.zero.
Proof.
  intros Hd Hj h. unfold h. rewrite (half_exact m j Hd Hj).
  unfold F32.opp, F32.four, SFopp. cbn [negb].
  rewrite (mul_exact true false 8388608 m m (-21) (- Z.of_nat j - 1) 23);
    [| change (2 ^ Z.of_nat 23) with 8388608; lia | assumption | cbn [Z.of_nat]; lia].
  rewrite (div_exact true false m m 8388608 _ (- Z.of_nat j) 1);
    [| assumption | assumption
     | change (2 ^ 24) with 16777216; change (2 ^ Z.of_nat 1) with 2; lia
     | reflexivity | cbn [Z.of_nat]; lia | cbn [Z.of_nat]; lia].
  replace (-21 + (- Z.of_nat j - 1) + Z.of_nat 23 - - Z.of_nat j - 24 + Z.of_nat 1)
    with (-22) by (cbn [Z.of_nat]; lia).
  reflexivity.
Qed.

Lemma centre_x_exact (m m8 : positive) (j : nat) :
  Zpos (digits2_pos m) = 24 -> (j <= 23)%nat -> Zpos m = 8 * Zpos m8 ->
  let w := S754_finite false m (- Z.of_nat j) in
  F32.sub (F32.div (F32.mul F32.lit_2_5 (F32.div w F32.two)) w) F32.lit_1_25 = F32.zero.
Proof.
  intros Hd Hj H8 w. unfold w. rewrite (half_exact m j Hd Hj).
  pose proof (digits2_pos_bounds m) as Hb. rewrite Hd in Hb.
  change (2 ^ (24 - 1)) with 8388608 in Hb. change (2 ^ 24) with 16777216 in Hb.
  unfold F32.lit_2_5.
  destruct (Z.lt_ge_cases (5 * Zpos m8) 8388608) as [Hsmall | Hlarge].
  - (* 1.25 w stays in the binade of w *)
    rewrite (mul_exact false false 10485760 m (10 * m8) (-22) (- Z.of_nat j - 1) 23);
      [| change (2 ^ Z.of_nat 23) with 8388608; lia
       | apply digits2_pos_unique; change (2 ^ (24 - 1)) with 8388608;
         change (2 ^ 24) with 16777216; lia
       | cbn [Z.of_nat]; lia].
    rewrite (div_exact false false (10 * m8) m 10485760 _ (- Z.of_nat j) 1);
      [| apply digits2_pos_unique; change (2 ^ (24 - 1)) with 8388608;
         change (2 ^ 24) with 16777216; lia
       | assumption
       | change (2 ^ 24) with 16777216; change (2 ^ Z.of_nat 1) with 2; lia
       | reflexivity | cbn [Z.of_nat]; lia | cbn [Z.of_nat]; lia].
    replace (-22 + (- Z.of_nat j - 1) + Z.of_nat 23 - - Z.of_nat j - 24 + Z.of_nat 1)
      with (-23) by (cbn [Z.of_nat]; lia).
    reflexivity.
  - (* 1.25 w is in the next binade *)
    rewrite (mul_exact false false 10485760 m (5 * m8) (-22) (- Z.of_nat j - 1) 24);
      [| change (2 ^ Z.of_nat 24) with 16777216; lia
       | apply digits2_pos_unique; change (2 ^ (24 - 1)) with 8388608;
         change (2 ^ 24) with 16777216; lia
       | cbn [Z.of_nat]; lia].
    rewrite (div_exact false false (5 * m8) m 10485760 _ (- Z.of_nat j) 0);
      [| apply digits2_pos_unique; change (2 ^ (24 - 1)) with 8388608;
         change (2 ^ 24) with 16777216; lia
       | assumption
       | change (2 ^ 24) with 16777216; change (2 ^ Z.of_nat 0) with 1; lia
       | reflexivity | cbn [Z.of_nat]; lia | cbn [Z.of_nat]; lia].
    replace (-22 + (- Z.of_nat j - 1) + Z.of_nat 24 - - Z.of_nat j - 24 + Z.of_nat 0)
      with (-23) by (cbn [Z.of_nat]; lia).
    reflexivity.
Qed.

Lemma centre_x (W : Z) :
  0 < W < 2 ^ 21 ->
  F32.sub (F32.div (F32.mul F32.lit_2_5 (F32.div (F32.of_int W) F32.two)) (F32.of_int W)) F32.lit_1_25 = F32.zero.
Proof.
  intros HW. change (2 ^ 21) with 2097152 in HW.
  destruct (of_int_exact W) as (m & j & -> & Hd & Hm & Hj);
    [change (2 ^ 24) with 16777216; lia|].
  pose proof (digits2_pos_bounds m) as Hb. rewrite Hd in Hb.
  change (2 ^ (24 - 1)) with 8388608 in Hb. change (2 ^ 24) with 16777216 in Hb.
  assert (3 <= j)%nat.
  { destruct (Nat.lt_ge_cases j 3) as [Hlt|]; [|assumption]. exfalso.
    assert (2 ^ Z.of_nat j <= 2 ^ 2) by (apply Z.pow_le_mono_r; lia).
    change (2 ^ 2) with 4 in *. nia. }
  assert (Hm8 : exists m8 : positive, Zpos m = 8 * Zpos m8).
  { exists (Z.to_pos (W * 2 ^ Z.of_nat (j - 3))).
    assert (0 < 2 ^ Z.of_nat (j - 3)) by (apply Z.pow_pos_nonneg; lia).
    rewrite Z2Pos.id by nia. rewrite Hm.
    replace (Z.of_nat j) with (3 + Z.of_nat (j - 3)) by lia.
    rewrite Z.pow_add_r by lia. change (2 ^ 3) with 8. lia. }
  destruct Hm8 as [m8 H8]. exact (centre_x_exact m m8 j Hd Hj H8).
Qed.

Lemma centre_y (H : Z) :
  0 < H < 2 ^ 24 ->
  F32.add (F32.div (F32.mul (F32.opp F32.four) (F32.div (F32.of_int H) F32.two)) (F32.of_int H)) F32.two = F32.zero.
Proof.
  intros HH. destruct (of_int_exact H HH) as (m & j & -> & Hd & _ & Hj).
  exact (centre_y_exact m j Hd Hj).
Qed.

Lemma corner (W H : Z) :
  0 < W < 2 ^ 24 -> 0 < H < 2 ^ 24 ->
  F32.sub (F32.div (F32.mul F32.lit_2_5 F32.zero) (F32.of_int W)) F32.lit_1_25 = F32.opp F32.lit_1_25 /\
  F32.add (F32.div (F32.mul (F32.opp F32.four) F32.zero) (F32.of_int H)) F32.two = F32.two.
Proof.
  intros HW HH.
  destruct (of_int_exact W HW) as (m & j & -> & _).
  destruct (of_int_exact H HH) as (m' & j' & -> & _).
  split; reflexivity.
Qed.

(** *** Rounding to nearest *)

Lemma shr_1_m (mrs : shr_record) :
  0 <= shr_m mrs -> shr_m (shr_1 mrs) = shr_m mrs / 2.
Proof.
  destruct mrs as [q r s]. cbn [shr_m]. intros Hq.
  rewrite <- Z.div2_div.
  destruct q as [|[p|p|]|p]; try lia; reflexivity.
Qed.

Lemma shr_iter_m (n : nat) (mrs : shr_record) :
  0 <= shr_m mrs -> shr_m (Nat.iter n shr_1 mrs) = shr_m mrs / 2 ^ Z.of_nat n.
Proof.
  intros Hq. induction n as [|n IH]; [cbn; rewrite Z.div_1_r; reflexivity|].
  rewrite Nat.iter_succ, shr_1_m.
  - rewrite IH, Z.div_div, Nat2Z.inj_succ, Z.pow_succ_r by (try apply Z.pow_pos_nonneg; lia).
    f_equal. lia.
  - rewrite IH. apply Z.div_pos; [assumption|apply Z.pow_pos_nonneg; lia].
Qed.

Lemma shr_nat (mrs : shr_record) (e : Z) (n : nat) :
  shr mrs e (Z.of_nat n) = (Nat.iter n shr_1 mrs, e + Z.of_nat n).
Proof.
  destruct n as [|n]; [cbn [Z.of_nat shr Nat.iter]; rewrite Z.add_0_r; reflexivity|].
  change (Z.of_nat (S n)) with (Zpos (Pos.of_succ_nat n)). unfold shr.
  rewrite iter_pos_nat, SuccNat2Pos.id_succ. reflexivity.
Qed.

Lemma round_nearest_even_bounds (q : Z) (l : location) :
  q <= round_nearest_even q l <= q + 1.
Proof.
  destruct l as [|[| |]]; cbn [round_nearest_even]; try lia.
  destruct (Z.even q); lia.
Qed.

(** rounding a mantissa of 24 + n bits: the result is one of the two
    24-bit neighbours, the upper one being possibly the next power of
    two *)
Lemma round_near (s : bool) (M : positive) (n : nat) (e : Z) :
  Zpos (digits2_pos M) = 24 + Z.of_nat n ->
  -149 <= e + Z.of_nat n -> e + Z.of_nat n + 1 <= 104 ->
  exists (m' : positive) (e' : Z),
    binary_round_aux F32.prec F32.emax s (Zpos M) e loc_Exact = S754_finite s m' e' /\
    Zpos (digits2_pos m') = 24 /\
    ((e' = e + Z.of_nat n /\
      (Zpos m' - 1) * 2 ^ Z.of_nat n <= Zpos M < (Zpos m' + 1) * 2 ^ Z.of_nat n) \/
     (e' = e + Z.of_nat n + 1 /\ m' = 8388608%positive /\
      16777215 * 2 ^ Z.of_nat n <= Zpos M)).
Proof.
  intros Hd Hlo Hhi.
  pose proof (digits2_pos_bounds M) as Hb. rewrite Hd in Hb.
  replace (24 + Z.of_nat n - 1) with (23 + Z.of_nat n) in Hb by lia.
  rewrite !Z.pow_add_r in Hb by lia.
  change (2 ^ 23) with 8388608 in Hb. change (2 ^ 24) with 16777216 in Hb.
  set (X := 2 ^ Z.of_nat n) in *.
  assert (HX : 0 < X) by (apply Z.pow_pos_nonneg; lia).
  unfold binary_round_aux, shr_fexp, Zdigits2. rewrite Hd.
  unfold fexp, emin, F32.prec, F32.emax.
  replace (Z.max (24 + Z.of_nat n + e - 24) (3 - 128 - 24) - e) with (Z.of_nat n) by lia.
  rewrite shr_nat. cbn [shr_record_of_loc].
  pose proof (shr_iter_m n {| shr_m := Zpos M; shr_r := false; shr_s := false |}
                ltac:(cbn; lia)) as Hq.
  cbn [shr_m] in Hq. fold X in Hq.
  destruct (Nat.iter n shr_1 {| shr_m := Zpos M; shr_r := false; shr_s := false |})
    as [q r0 s0].
  cbn [shr_m] in Hq. subst q.
  pose proof (Z.div_mod (Zpos M) X ltac:(lia)) as Hdm.
  pose proof (Z.mod_pos_bound (Zpos M) X HX) as Hmod.
  set (q := Zpos M / X) in *.
  assert (Hqb : 8388608 <= q < 16777216) by nia.
  cbn [shr_m].
  pose proof (round_nearest_even_bounds q
                (loc_of_shr_record {| shr_m := q; shr_r := r0; shr_s := s0 |})) as Hr.
  set (q' := round_nearest_even q _) in *.
  destruct q' as [|p|p] eqn:Eq'; try lia.
  destruct (Z.lt_ge_cases (Zpos p) 16777216) as [Hlt|Hge].
  - assert (Hdp : Zpos (digits2_pos p) = 24).
    { apply digits2_pos_unique. change (2 ^ (24 - 1)) with 8388608.
      change (2 ^ 24) with 16777216. lia. }
    cbn [Zdigits2]. rewrite Hdp.
    replace (Z.max (24 + (e + Z.of_nat n) - 24) (3 - 128 - 24) - (e + Z.of_nat n))
      with 0 by lia.
    cbn [shr shr_m].
    replace (e + Z.of_nat n <=? 128 - 24) with true by (symmetry; apply Z.leb_le; lia).
    exists p, (e + Z.of_nat n). split; [reflexivity|]. split; [exact Hdp|].
    left. split; [reflexivity|]. nia.
  - assert (p = 16777216%positive) as -> by lia.
    change (Z.pos (digits2_pos 16777216)) with 25.
    replace (Z.max (25 + (e + Z.of_nat n) - 24) (3 - 128 - 24) - (e + Z.of_nat n))
      with 1 by lia.
    cbn [shr SpecFloat.iter_pos shr_1 shr_record_of_loc shr_m orb].
    replace (e + Z.of_nat n + 1 <=? 128 - 24) with true by (symmetry; apply Z.leb_le; lia).
    exists 8388608%positive, (e + Z.of_nat n + 1). split; [reflexivity|].
    split; [reflexivity|]. right. split; [reflexivity|]. split; [reflexivity|]. nia.
Qed.

(** below 128: the sum has more bits than fit, and is rounded *)
Lemma bump_lower (m : positive) (e : Z) :
  Zpos (digits2_pos m) = 24 -> -37 <= e <= -17 ->
  exists (m' : positive) (e' : Z),
    bump (S754_finite false m e) = S754_finite false m' e' /\
    Zpos (digits2_pos m') = 24 /\
    ((e' = e /\ Zpos m < Zpos m') \/ e' = e + 1).
Proof.
  intros Hd He.
  pose proof (digits2_pos_bounds m) as Hb. rewrite Hd in Hb.
  change (2 ^ (24 - 1)) with 8388608 in Hb. change (2 ^ 24) with 16777216 in Hb.
  unfold bump, F32.add, F32.lit_0_00001, SFadd.
  rewrite Z.min_r by lia.
  unfold shl_align. rewrite Z.sub_diag. cbn [fst cond_Zopp].
  destruct (-40 - e) as [|d|d] eqn:Ed; try lia.
  cbn [fst].
  set (k := Pos.to_nat d).
  assert (Hk : Z.of_nat k = 40 + e) by (unfold k; lia).
  assert (Hiter : Pos.iter xO m d = Pos.shiftl_nat m k).
  { unfold k. rewrite Pos2Nat.inj_iter. reflexivity. }
  rewrite Hiter. clear Hiter.
  set (M := (Pos.shiftl_nat m k + 10995116)%positive).
  assert (HM : Zpos M = Zpos m * 2 ^ Z.of_nat k + 10995116).
  { unfold M. rewrite Pos2Z.inj_add, Zpos_shiftl_nat. reflexivity. }
  change (Zpos (Pos.shiftl_nat m k) + Zpos 10995116) with (Zpos M).
  assert (HX : 8 <= 2 ^ Z.of_nat k <= 8388608).
  { split.
    - change 8 with (2 ^ 3). apply Z.pow_le_mono_r; lia.
    - change 8388608 with (2 ^ 23). apply Z.pow_le_mono_r; lia. }
  set (X := 2 ^ Z.of_nat k) in *.
  (* the number of bits of the sum *)
  assert (Hdigits : exists n : nat,
            Zpos (digits2_pos M) = 24 + Z.of_nat n /\ (n = k \/ n = S k)).
  { destruct (Z.lt_ge_cases (Zpos M) (16777216 * X)) as [Hlt|Hge].
    - exists k. split; [|left; reflexivity]. apply digits2_pos_unique.
      replace (24 + Z.of_nat k - 1) with (23 + Z.of_nat k) by lia.
      rewrite !Z.pow_add_r by lia. fold X.
      change (2 ^ 23) with 8388608. change (2 ^ 24) with 16777216. nia.
    - exists (S k). split; [|right; reflexivity]. apply digits2_pos_unique.
      replace (24 + Z.of_nat (S k) - 1) with (24 + Z.of_nat k) by lia.
      replace (24 + Z.of_nat (S k)) with (25 + Z.of_nat k) by lia.
      rewrite !Z.pow_add_r by lia. fold X.
      change (2 ^ 25) with 33554432. change (2 ^ 24) with 16777216. nia. }
  destruct Hdigits as (n & Hn & Hcase).
  unfold binary_normalize, binary_round.
  unfold fexp, emin, F32.prec, F32.emax, shl_align.
  rewrite Hn.
  destruct (Z.max (24 + Z.of_nat n + -40 - 24) (3 - 128 - 24) - -40) as [|z|z] eqn:Ez; try lia.
  destruct (round_near false M n (-40) Hn ltac:(lia) ltac:(lia))
    as (m' & e' & Hres & Hdm' & Halt).
  exists m', e'. split; [exact Hres|]. split; [exact Hdm'|].
  destruct Hcase as [-> | ->].
  - fold X in Halt. destruct Halt as [[-> Hbounds] | [-> _]]; [left|right; lia].
    split; [lia|]. nia.
  - rewrite Nat2Z.inj_succ, Z.pow_succ_r in Halt by lia. fold X in Halt.
    destruct Halt as [[-> _] | (_ & _ & Hbig)]; [right; lia|].
    exfalso. nia.
Qed.

(** from 128 on: one unit in the last place up *)
Lemma bump_top (m : positive) :
  Zpos (digits2_pos m) = 24 ->
  bump (S754_finite false m (-16)) =
    if Zpos m + 1 <? 16777216 then S754_finite false (m + 1) (-16) else F32.lit_256.
Proof.
  intros Hd.
  assert (Hd' : digits2_pos m = 24%positive) by (injection Hd; auto).
  pose proof (digits2_pos_bounds m) as Hb. rewrite Hd in Hb.
  change (2 ^ (24 - 1)) with 8388608 in Hb. change (2 ^ 24) with 16777216 in Hb.
  unfold bump, F32.add, F32.lit_0_00001, SFadd.
  change (Z.min (-16) (-40)) with (-40).
  cbn [cond_Zopp].
  change (fst (shl_align m (-16) (-40))) with (Pos.iter xO m 24).
  change (fst (shl_align 10995116 (-40) (-40))) with 10995116%positive.
  rewrite <- Pos2Z.inj_add.
  (* the sum: the bits of the mantissa followed by those of the increment *)
  set (M := (Pos.iter xO m 24 + 10995116)%positive).
  assert (HM : M = (m~1~0~1~0~0~1~1~1~1~1~0~0~0~1~0~1~1~0~1~0~1~1~0~0)%positive)
    by reflexivity.
  assert (HdM : digits2_pos M = 48%positive).
  { rewrite HM. cbn [digits2_pos]. rewrite Hd'. reflexivity. }
  unfold binary_normalize, binary_round. rewrite HdM.
  change (shl_align M (-40) (fexp F32.prec F32.emax (Zpos 48 + -40))) with (M, -40).
  unfold binary_round_aux, shr_fexp. cbn [Zdigits2]. rewrite HdM.
  change (fexp F32.prec F32.emax (Zpos 48 + -40) - -40) with 24.
  rewrite HM.
  cbn [shr SpecFloat.iter_pos shr_1 shr_record_of_loc orb shr_m shr_r shr_s
       loc_of_shr_record round_nearest_even].
  change (-40 + 24) with (-16).
  change (Zpos m + 1) with (Zpos (m + 1)).
  destruct (Z.ltb_spec (Zpos (m + 1)) 16777216) as [Hlt|Hge].
  - assert (Hdp : Zpos (digits2_pos (m + 1)) = 24).
    { apply digits2_pos_unique. change (2 ^ (24 - 1)) with 8388608.
      change (2 ^ 24) with 16777216. lia. }
    cbn [Zdigits2]. rewrite Hdp. reflexivity.
  - assert ((m + 1)%positive = 16777216%positive) as -> by lia.
    reflexivity.
Qed.

(** ** Renderer.cpp: input and the depth counter *)

(** the order of binary32 values *)
Lemma ltb_irrefl (x : float) : F32.ltb x x = false.
Proof.
  unfold F32.ltb, SFltb, SFcompare.
  destruct x as [s|s| |s m e]; try destruct s; try reflexivity.
  all: change (PosDef.Pos.compare_cont Eq m m) with (Pos.compare m m);
       change (IntDef.Z.compare e e) with (Z.compare e e);
       rewrite Z.compare_refl, Pos.compare_refl; reflexivity.
Qed.

Lemma ltb_trans (x y z : float) :
  F32.ltb x y = true -> F32.ltb y z = true -> F32.ltb x z = true.
Proof.
  unfold F32.ltb, SFltb, SFcompare.
  destruct x as [sx|sx| |sx mx ex], y as [sy|sy| |sy my ey], z as [sz|sz| |sz mz ez];
    try destruct sx; try destruct sy; try destruct sz; try discriminate; try reflexivity.
  all: change PosDef.Pos.compare_cont with Pos.compare_cont;
       change IntDef.Z.compare with Z.compare;
       change (Pos.compare_cont Eq) with Pos.compare.
  all: destruct (Z.compare_spec ex ey), (Z.compare_spec ey ez), (Z.compare_spec ex ez);
       try discriminate; try reflexivity; try lia.
  all: destruct (Pos.compare_spec mx my), (Pos.compare_spec my mz), (Pos.compare_spec mx mz);
       cbn; try discriminate; try reflexivity; try lia.
Qed.

Lemma increasing_from_next (c : float) (n : nat) :
  increasing_from c (S n) -> increasing_from (bump c) n ∧ F32.ltb c (bump c) = true.
Proof.
  intros H. split.
  - intros i Hi. rewrite <- !Nat.iter_succ_r. apply H. lia.
  - apply (H 0%nat). lia.
Qed.

Lemma increasing_from_reaches (n : nat) :
  ∀ c, increasing_from c n -> (0 < n)%nat -> F32.ltb c (Nat.iter n bump c) = true.
Proof.
  induction n as [|n IH]; intros c H Hn; [lia|].
  destruct (increasing_from_next c n H) as [Hnext Hfirst].
  rewrite Nat.iter_succ_r. destruct n as [|n]; [exact Hfirst|].
  eapply ltb_trans; [exact Hfirst|]. apply IH; [exact Hnext|lia].
Qed.

Lemma depths_from_textured (c : float) (n : nat) (l : list Model) :
  depths_from c n l -> Forall textured l.
Proof.
  induction 1 as [c n | c n l _ IH | c n m l _ Ht _ IH];
    [constructor | exact IH | constructor; assumption].
Qed.

Lemma depths_from_visited (c : float) (n : nat) (l : list Model) :
  depths_from c n l ->
  Forall (fun m => ∃ i, (i < n)%nat ∧ depth_of m = Some (Nat.iter i bump c)) l.
Proof.
  induction 1 as [c n | c n l _ IH | c n m l Hm _ _ IH]; [constructor| |].
  - eapply Forall_impl; [exact IH|]. intros m (i & Hi & Hd).
    exists (S i). split; [lia|]. rewrite Nat.iter_succ_r. exact Hd.
  - constructor.
    + exists 0%nat. split; [lia|exact Hm].
    + eapply Forall_impl; [exact IH|]. intros m' (i & Hi & Hd).
      exists (S i). split; [lia|]. rewrite Nat.iter_succ_r. exact Hd.
Qed.

Lemma depths_from_sorted (c : float) (n : nat) (l : list Model) :
  depths_from c n l -> increasing_from c n ->
  StronglySorted depth_lt l ∧
  Forall (fun m => ∃ d, depth_of m = Some d ∧ (d = c ∨ F32.ltb c d = true)) l.
Proof.
  induction 1 as [c n | c n l _ IH | c n m l Hm _ _ IH]; intros Hinc.
  - split; constructor.
  - destruct (increasing_from_next c n Hinc) as [Hnext Hfirst].
    destruct (IH Hnext) as [Hs Hall]. split; [exact Hs|].
    eapply Forall_impl; [exact Hall|]. intros m (d & Hd & Hcase).
    exists d. split; [exact Hd|right].
    destruct Hcase as [-> | Hlt]; [exact Hfirst|eapply ltb_trans; eassumption].
  - destruct (increasing_from_next c n Hinc) as [Hnext Hfirst].
    destruct (IH Hnext) as [Hs Hall]. split.
    + constructor; [exact Hs|].
      eapply Forall_impl; [exact Hall|]. intros m' (d & Hd & Hcase).
      unfold depth_lt. rewrite Hm, Hd.
      destruct Hcase as [-> | Hlt]; [exact Hfirst|].
      eapply ltb_trans; eassumption.
    + constructor; [exists c; auto|].
      eapply Forall_impl; [exact Hall|]. intros m' (d & Hd & Hcase).
      exists d. split; [exact Hd|right].
      destruct Hcase as [-> | Hlt]; [exact Hfirst|eapply ltb_trans; eassumption].
Qed.

(** models in front of one another have different depths *)
Lemma depth_lt_different (m1 m2 : Model) : depth_lt m1 m2 -> depth_of m1 ≠ depth_of m2.
Proof.
  unfold depth_lt. destruct (depth_of m1) as [d1|], (depth_of m2) as [d2|]; try tauto.
  intros Hlt [= ->]. rewrite ltb_irrefl in Hlt. discriminate.
Qed.

(** below 256 the counter grows, and it does not jump over 256 *)
Lemma bump_counting (c : float) :
  counting c ->
  F32.ltb c (bump c) = true ∧ (counting (bump c) ∨ bump c = F32.lit_256).
Proof.
  intros (m & e & -> & Hd & He).
  pose proof (digits2_pos_bounds m) as Hb. rewrite Hd in Hb.
  change (2 ^ (24 - 1)) with 8388608 in Hb. change (2 ^ 24) with 16777216 in Hb.
  destruct (Z.eq_dec e (-16)) as [-> | Hne].
  - rewrite bump_top by exact Hd.
    destruct (Z.ltb_spec (Zpos m + 1) 16777216) as [Hlt|Hge].
    + split.
      * unfold F32.ltb, SFltb, SFcompare.
        change (IntDef.Z.compare (-16) (-16)) with Eq.
        change (PosDef.Pos.compare_cont Eq m (m + 1)) with (Pos.compare m (m + 1)).
        assert (Hcmp : Pos.compare m (m + 1) = Lt) by (apply Pos.compare_lt_iff; lia).
        rewrite Hcmp. reflexivity.
      * left. exists (m + 1)%positive, (-16). split; [reflexivity|].
        split; [|lia]. apply digits2_pos_unique.
        change (2 ^ (24 - 1)) with 8388608. change (2 ^ 24) with 16777216. lia.
    + split; [reflexivity|right; reflexivity].
  - destruct (bump_lower m e Hd ltac:(lia)) as (m' & e' & -> & Hd' & Halt).
    split.
    + unfold F32.ltb, SFltb, SFcompare.
      change IntDef.Z.compare with Z.compare.
      change (PosDef.Pos.compare_cont Eq m m') with (Pos.compare m m').
      destruct Halt as [[-> Hlt] | ->].
      * assert (Hcmp : Pos.compare m m' = Lt) by (apply Pos.compare_lt_iff; lia).
        rewrite Z.compare_refl, Hcmp. reflexivity.
      * assert (Hcmp : (e ?= e + 1) = Lt) by (apply Z.compare_lt_iff; lia).
        rewrite Hcmp. reflexivity.
    + left. exists m', e'. split; [reflexivity|]. split; [exact Hd'|].
      destruct Halt as [[-> _] | ->]; lia.
Qed.

(** at 256 the counter rests *)
Lemma bump_256 : bump F32.lit_256 = F32.lit_256.
Proof. reflexivity. Qed.

Lemma counting_not_256 : ¬ counting F32.lit_256.
Proof. intros (m & e & [= <- <-] & _ & He). lia. Qed.

Lemma counting_run (n : nat) (c : float) :
  counting c -> counting (Nat.iter n bump c) ∨ Nat.iter n bump c = F32.lit_256.
Proof.
  intros Hc. induction n as [|n IH]; [left; exact Hc|].
  rewrite Nat.iter_succ. destruct IH as [IH | ->].
  - apply bump_counting, IH.
  - right. exact bump_256.
Qed.

(** a counter that is below 256 after [n] steps was below 256 all the
    way *)
Lemma counting_before (n i : nat) (c : float) :
  counting c -> counting (Nat.iter n bump c) -> (i <= n)%nat ->
  counting (Nat.iter i bump c).
Proof.
  intros Hc Hn Hi. destruct (counting_run i c Hc) as [Hok | Hstall]; [exact Hok|].
  exfalso. apply counting_not_256.
  replace n with ((n - i) + i)%nat in Hn by lia.
  rewrite Nat.iter_add, Hstall in Hn.
  assert (Hrest : ∀ k, Nat.iter k bump F32.lit_256 = F32.lit_256).
  { intros k. induction k as [|k IH]; [reflexivity|].
    rewrite Nat.iter_succ, IH. exact bump_256. }
  rewrite Hrest in Hn. exact Hn.
Qed.

Lemma increasing_from_counting (c : float) (n : nat) :
  counting c -> counting (Nat.iter (pred n) bump c) -> increasing_from c n.
Proof.
  intros Hc Hn i Hi. rewrite Nat.iter_succ.
  apply bump_counting. apply (counting_before (pred n) i c Hc Hn). lia.
Qed.

Lemma counting_rank (c : float) : counting c -> 0 <= rank c < 184549376.
Proof.
  intros (m & e & -> & Hd & He).
  pose proof (digits2_pos_bounds m) as Hb. rewrite Hd in Hb.
  change (2 ^ (24 - 1)) with 8388608 in Hb. change (2 ^ 24) with 16777216 in Hb.
  unfold rank. lia.
Qed.

Lemma bump_rank (c : float) :
  counting c -> counting (bump c) -> rank c < rank (bump c).
Proof.
  intros Hc Hn. destruct (bump_counting c Hc) as [Hlt _].
  destruct Hc as (m & e & -> & Hd & He).
  destruct Hn as (m' & e' & Hb' & Hd' & He'). rewrite Hb' in Hlt.
  pose proof (digits2_pos_bounds m) as Hb. rewrite Hd in Hb.
  pose proof (digits2_pos_bounds m') as Hbn. rewrite Hd' in Hbn.
  change (2 ^ (24 - 1)) with 8388608 in Hb, Hbn.
  change (2 ^ 24) with 16777216 in Hb, Hbn.
  rewrite Hb'. unfold rank.
  unfold F32.ltb, SFltb, SFcompare in Hlt.
  change IntDef.Z.compare with Z.compare in Hlt.
  change (PosDef.Pos.compare_cont Eq m m') with (Pos.compare m m') in Hlt.
  destruct (Z.compare_spec e e') as [-> | Hee | Hee].
  - destruct (Pos.compare_spec m m') as [-> | Hmm | Hmm]; try discriminate. lia.
  - lia.
  - discriminate.
Qed.

(** the counter does arrive at 256 *)
Lemma counter_reaches_256 (c : float) :
  counting c -> ∃ n, Nat.iter n bump c = F32.lit_256.
Proof.
  intros Hc. remember (Z.to_nat (184549376 - rank c)) as k eqn:Hk.
  revert c Hc Hk. induction k as [k IH] using lt_wf_ind. intros c Hc ->.
  destruct (bump_counting c Hc) as [_ [Hnext | Hstall]].
  - pose proof (counting_rank c Hc). pose proof (counting_rank _ Hnext).
    pose proof (bump_rank c Hc Hnext).
    destruct (IH (Z.to_nat (184549376 - rank (bump c))) ltac:(lia) (bump c) Hnext eq_refl)
      as [n Hn].
    exists (S n). rewrite Nat.iter_succ_r. exact Hn.
  - exists 1%nat. exact Hstall.
Qed.

Section DepthCounter.
Context {AssetWorld : Type}.
Variable loadAsset : AssetWorld -> Z -> string -> shared_ptr TextureAsset * AssetWorld.

Local Abbreviation handleMotionEvent := (Renderer.handleMotionEvent loadAsset).
Local Abbreviation handleInput := (Renderer.handleInput loadAsset).

Lemma for_each_cons {A} (x : A) (l : list A) (body : A -> StateT (Renderer * AssetWorld) unit)
    (s s1 s2 : Renderer * AssetWorld) (t1 t2 : Trace) :
  body x s = Some (tt, s1, t1) ->
  for_each l body s1 = Some (tt, s2, t2) ->
  for_each (x :: l) body s = Some (tt, s2, t1 ++ t2).
Proof.
  intros H1 H2. cbn [for_each]. unfold sbind. rewrite H1. run. rewrite H2. reflexivity.
Qed.

Lemma for_each_idle {A} (l : list A) (s : Renderer * AssetWorld) :
  for_each l (fun _ => sret tt) s = Some (tt, s, []).
Proof.
  induction l as [|x l IH]; [reflexivity|].
  exact (for_each_cons x l _ s s s [] [] eq_refl IH).
Qed.

Lemma for_each_reads {A} (l : list A) (indices : list nat) (s : Renderer * AssetWorld) :
  Forall (fun i => (i < length l)%nat) indices ->
  for_each indices (fun index => let+ x := deref (l !! index) in sret tt) s
    = Some (tt, s, []).
Proof.
  induction 1 as [|i indices Hi _ IH]; [reflexivity|].
  destruct (lookup_lt_is_Some_2 _ _ Hi) as [x Hx].
  refine (for_each_cons i indices _ s s s [] [] _ IH).
  unfold sbind. rewrite Hx. reflexivity.
Qed.

(** an event that is no pointer-down leaves the renderer as it is *)
Lemma handleMotionEvent_other (ev : GameActivityMotionEvent) (s : Renderer * AssetWorld) :
  well_formed ev -> is_down ev = false ->
  handleMotionEvent ev s = Some (tt, s, []).
Proof.
  intros [Hidx Hmove] Hd. unfold Renderer.handleMotionEvent.
  fold (pointer_index ev). fold (action_kind ev).
  destruct (lookup_lt_is_Some_2 _ _ Hidx) as [p Hp].
  unfold sbind at 1. rewrite Hp. run.
  unfold is_down in Hd. rewrite Hd.
  destruct (Z.eqb_spec (action_kind ev) AMOTION_EVENT_ACTION_MOVE) as [E|_];
    [|reflexivity].
  rewrite for_each_reads; [reflexivity|]. apply Forall_forall. intros i Hi.
  apply elem_of_seq in Hi. specialize (Hmove E). lia.
Qed.

(** a pointer-down always advances the counter; the model it creates, if
    any, has the counter it found as its depth *)
Lemma handleMotionEvent_down (ev : GameActivityMotionEvent) (s : Renderer * AssetWorld) :
  well_formed ev -> is_down ev = true ->
  ∃ s' t,
    handleMotionEvent ev s = Some (tt, s', t) ∧
    counter (fst s') = bump (counter (fst s)) ∧
    (models_ (fst s') = models_ (fst s) ∨
     ∃ m, models_ (fst s') = models_ (fst s) ++ [m] ∧
          depth_of m = Some (counter (fst s)) ∧ textured m).
Proof.
  intros [Hidx _] Hd. unfold Renderer.handleMotionEvent.
  fold (pointer_index ev). fold (action_kind ev).
  destruct (lookup_lt_is_Some_2 _ _ Hidx) as [p Hp].
  unfold sbind at 1. rewrite Hp. run.
  unfold is_down in Hd. rewrite Hd.
  unfold sbind at 1, get at 1. run. unfold sbind at 1.
  match goal with
  | |- context [Renderer.drawRobotInPosition loadAsset ?x ?y ?z s] =>
      destruct (drawRobotInPosition_run loadAsset x y z s)
        as (h & r' & w' & t & _ & Hrun & Hm & Hc & _); rewrite Hrun
  end.
  run. eexists _, _. split; [reflexivity|].
  destruct h as [texture|]; cbn [fst counter set_counter set_models models_].
  - split; [unfold bump; congruence|]. right. eexists. split; [rewrite Hm; reflexivity|].
    split; [reflexivity|discriminate].
  - split; [unfold bump; congruence|]. left. exact Hm.
Qed.

(** the loop over the motion events *)
Lemma motionEvents_run (evs : list GameActivityMotionEvent) :
  Forall well_formed evs ->
  ∀ s, ∃ s' t new,
    for_each evs handleMotionEvent s = Some (tt, s', t) ∧
    counter (fst s') = Nat.iter (downs evs) bump (counter (fst s)) ∧
    models_ (fst s') = models_ (fst s) ++ new ∧
    depths_from (counter (fst s)) (downs evs) new.
Proof.
  induction 1 as [|ev evs Hev _ IH]; intros s.
  { exists s, [], []. cbn. rewrite app_nil_r. repeat split. constructor. }
  cbn [downs]. destruct (is_down ev) eqn:Hd.
  - destruct (handleMotionEvent_down ev s Hev Hd) as (s1 & t1 & Hrun & Hc & Hnew).
    destruct (IH s1) as (s2 & t2 & new & Hrest & Hc2 & Hm2 & Hfrom).
    rewrite Hc in Hc2, Hfrom.
    destruct Hnew as [Hm | (m & Hm & Hdepth & Htex)].
    + exists s2, (t1 ++ t2), new.
      split; [exact (for_each_cons _ _ _ _ _ _ _ _ Hrun Hrest)|].
      split; [rewrite Hc2, <- Nat.iter_succ_r; reflexivity|].
      split; [congruence|]. constructor. exact Hfrom.
    + exists s2, (t1 ++ t2), (m :: new).
      split; [exact (for_each_cons _ _ _ _ _ _ _ _ Hrun Hrest)|].
      split; [rewrite Hc2, <- Nat.iter_succ_r; reflexivity|].
      split; [rewrite Hm2, Hm, <- app_assoc; reflexivity|].
      constructor; assumption.
  - destruct (IH s) as (s2 & t2 & new & Hrest & Hc2 & Hm2 & Hfrom).
    exists s2, ([] ++ t2), new.
    split; [exact (for_each_cons _ _ _ _ _ _ _ _
                     (handleMotionEvent_other ev s Hev Hd) Hrest)|].
    auto.
Qed.

(** a pointer-down on a renderer that holds the robot texture in its
    cache creates a model at the depth the counter has *)
Lemma handleMotionEvent_down_cached (ev : GameActivityMotionEvent)
    (s : Renderer * AssetWorld) (texture : TextureAsset) :
  well_formed ev -> is_down ev = true ->
  textureCache_ (fst s) !! "android_robot.png" = Some (Some texture) ->
  ∃ s' t m,
    handleMotionEvent ev s = Some (tt, s', t) ∧
    counter (fst s') = bump (counter (fst s)) ∧
    models_ (fst s') = models_ (fst s) ++ [m] ∧
    depth_of m = Some (counter (fst s)) ∧
    textureCache_ (fst s') !! "android_robot.png" = Some (Some texture).
Proof.
  intros [Hidx _] Hd Hcache. unfold Renderer.handleMotionEvent.
  fold (pointer_index ev). fold (action_kind ev).
  destruct (lookup_lt_is_Some_2 _ _ Hidx) as [p Hp].
  unfold sbind at 1. rewrite Hp. run.
  unfold is_down in Hd. rewrite Hd.
  unfold sbind at 1, get at 1. run. unfold sbind at 1.
  match goal with
  | |- context [Renderer.drawRobotInPosition loadAsset ?x ?y ?z s] =>
      destruct (drawRobotInPosition_run loadAsset x y z s)
        as (h & r' & w' & t & Hfetch & Hrun & _); rewrite Hrun
  end.
  destruct s as [r w]. cbn [fst] in *.
  rewrite (getOrLoadTexture_hit loadAsset _ r w _ Hcache) in Hfetch.
  injection Hfetch as <- <- <- <-.
  run. eexists _, _, _. split; [reflexivity|].
  cbn [fst counter set_counter set_models models_ textureCache_].
  split; [reflexivity|]. split; [reflexivity|]. split; [reflexivity|exact Hcache].
Qed.

(** a run of pointer-downs on such a renderer: one model each, the
    [i]-th at the depth the counter has after [i] additions *)
Lemma pointer_downs_run (evs : list GameActivityMotionEvent) :
  Forall (fun ev => well_formed ev ∧ is_down ev = true) evs ->
  ∀ (s : Renderer * AssetWorld) (texture : TextureAsset),
    textureCache_ (fst s) !! "android_robot.png" = Some (Some texture) ->
    ∃ s' t new,
      for_each evs handleMotionEvent s = Some (tt, s', t) ∧
      models_ (fst s') = models_ (fst s) ++ new ∧
      ∀ i, (i < length evs)%nat ->
           ∃ m, new !! i = Some m ∧ depth_of m = Some (Nat.iter i bump (counter (fst s))).
Proof.
  induction 1 as [|ev evs [Hev Hd] _ IH]; intros s texture Hcache.
  { exists s, [], []. cbn. rewrite app_nil_r. repeat split. intros i Hi. lia. }
  destruct (handleMotionEvent_down_cached ev s texture Hev Hd Hcache)
    as (s1 & t1 & m & Hrun & Hc & Hm & Hdepth & Hcache1).
  destruct (IH s1 texture Hcache1) as (s2 & t2 & new & Hrest & Hm2 & Hnew).
  exists s2, (t1 ++ t2), (m :: new).
  split; [exact (for_each_cons _ _ _ _ _ _ _ _ Hrun Hrest)|].
  split; [rewrite Hm2, Hm, <- app_assoc; reflexivity|].
  intros [|i] Hi.
  - exists m. split; [reflexivity|exact Hdepth].
  - cbn [length] in Hi. destruct (Hnew i ltac:(lia)) as (m' & Hm' & Hdepth').
    exists m'. split; [exact Hm'|]. rewrite Hdepth', Hc, Nat.iter_succ_r. reflexivity.
Qed.

(** [handleInput] on a buffer: the motion events, then the two clears *)
Lemma handleInput_events (buffer : android_input_buffer) (s s' : Renderer * AssetWorld)
    (t : Trace) :
  for_each (motionEvents buffer) handleMotionEvent s = Some (tt, s', t) ->
  handleInput (Some buffer) s = Some (tt, s', t ++ [ClearMotionEvents; ClearKeyEvents]).
Proof.
  intros Hrun. unfold Renderer.handleInput. unfold sbind at 1. rewrite Hrun. run.
  unfold sbind at 1. rewrite for_each_idle. reflexivity.
Qed.

(** C7, as the code has it: every pointer-down, whether or not it
    creates a model, replaces the counter by the binary32 sum of the
    counter and 0.00001f, after the model it creates (if any) has
    received the counter it found as its depth.  For a counter that
    starts as a normal number of at least 2^-14 (it is 0.00011 after
    initialisation) and that the last pointer-down of the buffer still
    finds below 256, every one of these sums is larger than the counter
    it was computed from: the counter has strictly increased once the
    events are handled, and the models created by them have strictly
    increasing, hence pairwise different, depths, all of them
    textured. *)
Theorem depth_counter_distinct_below_256
    (buffer : android_input_buffer) (s : Renderer * AssetWorld) :
  Forall well_formed (motionEvents buffer) ->
  let c := counter (fst s) in
  let n := downs (motionEvents buffer) in
  counting c ->
  ∃ s' t new,
    handleInput (Some buffer) s = Some (tt, s', t) ∧
    counter (fst s') = Nat.iter n bump c ∧
    models_ (fst s') = models_ (fst s) ++ new ∧
    Forall textured new ∧
    Forall (fun m => ∃ i, (i < n)%nat ∧ depth_of m = Some (Nat.iter i bump c)) new ∧
    (counting (Nat.iter (pred n) bump c) ->
       ((0 < n)%nat -> F32.ltb c (counter (fst s')) = true) ∧
       StronglySorted depth_lt new ∧
       ∀ i j m1 m2, (i < j)%nat -> new !! i = Some m1 -> new !! j = Some m2 ->
                    depth_of m1 ≠ depth_of m2).
Proof.
  intros Hwf c n Hcount.
  destruct (motionEvents_run (motionEvents buffer) Hwf s)
    as (s' & t & new & Hrun & Hc & Hm & Hfrom).
  exists s', (t ++ [ClearMotionEvents; ClearKeyEvents]), new.
  split; [exact (handleInput_events buffer s s' t Hrun)|].
  split; [exact Hc|]. split; [exact Hm|].
  split; [exact (depths_from_textured _ _ _ Hfrom)|].
  split; [exact (depths_from_visited _ _ _ Hfrom)|].
  intros Hlast.
  pose proof (increasing_from_counting c n Hcount Hlast) as Hinc.
  destruct (depths_from_sorted _ _ _ Hfrom Hinc) as [Hsorted _].
  split; [|split; [exact Hsorted|]].
  - intros Hn. rewrite Hc. apply increasing_from_reaches; assumption.
  - intros i j m1 m2 Hij H1 H2. apply depth_lt_different.
    clear -Hsorted Hij H1 H2. revert i j Hij H1 H2.
    induction Hsorted as [|m l _ IH Hall]; intros i j Hij H1 H2; [destruct i; discriminate|].
    destruct i as [|i], j as [|j]; try lia; cbn in H1, H2.
    + injection H1 as ->. rewrite Forall_forall in Hall.
      apply Hall. eapply list_elem_of_lookup_2. exact H2.
    + apply (IH i j); [lia|assumption..].
Qed.

End DepthCounter.

(** On a renderer whose counter is at 256, the sum 256 + 0.00001f
    rounds back to 256: two taps leave the counter where it was and
    create two models of depth 256. *)
Lemma two_taps_at_256_share_depth :
  ∃ s' t m1 m2,
    Renderer.handleInput Examples.loader_ok (Some Examples.two_taps)
      (Examples.stalled, 1%nat) = Some (tt, s', t) ∧
    models_ (fst s') = models_ Examples.stalled ++ [m1; m2] ∧
    depth_of m1 = Some F32.lit_256 ∧ depth_of m2 = Some F32.lit_256 ∧
    counter (fst s') = F32.lit_256.
Proof.
  eexists _, _, _, _. split; [vm_compute; reflexivity|].
  split; [reflexivity|]. split; [reflexivity|]. split; reflexivity.
Qed.

(** C7 as stated fails in binary32.  Tapping on the running renderer
    brings its counter to 256 after finitely many pointer-downs; there
    the sum 256 + 0.00001f rounds back to 256, so the next pointer-down
    leaves the counter where it was, and the models of the next two
    pointer-downs both get the depth 256. *)
Lemma depth_counter_stalls_at_256 :
  ¬ (∀ (buffer : android_input_buffer) (s' : Renderer * nat) (t : Trace)
       (new : list Model),
       Forall well_formed (motionEvents buffer) ->
       Renderer.handleInput Examples.loader_ok (Some buffer) (Examples.running, 1%nat)
         = Some (tt, s', t) ->
       models_ (fst s') = models_ Examples.running ++ new ->
       NoDup (map depth_of new)).
Proof.
  intros H.
  assert (Hcount : counting (counter Examples.running)).
  { eexists _, _. split; [vm_compute; reflexivity|]. split; [reflexivity|lia]. }
  destruct (counter_reaches_256 _ Hcount) as [n Hn].
  set (evs := replicate (S (S n)) (Examples.tap 0 0)).
  assert (Htap : well_formed (Examples.tap 0 0) ∧ is_down (Examples.tap 0 0) = true).
  { split; [|reflexivity]. split; [vm_compute; lia|intros _; vm_compute; lia]. }
  assert (Hcache : ∃ texture,
            textureCache_ Examples.running !! "android_robot.png" = Some (Some texture)).
  { eexists. vm_compute. reflexivity. }
  destruct Hcache as [texture Hcache].
  destruct (pointer_downs_run Examples.loader_ok evs
              ltac:(apply Forall_replicate; exact Htap)
              (Examples.running, 1%nat) texture Hcache)
    as (s' & t & new & Hrun & Hm & Hnew).
  assert (Hlen : length evs = S (S n)) by apply length_replicate.
  destruct (Hnew n ltac:(lia)) as (m1 & H1 & Hd1).
  destruct (Hnew (S n) ltac:(lia)) as (m2 & H2 & Hd2).
  cbn [fst] in Hd1, Hd2. rewrite Nat.iter_succ, Hn in Hd2. rewrite Hn in Hd1.
  change (bump F32.lit_256) with F32.lit_256 in Hd2.
  set (buffer := {| motionEvents := evs; keyEvents := [] |}).
  pose proof (H buffer s' _ new
                ltac:(apply Forall_replicate; exact (proj1 Htap))
                (handleInput_events Examples.loader_ok buffer _ _ _ Hrun) Hm) as Hdistinct.
  change (map depth_of new) with (depth_of <$> new) in Hdistinct.
  assert (Heq : n = S n); [|lia].
  apply (NoDup_lookup _ n (S n) (Some F32.lit_256) Hdistinct);
    rewrite list_lookup_fmap; [rewrite H1|rewrite H2]; cbn [fmap option_fmap option_map];
    congruence.
Qed.

(** C7 on two taps after the first frame: the two robots get different
    depths and the counter has grown. *)
Lemma depth_counter_distinct_below_256_witness :
  ∃ s' t m1 m2,
    Renderer.handleInput Examples.loader_ok (Some Examples.two_taps)
      (Examples.running, 1%nat) = Some (tt, s', t) ∧
    models_ (fst s') = models_ Examples.running ++ [m1; m2] ∧
    depth_of m1 ≠ depth_of m2 ∧
    F32.ltb (counter Examples.running) (counter (fst s')) = true.
Proof.
  assert (Hwf : Forall well_formed (motionEvents Examples.two_taps)).
  { repeat (constructor; [split; [vm_compute; lia|intros _; vm_compute; lia]|]).
    constructor. }
  assert (Hcount : counting (counter Examples.running)).
  { eexists _, _. split; [vm_compute; reflexivity|]. split; [reflexivity|lia]. }
  destruct (depth_counter_distinct_below_256 Examples.loader_ok Examples.two_taps
              (Examples.running, 1%nat) Hwf Hcount)
    as (s' & t & new & Hrun & Hc & Hm & _ & _ & Hcond).
  assert (Hlast : counting (Nat.iter (pred (downs (motionEvents Examples.two_taps))) bump
                              (counter Examples.running))).
  { eexists _, _. split; [vm_compute; reflexivity|]. split; [reflexivity|lia]. }
  destruct (Hcond Hlast) as (Hgrow & _ & Hdistinct).
  assert (Hnew : ∃ m1 m2, new = [m1; m2]).
  { vm_compute in Hrun. simplify_eq. vm_compute in Hm.
    injection Hm as Hm. eexists _, _. symmetry. exact Hm. }
  destruct Hnew as (m1 & m2 & ->).
  exists s', t, m1, m2. split; [exact Hrun|]. split; [exact Hm|].
  split; [exact (Hdistinct 0%nat 1%nat m1 m2 ltac:(lia) eq_refl eq_refl)|].
  apply Hgrow. vm_compute. lia.
Defined.

(** ** Renderer.cpp: from pixels to world positions *)

(** C8, as the code has it: once the surface size [W] x [H] is cached
    (0 < W < 2^21, 0 < H < 2^24) and the robot texture is in the cache,
    a pointer-down at the exact centre [(float(W)/2, float(H)/2)]
    appends a robot quad centred at exactly (0, 0), and a pointer-down
    at pixel (0, 0) appends one centred at exactly (-1.25, 2): the
    top-left corner of the world rectangle of half extents 1.25 and 2
    that the constants of the mapping (and the background quad)
    assume.  In both cases the quad is at the depth of the counter,
    which is then advanced. *)
Theorem pointer_down_at_centre_and_corner {AssetWorld : Type}
    (loadAsset : AssetWorld -> Z -> string -> shared_ptr TextureAsset * AssetWorld)
    (r : Renderer) (w : AssetWorld) (texture : TextureAsset)
    (ev : GameActivityMotionEvent) (pointer : GameActivityPointerAxes) :
  0 < width_ r < 2 ^ 21 -> 0 < height_ r < 2 ^ 24 ->
  textureCache_ r !! "android_robot.png" = Some (Some texture) ->
  is_down ev = true ->
  pointers ev !! pointer_index ev = Some pointer ->
  let created (x y : float) :=
    Some (tt,
          (set_counter (set_models r (models_ r ++ [robot x y (counter r) texture]))
                       (bump (counter r)), w),
          @nil Event) in
  (axis_x pointer = F32.div (F32.of_int (width_ r)) F32.two ->
   axis_y pointer = F32.div (F32.of_int (height_ r)) F32.two ->
   Renderer.handleMotionEvent loadAsset ev (r, w) = created F32.zero F32.zero) ∧
  (axis_x pointer = F32.zero -> axis_y pointer = F32.zero ->
   Renderer.handleMotionEvent loadAsset ev (r, w)
     = created (F32.opp F32.lit_1_25) F32.two).
Proof.
  intros HW HH Hcache Hdown Hptr created.
  assert (Hrun : ∀ x y,
    Renderer.drawRobotInPosition loadAsset x y (counter r) (r, w)
    = Some (tt, (set_models r (models_ r ++ [robot x y (counter r) texture]), w), [])).
  { intros x y. unfold Renderer.drawRobotInPosition. unfold sbind.
    rewrite (getOrLoadTexture_hit loadAsset _ _ _ _ Hcache). reflexivity. }
  assert (Hev : ∀ x y,
    F32.sub (F32.div (F32.mul F32.lit_2_5 (axis_x pointer)) (F32.of_int (width_ r)))
            F32.lit_1_25 = x ->
    F32.add (F32.div (F32.mul (F32.opp F32.four) (axis_y pointer)) (F32.of_int (height_ r)))
            F32.two = y ->
    Renderer.handleMotionEvent loadAsset ev (r, w) = created x y).
  { intros x y Hx Hy. unfold Renderer.handleMotionEvent.
    fold (pointer_index ev). fold (action_kind ev).
    unfold sbind at 1. rewrite Hptr. run.
    unfold is_down in Hdown. rewrite Hdown.
    unfold sbind at 1, get at 1. run. unfold sbind at 1.
    unfold GameActivityPointerAxes_getX, GameActivityPointerAxes_getY.
    rewrite Hx, Hy, Hrun. reflexivity. }
  split.
  - intros Hx Hy. apply Hev.
    + rewrite Hx. apply centre_x. exact HW.
    + rewrite Hy. apply centre_y. exact HH.
  - intros Hx Hy.
    assert (HW' : 0 < width_ r < 2 ^ 24).
    { change (2 ^ 21) with 2097152 in HW. change (2 ^ 24) with 16777216. lia. }
    destruct (corner (width_ r) (height_ r) HW' HH) as [Hcx Hcy].
    apply Hev; [rewrite Hx; exact Hcx|rewrite Hy; exact Hcy].
Qed.

(** C8 on the 1080 x 1920 surface, after the first frame. *)
Lemma pointer_down_at_centre_and_corner_witness :
  let texture := {| address := 0; textureID := 1 |} in
  let c := counter Examples.running in
  Renderer.handleMotionEvent Examples.loader_ok (Examples.tap 540 960)
    (Examples.running, 1%nat)
  = Some (tt,
          (set_counter (set_models Examples.running
                          (models_ Examples.running ++ [robot F32.zero F32.zero c texture]))
                       (bump c), 1%nat), []) ∧
  Renderer.handleMotionEvent Examples.loader_ok (Examples.tap 0 0)
    (Examples.running, 1%nat)
  = Some (tt,
          (set_counter (set_models Examples.running
                          (models_ Examples.running
                           ++ [robot (F32.opp F32.lit_1_25) F32.two c texture]))
                       (bump c), 1%nat), []).
Proof.
  intros texture c.
  assert (HW : 0 < width_ Examples.running < 2 ^ 21) by (vm_compute; split; reflexivity).
  assert (HH : 0 < height_ Examples.running < 2 ^ 24) by (vm_compute; split; reflexivity).
  assert (Hc : textureCache_ Examples.running !! "android_robot.png" = Some (Some texture))
    by (vm_compute; reflexivity).
  split.
  - exact (proj1 (pointer_down_at_centre_and_corner Examples.loader_ok Examples.running
                    1%nat texture (Examples.tap 540 960) _ HW HH Hc eq_refl eq_refl)
                 ltac:(vm_compute; reflexivity) ltac:(vm_compute; reflexivity)).
  - exact (proj2 (pointer_down_at_centre_and_corner Examples.loader_ok Examples.running
                    1%nat texture (Examples.tap 0 0) _ HW HH Hc eq_refl eq_refl)
                 ltac:(vm_compute; reflexivity) ltac:(vm_compute; reflexivity)).
Defined.

(** C8 as stated fails twice.  Before the first frame the cached size is
    the sentinel -1 x -1, and a pointer-down at the centre (540, 960) of
    a 1080 x 1920 surface creates a robot centred at (-1351.25, 3842).
    After the first frame a pointer-down at pixel (0, 0) creates a robot
    centred at x = -1.25, whereas the visible area of the projection
    uploaded for 1080 x 1920 has the half width 2 * 1080/1920 = 1.125:
    the mapping scales by the constants 1.25 and 2, not by the visible
    half extents. *)
Lemma pointer_down_ignores_surface_and_visible_area :
  (∃ s' t m,
     Renderer.handleInput Examples.loader_ok
       (Some {| motionEvents := [Examples.tap 540 960]; keyEvents := [] |})
       (Examples.ready, 1%nat) = Some (tt, s', t) ∧
     models_ (fst s') = models_ Examples.ready ++ [m] ∧
     vertices_ m = Renderer.robot_vertices
                     (F32.opp (F32.div (F32.of_int 5405) F32.four)) (F32.of_int 3842)
                     (counter Examples.ready) ∧
     vertices_ m ≠ Renderer.robot_vertices F32.zero F32.zero (counter Examples.ready))
  ∧
  (∃ s' t m,
     Renderer.handleInput Examples.loader_ok
       (Some {| motionEvents := [Examples.tap 0 0]; keyEvents := [] |})
       (Examples.running, 1%nat) = Some (tt, s', t) ∧
     models_ (fst s') = models_ Examples.running ++ [m] ∧
     vertices_ m = Renderer.robot_vertices (F32.opp F32.lit_1_25) F32.two
                     (counter Examples.running) ∧
     visible_half_width (projection (width_ Examples.running) (height_ Examples.running))
       = F32.div (F32.of_int 9) (F32.of_int 8) ∧
     F32.ltb (visible_half_width
                (projection (width_ Examples.running) (height_ Examples.running)))
             F32.lit_1_25 = true).
Proof.
  split.
  - eexists _, _, _. split; [vm_compute; reflexivity|].
    split; [reflexivity|]. split; [vm_compute; reflexivity|].
    vm_compute. discriminate.
  - eexists _, _, _. split; [vm_compute; reflexivity|].
    split; [reflexivity|]. split; [vm_compute; reflexivity|].
    split; vm_compute; reflexivity.
Qed.

(** ** Shader.cpp: every way through the construction of a program *)

(** X1: the compilation of one stage always returns.  It returns the name
    of the stage it created exactly when the stage can be created and
    compiles, and then this stage is the only object allocated;
    otherwise it returns 0 and nothing is allocated: a stage that was
    created and did not compile has been deleted. *)
Theorem stage_is_returned_or_released (drv : GLDriver) (type : GLenum) (source : string) :
  ∃ (r : GLuint) (t : Trace),
    Shader.loadShader_type drv type source = Some (r, t) ∧
    (r ≠ 0 -> stage_compiles drv type ∧ r = drv_glCreateShader drv type ∧
              unreleased t = [ShaderObject r]) ∧
    (r = 0 -> ¬ stage_compiles drv type ∧ unreleased t = []).
Proof.
  unfold stage_compiles.
  unfold Shader.loadShader_type, Shader.glCreateShader, Shader.glGetShaderiv.
  repeat (run; try case_eqb);
    (eexists _, _; split; [reflexivity|]; split; intros H; try congruence;
     (split; [try tauto; try (split; congruence)|]);
     try (split; [reflexivity|]);
     unfold unreleased; cbn [fold_left track remove_first app];
     repeat (case_eqb; cbn [fold_left track remove_first app]); try reflexivity; try congruence).
Qed.

Section Programs.
Variable drv : GLDriver.
Variables vertexSource fragmentSource : string.
Variables positionName uvName projectionName : string.

Local Abbreviation construction :=
  (Shader.loadShader drv vertexSource fragmentSource positionName uvName projectionName).

(** X2: [loadShader] returns a program exactly when both stages can be
    created and compile, the program object can be created and links,
    and the position attribute and the projection uniform resolve.  The
    UV attribute plays no part in it: a UV name that does not resolve is
    no failure. *)
Theorem loadShader_succeeds_iff :
  (∃ s t, construction = Some (Some s, t)) ↔
  stage_compiles drv GL_VERTEX_SHADER ∧ stage_compiles drv GL_FRAGMENT_SHADER ∧
  program_links drv ∧
  attribute_resolves drv positionName ∧ uniform_resolves drv projectionName.
Proof.
  split.
  - intros (s & t & Hrun). revert Hrun.
    unfold stage_compiles, program_links, attribute_resolves, uniform_resolves.
    unfold_load.
    repeat (run; cbn [negb andb]; try case_eqb); intros Hrun; try discriminate Hrun;
      repeat split; congruence.
  - intros (Hv & Hf & Hp & Ha & Hu).
    destruct (loadShader_success_releases_stages drv vertexSource fragmentSource
                positionName uvName projectionName Hv Hf Hp Ha Hu) as (s & t & Hrun & _).
    eauto.
Qed.

(** X3: when a stage cannot be created or does not compile, or the program
    object cannot be created or does not link, [loadShader] returns no
    program, leaves no object allocated and has asked for no attribute
    or uniform location. *)
Theorem loadShader_compile_or_link_failure_releases_everything :
  ¬ (stage_compiles drv GL_VERTEX_SHADER ∧ stage_compiles drv GL_FRAGMENT_SHADER
     ∧ program_links drv) ->
  ∃ t, construction = Some (None, t) ∧ unreleased t = [] ∧
       Forall (fun e => is_lookup e = false) t.
Proof.
  intros Hn.
  unfold stage_compiles, program_links in Hn. unfold_load.
  repeat (run; cbn [negb andb]; try case_eqb);
    try (eexists; split; [reflexivity|]; split;
         [unfold unreleased; cbn [fold_left track remove_first app];
          repeat (case_eqb; cbn [fold_left track remove_first app]);
          reflexivity
         |repeat constructor]);
    exfalso; apply Hn; repeat split; try assumption; try congruence.
Qed.

(** X4: a construction that succeeds returns the program object with the
    locations the implementation reports -- for the UV attribute the
    sentinel -1 when no name is given, and otherwise whatever is
    reported for the name, -1 included -- and the program is the only
    object left allocated: both stages have been deleted. *)
Theorem loadShader_success_keeps_only_the_program :
  stage_compiles drv GL_VERTEX_SHADER -> stage_compiles drv GL_FRAGMENT_SHADER ->
  program_links drv ->
  attribute_resolves drv positionName -> uniform_resolves drv projectionName ->
  let program := drv_glCreateProgram drv in
  ∃ t, construction =
         Some (Some {| program_ := program;
                       position_ := drv_glGetAttribLocation drv program positionName;
                       uv_ := if String.eqb uvName "" then -1
                              else drv_glGetAttribLocation drv program uvName;
                       projectionMatrix_ :=
                         drv_glGetUniformLocation drv program projectionName |}, t) ∧
       unreleased t = [ProgramObject program].
Proof.
  intros [Hv1 Hv2] [Hf1 Hf2] [Hp1 Hp2] Ha Hu program. unfold program.
  unfold attribute_resolves in Ha. unfold uniform_resolves in Hu. unfold_load.
  repeat (run; cbn [negb andb]; try case_eqb); try congruence;
    (eexists; split; [reflexivity|];
     unfold unreleased; cbn [fold_left track remove_first app];
     repeat (case_eqb; cbn [fold_left track remove_first app]);
     reflexivity).
Qed.

(** X5: whatever the implementation answers, every [glDeleteShader] and
    [glDeleteProgram] that [loadShader] issues names an object that it
    has created and not deleted yet: nothing is deleted twice, and the
    name 0 is never deleted. *)
Theorem loadShader_deletes_only_what_is_allocated :
  ∃ r t, construction = Some (r, t) ∧ deletes_allocated [] t.
Proof.
  unfold_load.
  repeat (run; cbn [negb andb]; try case_eqb);
    (eexists _, _; split; [reflexivity|];
     cbn [deletes_allocated track app];
     repeat (case_eqb; cbn [deletes_allocated track remove_first app]);
     repeat split; try congruence; set_solver).
Qed.

End Programs.

(** X3 on an implementation whose fragment stage does not compile. *)
Lemma loadShader_compile_or_link_failure_releases_everything_witness :
  ∃ t, Shader.loadShader Scenarios.drv_bad_fragment vertex fragment
         "inPosition" "inUV" "uProjection" = Some (None, t) ∧
       unreleased t = [] ∧ Forall (fun e => is_lookup e = false) t.
Proof.
  apply loadShader_compile_or_link_failure_releases_everything.
  intros (_ & [_ H] & _). apply H. reflexivity.
Defined.

(** X4 on the textured program of [Renderer.cpp]: UV location 1. *)
Lemma loadShader_success_keeps_only_the_program_witness :
  ∃ t, Shader.loadShader Examples.drv_ok vertex fragment "inPosition" "inUV" "uProjection"
       = Some (Some {| program_ := 3; position_ := 0; uv_ := 1; projectionMatrix_ := 0 |}, t)
       ∧ unreleased t = [ProgramObject 3].
Proof.
  apply (loadShader_success_keeps_only_the_program Examples.drv_ok vertex fragment
           "inPosition" "inUV" "uProjection").
  - split; vm_compute; discriminate.
  - split; vm_compute; discriminate.
  - split; vm_compute; [discriminate|reflexivity].
  - vm_compute; discriminate.
  - vm_compute; discriminate.
Defined.

(** ** Renderer.cpp: when a frame returns, and what it leaves *)

Section Frames.

Lemma drawModel_inv (s : Shader) (model : Model) (x : unit * Trace) :
  Shader.drawModel s model = Some x -> drawable s model.
Proof.
  intros Hrun. destruct (Z.eq_dec (uv_ s) (-1)) as [E|E]; [left; exact E|].
  right. intros Ht. rewrite (drawModel_null_texture s model E Ht) in Hrun. discriminate.
Qed.

Lemma for_each_draw_inv (s : Shader) (models : list Model) (r : Renderer)
    (x : unit * Renderer * Trace) :
  for_each models (fun model => lift (Shader.drawModel s model)) r = Some x ->
  Forall (drawable s) models.
Proof.
  revert x. induction models as [|m ms IH]; intros x Hrun; [constructor|].
  cbn [for_each] in Hrun. unfold sbind at 1, lift at 1 in Hrun.
  destruct (Shader.drawModel s m) as [[[] t1]|] eqn:Hm; [|discriminate Hrun].
  run.
  destruct (for_each ms (fun model => lift (Shader.drawModel s model)) r) as [y|] eqn:Hms;
    [|discriminate Hrun].
  constructor; [exact (drawModel_inv _ _ _ Hm)|exact (IH y eq_refl)].
Qed.

Lemma drawBatch_run (s : option Shader) (models : list Model) (r : Renderer) :
  batch_defined s models ->
  Renderer.drawBatch s models r = Some (tt, r, batch_trace s models).
Proof.
  intros [-> | (sh & -> & Hall)].
  - destruct s; reflexivity.
  - apply drawBatch_events, Hall.
Qed.

Lemma drawBatch_inv (s : option Shader) (models : list Model) (r : Renderer)
    (x : unit * Renderer * Trace) :
  Renderer.drawBatch s models r = Some x -> batch_defined s models.
Proof.
  intros Hrun. destruct models as [|m ms]; [left; reflexivity|]. right.
  unfold Renderer.drawBatch in Hrun. unfold sbind at 1 in Hrun.
  destruct s as [sh|]; [|discriminate Hrun]. exists sh. split; [reflexivity|].
  run. unfold sbind at 1, lift at 1, Shader.activate at 1 in Hrun. run.
  unfold sbind at 1 in Hrun.
  destruct (for_each (m :: ms) (fun model => lift (Shader.drawModel sh model)) r)
    as [y|] eqn:Hms; [|discriminate Hrun].
  exact (for_each_draw_inv _ _ _ _ Hms).
Qed.

Lemma after_frame_unchanged (f : Frame) (r : Renderer) :
  resized r (query_width f) (query_height f) = false ->
  after_frame f r = set_needsProjection r false.
Proof.
  unfold resized, after_frame. intros E. apply orb_false_elim in E as [E1 E2].
  apply negb_false_iff, Z.eqb_eq in E1. apply negb_false_iff, Z.eqb_eq in E2.
  rewrite E1, E2. destruct r; reflexivity.
Qed.

(** a frame whose conditions hold *)
Lemma render_run (f : Frame) (r : Renderer) :
  render_defined f r ->
  Renderer.render f r = Some (tt, after_frame f r, frame_events f r).
Proof.
  intros (Hsh & Hred & Htex & Hswap).
  unfold Renderer.render, frame_events. unfold sbind at 1.
  destruct (resized r (query_width f) (query_height f)) eqn:E.
  - rewrite (updateRenderArea_changed _ _ _ E). run.
    unfold sbind at 1, get at 1. run.
    cbn [shaderNeedsNewProjectionMatrix_ set_needsProjection shader_ shaderRed_ set_area
         orb].
    destruct (Hsh (or_introl eq_refl)) as [[sh Hs] [shRed Hr]]. rewrite Hs, Hr.
    unfold sbind, deref, sret, Renderer.uploadProjection, sbind, lift, modify,
      Shader.activate, Shader.setProjectionMatrix, Shader.deactivate, get. run.
    cbn [shaderRed_ shader_ modelsRed_ models_ set_needsProjection set_area].
    rewrite Hr, Hs in *.
    rewrite (drawBatch_run _ _ _ Hred). run.
    rewrite (drawBatch_run _ _ _ Htex). run.
    rewrite Hswap. unfold assert, sret. run.
    cbn [display_ surface_ set_needsProjection set_area from_option].
    unfold upload_events, after_frame.
    rewrite ?app_nil_r. cbn [app]. rewrite <- ?app_assoc. reflexivity.
  - rewrite (updateRenderArea_unchanged _ _ _ E). run.
    unfold sbind at 1, get at 1. run. cbn [orb].
    rewrite (after_frame_unchanged _ _ E).
    destruct (shaderNeedsNewProjectionMatrix_ r) eqn:Hflag.
    + destruct (Hsh (or_intror eq_refl)) as [[sh Hs] [shRed Hr]]. rewrite Hs, Hr.
      unfold sbind, deref, sret, Renderer.uploadProjection, sbind, lift, modify,
        Shader.activate, Shader.setProjectionMatrix, Shader.deactivate, get. run.
      cbn [shaderRed_ shader_ modelsRed_ models_ set_needsProjection].
      rewrite Hr, Hs in *.
      rewrite (drawBatch_run _ _ _ Hred). run.
      rewrite (drawBatch_run _ _ _ Htex). run.
      rewrite Hswap. unfold assert, sret. run.
      cbn [display_ surface_ set_needsProjection from_option].
      unfold upload_events, projection.
      unfold resized in E. apply orb_false_elim in E as [E1 E2].
      apply negb_false_iff, Z.eqb_eq in E1. apply negb_false_iff, Z.eqb_eq in E2.
      rewrite E1, E2.
      rewrite ?app_nil_r. cbn [app]. rewrite <- ?app_assoc. reflexivity.
    + rewrite (set_needsProjection_same _ Hflag).
      unfold sbind, sret, lift, get. run.
      rewrite (drawBatch_run _ _ _ Hred). run.
      rewrite (drawBatch_run _ _ _ Htex). run.
      rewrite Hswap. unfold assert, sret. run.
      rewrite ?app_nil_r. cbn [app]. rewrite <- ?app_assoc. reflexivity.
Qed.

Lemma sbind_inv {S A B} (m : StateT S A) (k : A -> StateT S B) (s : S)
    (x : B * S * Trace) :
  sbind m k s = Some x ->
  ∃ a s1 t1 t2, m s = Some (a, s1, t1) ∧
    match k a s1 with
    | Some (b, s2, t2') => x = (b, s2, t1 ++ t2') ∧ t2 = t2'
    | None => False
    end.
Proof.
  unfold sbind, bind. destruct (m s) as [[[a s1] t1]|]; [|discriminate].
  destruct (k a s1) as [[[b s2] t2]|] eqn:Hk; [|discriminate].
  intros [= <-]. exists a, s1, t1, t2. rewrite Hk. auto.
Qed.

Lemma sbind_returns {S A B} (m : StateT S A) (k : A -> StateT S B) (s : S)
    (x : B * S * Trace) :
  sbind m k s = Some x ->
  ∃ a s1 t1 y, m s = Some (a, s1, t1) ∧ k a s1 = Some y.
Proof.
  unfold sbind, bind. destruct (m s) as [[[a s1] t1]|]; [|discriminate].
  destruct (k a s1) as [y|] eqn:Hk; [|discriminate].
  intros _. exists a, s1, t1, y. split; [reflexivity|exact Hk].
Qed.

(** the part of a frame from [glClear] on *)
Lemma frame_tail_inv (f : Frame) (r : Renderer) (x : unit * Renderer * Trace) :
  (lift (emit (Clear (Z.lor GL_COLOR_BUFFER_BIT GL_DEPTH_BUFFER_BIT))) ;+
   let+ r := get in
   Renderer.drawBatch (shaderRed_ r) (modelsRed_ r) ;+
   Renderer.drawBatch (shader_ r) (models_ r) ;+
   lift (emit (EglSwapBuffers (display_ r) (surface_ r) (swapResult f))) ;+
   assert (swapResult f)) r = Some x ->
  batch_defined (shaderRed_ r) (modelsRed_ r) ∧
  batch_defined (shader_ r) (models_ r) ∧
  swapResult f = true.
Proof.
  intros Hrun.
  apply sbind_returns in Hrun as ([] & r1 & t1 & y1 & H1 & Hrun).
  injection H1 as <- _.
  apply sbind_returns in Hrun as (r1 & r2 & t2 & y2 & H2 & Hrun).
  injection H2 as <- <- _.
  apply sbind_returns in Hrun as ([] & r1 & t3 & y3 & Hb1 & Hrun).
  pose proof (drawBatch_inv _ _ _ _ Hb1) as Hred.
  rewrite (drawBatch_run _ _ _ Hred) in Hb1. injection Hb1 as <- _.
  apply sbind_returns in Hrun as ([] & r1 & t4 & y4 & Hb2 & Hrun).
  pose proof (drawBatch_inv _ _ _ _ Hb2) as Htex.
  rewrite (drawBatch_run _ _ _ Htex) in Hb2. injection Hb2 as <- _.
  apply sbind_returns in Hrun as ([] & r1 & t5 & y5 & _ & Hrun).
  split; [exact Hred|]. split; [exact Htex|].
  unfold assert in Hrun. destruct (swapResult f); [reflexivity|discriminate Hrun].
Qed.

(** a frame that returns *)
Lemma render_inv (f : Frame) (r : Renderer) (x : unit * Renderer * Trace) :
  Renderer.render f r = Some x -> render_defined f r.
Proof.
  intros Hrun. unfold Renderer.render in Hrun.
  destruct (updateRenderArea_returns r (query_width f) (query_height f))
    as (r1 & t1 & Hu & _ & _ & Hs1 & Hr1 & Hm1 & Hmr1 & Hch & Hsame & _).
  assert (Hflag : resized r (query_width f) (query_height f) = true
                  ∨ shaderNeedsNewProjectionMatrix_ r = true ->
                  shaderNeedsNewProjectionMatrix_ r1 = true).
  { intros [E|E]; [apply (Hch E)|].
    destruct (resized r (query_width f) (query_height f)) eqn:E'; [apply (Hch eq_refl)|].
    destruct (Hsame eq_refl) as [-> _]. exact E. }
  apply sbind_returns in Hrun as ([] & r1' & t1' & y1 & Hu' & Hrun).
  rewrite Hu in Hu'. injection Hu' as <- <-.
  apply sbind_returns in Hrun as (r1' & r1'' & t2 & y2 & Hg & Hrun).
  injection Hg as <- <- _.
  apply sbind_returns in Hrun as ([] & r2 & t3 & y3 & Hup & Htail).
  apply frame_tail_inv in Htail.
  unfold render_defined.
  rewrite <- Hs1, <- Hr1, <- Hm1, <- Hmr1. clear Hs1 Hr1 Hm1 Hmr1 Hch Hsame Hu.
  destruct (shaderNeedsNewProjectionMatrix_ r1) eqn:Hfl.
  - apply sbind_inv in Hup as (sh & r3 & t4 & t5 & Hd & Hup).
    destruct (shader_ r1) as [sh'|] eqn:Hs; [|discriminate Hd].
    injection Hd as <- <- _.
    unfold sbind at 1, Renderer.uploadProjection at 1 in Hup.
    unfold sbind at 1 2, lift at 1 2 3, Shader.activate, Shader.setProjectionMatrix,
      Shader.deactivate in Hup. run. unfold sbind at 1 in Hup.
    destruct (shaderRed_ r1) as [shRed|] eqn:Hr; [|contradiction Hup]. run.
    destruct Hup as [[= -> _] _].
    cbn [shader_ shaderRed_ models_ modelsRed_ set_needsProjection] in Htail.
    rewrite Hs, Hr in Htail. split; [eauto|exact Htail].
  - injection Hup as <- _.
    split; [|exact Htail]. intros H. specialize (Hflag H). discriminate Hflag.
Qed.

End Frames.

(** X6: [render] returns exactly when (i) both programs are there whenever
    a projection has to be uploaded, that is when the size changed or
    the rebuild flag is up, (ii) each of the two lists is empty or its
    program is there and can draw every model of the list (a program
    that samples a texture needs the model to have one), and (iii)
    [eglSwapBuffers] succeeds.  In every other case a null pointer is
    dereferenced or the assertion on the swap fails. *)
Theorem render_returns_iff (f : Frame) (r : Renderer) :
  is_Some (Renderer.render f r) ↔ render_defined f r.
Proof.
  split.
  - intros [x Hx]. exact (render_inv f r x Hx).
  - intros H. rewrite (render_run f r H). eauto.
Qed.

(** X7: a frame that returns changes nothing of the renderer but the
    cached size, which is then the reported one, and the rebuild flag,
    which is then down: models, texture cache, depth counter, programs
    and EGL handles are as before.  Its events are, in this order, the
    viewport if the size changed, the projection uploads to the textured
    and to the solid-color program if the size changed or the flag was
    up, the clear, the solid-color batch, the textured batch and the
    swap. *)
Theorem render_changes_only_size_and_flag (f : Frame) (r r' : Renderer) (t : Trace) :
  Renderer.render f r = Some (tt, r', t) ->
  r' = set_needsProjection (set_area r (query_width f) (query_height f)) false ∧
  t = frame_events f r.
Proof.
  intros Hrun. pose proof (render_inv f r _ Hrun) as Hdef.
  rewrite (render_run f r Hdef) in Hrun. injection Hrun as <- <-. split; reflexivity.
Qed.

(** X7 on the first frame after initialisation. *)
Lemma render_changes_only_size_and_flag_witness :
  ∃ r' t,
    Renderer.render Examples.frame Examples.ready = Some (tt, r', t) ∧
    r' = set_needsProjection (set_area Examples.ready 1080 1920) false ∧
    t = frame_events Examples.frame Examples.ready.
Proof.
  destruct (Renderer.render Examples.frame Examples.ready) as [[[[] r'] t]|] eqn:Hrun;
    [|vm_compute in Hrun; discriminate Hrun].
  exists r', t. split; [reflexivity|].
  exact (render_changes_only_size_and_flag Examples.frame Examples.ready r' t Hrun).
Defined.

(** ** Renderer.cpp: initialisation *)

Section Initialisation.
Context {AssetWorld : Type}.
Variable loadAsset : AssetWorld -> Z -> string -> shared_ptr TextureAsset * AssetWorld.
Variable env : InitEnv.

Local Abbreviation initRenderer := (Renderer.initRenderer loadAsset env).
Local Abbreviation getOrLoadTexture := (Renderer.getOrLoadTexture loadAsset).
Local Abbreviation createModels := (Renderer.createModels loadAsset).
Local Abbreviation build :=
  (Shader.loadShader (init_drv env) vertex fragment "inPosition" "inUV" "uProjection").
Local Abbreviation buildRed :=
  (Shader.loadShader (init_drvRed env) vertexRed fragmentSolidRed
     "inPosition" "" "uProjection").

Lemma sbind_some {S A B} (m : StateT S A) (k : A -> StateT S B) (s s1 : S) (a : A)
    (t1 : Trace) :
  m s = Some (a, s1, t1) ->
  sbind m k s = match k a s1 with
                | Some (b, t2) => Some (b, t1 ++ t2)
                | None => None
                end.
Proof. intros H. unfold sbind, bind. rewrite H. reflexivity. Qed.

Lemma lift_some {S A} (m : GL A) (a : A) (t : Trace) (s : S) :
  m = Some (a, t) -> lift m s = Some (a, s, t).
Proof. intros ->. unfold lift, bind, ret. rewrite app_nil_r. reflexivity. Qed.

(** [createModels] from the handle its fetch returns *)
Lemma createModels_run (s : Renderer * AssetWorld) (h : shared_ptr TextureAsset)
    (r' : Renderer) (w' : AssetWorld) (t : Trace) :
  getOrLoadTexture "android_robot.png" s = Some (h, (r', w'), t) ->
  createModels s =
    Some (tt, (set_models r' (models_ r' ++ initial_quads (counter (fst s)) h), w'), t).
Proof.
  intros Hfetch.
  unfold Renderer.createModels. unfold sbind at 1, get at 1. run.
  unfold sbind at 1. rewrite Hfetch. run.
  destruct h as [texture|]; unfold sbind, sret; run;
    rewrite ?emplace_back_run; run; rewrite ?emplace_back_run; run;
    cbn [models_ set_models]; rewrite <- ?app_assoc, ?app_nil_r; reflexivity.
Qed.

Lemma initRenderer_not_current (s : Renderer * AssetWorld) :
  init_madeCurrent env = false -> initRenderer s = None.
Proof.
  intros H. unfold Renderer.initRenderer. rewrite H.
  erewrite sbind_some by reflexivity. reflexivity.
Qed.

Lemma initRenderer_no_program (s : Renderer * AssetWorld) (t : Trace) :
  build = Some (None, t) -> initRenderer s = None.
Proof.
  intros H. destruct s as [r w].
  destruct (init_madeCurrent env) eqn:Hc; [|apply initRenderer_not_current, Hc].
  unfold Renderer.initRenderer. rewrite Hc.
  do 4 (erewrite sbind_some by reflexivity).
  erewrite sbind_some by (apply lift_some, H).
  erewrite sbind_some by reflexivity. reflexivity.
Qed.

Lemma initRenderer_no_solid_program (s : Renderer * AssetWorld) (sh : Shader)
    (t1 t2 : Trace) :
  build = Some (Some sh, t1) -> buildRed = Some (None, t2) -> initRenderer s = None.
Proof.
  intros H1 H2. destruct s as [r w].
  destruct (init_madeCurrent env) eqn:Hc; [|apply initRenderer_not_current, Hc].
  unfold Renderer.initRenderer. rewrite Hc.
  do 4 (erewrite sbind_some by reflexivity).
  erewrite sbind_some by (apply lift_some, H1).
  do 2 (erewrite sbind_some by reflexivity).
  erewrite sbind_some by (apply lift_some, H2).
  erewrite sbind_some by reflexivity. reflexivity.
Qed.

(** an initialisation that goes through *)
Lemma initRenderer_run (r : Renderer) (w : AssetWorld) (sh shRed : Shader)
    (t1 t2 t3 : Trace) (h : shared_ptr TextureAsset) (rc : Renderer) (wc : AssetWorld) :
  init_madeCurrent env = true ->
  build = Some (Some sh, t1) -> buildRed = Some (Some shRed, t2) ->
  getOrLoadTexture "android_robot.png" (prepared env r sh shRed, w) = Some (h, (rc, wc), t3) ->
  initRenderer (r, w) =
    Some (tt, (populated rc h, wc),
          [EglMakeCurrent (init_display env) (init_surface env) (init_surface env)
             (init_context env)] ++ t1 ++ t2 ++ state_setup ++ t3).
Proof.
  intros Hc H1 H2 Hfetch.
  pose proof (createModels_run _ _ _ _ _ Hfetch) as Hcreate.
  unfold Renderer.initRenderer. rewrite Hc.
  do 4 (erewrite sbind_some by reflexivity).
  erewrite sbind_some by (apply lift_some, H1).
  do 2 (erewrite sbind_some by reflexivity).
  erewrite sbind_some by (apply lift_some, H2).
  do 2 (erewrite sbind_some by reflexivity).
  do 6 (erewrite sbind_some by reflexivity).
  erewrite sbind_some by reflexivity.
  erewrite sbind_some by exact Hcreate.
  erewrite sbind_some by reflexivity.
  unfold Renderer.onRenderer, modify. run.
  rewrite ?app_nil_r. cbn [app].
  assert (Hcounter : counter rc = F32.lit_0_0001).
  { destruct (getOrLoadTexture_step loadAsset "android_robot.png"
                (prepared env r sh shRed, w))
      as (h' & s' & t' & Hstep & _ & _ & _ & _ & _ & Hcnt & _).
    rewrite Hfetch in Hstep. injection Hstep as <- <- <-. exact Hcnt. }
  unfold populated, bump.
  cbn [counter modelsRed_ set_models set_modelsRed set_counter]. rewrite Hcounter.
  reflexivity.
Qed.

(** an initialisation that returns went through *)
Lemma initRenderer_inv (r : Renderer) (w : AssetWorld) (x : unit * (Renderer * AssetWorld) * Trace) :
  initRenderer (r, w) = Some x ->
  init_madeCurrent env = true ∧
  ∃ sh shRed t1 t2 t3 h rc wc,
    build = Some (Some sh, t1) ∧ buildRed = Some (Some shRed, t2) ∧
    getOrLoadTexture "android_robot.png" (prepared env r sh shRed, w)
      = Some (h, (rc, wc), t3) ∧
    x = (tt, (populated rc h, wc),
         [EglMakeCurrent (init_display env) (init_surface env) (init_surface env)
            (init_context env)] ++ t1 ++ t2 ++ state_setup ++ t3).
Proof.
  intros Hrun.
  destruct (init_madeCurrent env) eqn:Hc;
    [|rewrite (initRenderer_not_current _ Hc) in Hrun; discriminate Hrun].
  split; [reflexivity|].
  destruct (loadShader_returns (init_drv env) vertex fragment "inPosition" "inUV"
              "uProjection") as ([sh|] & t1 & H1);
    [|rewrite (initRenderer_no_program _ _ H1) in Hrun; discriminate Hrun].
  destruct (loadShader_returns (init_drvRed env) vertexRed fragmentSolidRed "inPosition" ""
              "uProjection") as ([shRed|] & t2 & H2);
    [|rewrite (initRenderer_no_solid_program _ _ _ _ H1 H2) in Hrun; discriminate Hrun].
  destruct (getOrLoadTexture_step loadAsset "android_robot.png"
              (prepared env r sh shRed, w)) as (h & [rc wc] & t3 & Hfetch & _).
  rewrite (initRenderer_run r w sh shRed t1 t2 t3 h rc wc Hc H1 H2 Hfetch) in Hrun.
  injection Hrun as <-. eauto 12.
Qed.

End Initialisation.

(** the program a construction returns *)
Lemma loadShader_result (drv : GLDriver) (vs fs pos uvn proj : string) (s : Shader)
    (t : Trace) :
  Shader.loadShader drv vs fs pos uvn proj = Some (Some s, t) ->
  s = {| program_ := drv_glCreateProgram drv;
         position_ := drv_glGetAttribLocation drv (drv_glCreateProgram drv) pos;
         uv_ := if String.eqb uvn "" then -1
                else drv_glGetAttribLocation drv (drv_glCreateProgram drv) uvn;
         projectionMatrix_ := drv_glGetUniformLocation drv (drv_glCreateProgram drv) proj |}.
Proof.
  unfold_load.
  repeat (run; cbn [negb andb]; try case_eqb); intros Hrun; try discriminate Hrun;
    injection Hrun as <- _; reflexivity.
Qed.

Section Fetch.
Context {AssetWorld : Type}.
Variable loadAsset : AssetWorld -> Z -> string -> shared_ptr TextureAsset * AssetWorld.

(** a request changes nothing of the renderer but the cache, and the
    cache only when it returns a texture *)
Lemma getOrLoadTexture_frame (key : string) (r r' : Renderer) (w w' : AssetWorld)
    (h : shared_ptr TextureAsset) (t : Trace) :
  Renderer.getOrLoadTexture loadAsset key (r, w) = Some (h, (r', w'), t) ->
  r' = set_textureCache r (textureCache_ r') ∧
  (h = None -> r' = r) ∧
  (∀ texture, h = Some texture -> textureCache_ r' !! key = Some (Some texture)).
Proof.
  intros Hrun.
  assert (Heta : r = set_textureCache r (textureCache_ r)) by (destruct r; reflexivity).
  destruct (textureCache_ r !! key) as [cached|] eqn:Hc.
  { rewrite (getOrLoadTexture_hit loadAsset _ _ _ _ Hc) in Hrun.
    injection Hrun as <- <- _ _. split; [exact Heta|]. split; [reflexivity|].
    intros texture ->. exact Hc. }
  destruct (Renderer.availableAssetManager r) as [manager|] eqn:Hm.
  2:{ rewrite (getOrLoadTexture_no_manager loadAsset _ _ _ Hc Hm) in Hrun.
      injection Hrun as <- <- _ _. split; [exact Heta|]. split; [reflexivity|discriminate]. }
  destruct (loadAsset w manager key) as [[texture|] w1] eqn:Hl.
  - rewrite (getOrLoadTexture_loaded loadAsset _ _ _ _ _ _ Hc Hm Hl) in Hrun.
    injection Hrun as <- <- _ _. split; [reflexivity|]. split; [discriminate|].
    intros texture' [= <-]. apply lookup_insert_eq.
  - rewrite (getOrLoadTexture_failed loadAsset _ _ _ _ _ Hc Hm Hl) in Hrun.
    injection Hrun as <- <- _ _. split; [exact Heta|]. split; [reflexivity|discriminate].
Qed.

End Fetch.

Section AfterInitialisation.
Context {AssetWorld : Type}.
Variable loadAsset : AssetWorld -> Z -> string -> shared_ptr TextureAsset * AssetWorld.
Variable env : InitEnv.

Local Abbreviation initRenderer := (Renderer.initRenderer loadAsset env).
Local Abbreviation build :=
  (Shader.loadShader (init_drv env) vertex fragment "inPosition" "inUV" "uProjection").
Local Abbreviation buildRed :=
  (Shader.loadShader (init_drvRed env) vertexRed fragmentSolidRed
     "inPosition" "" "uProjection").


(** X9: what an initialisation that returns has established: both programs
    are there, the solid-color one without UV attribute; the EGL handles
    are the ones created; the cached size is the sentinel -1 x -1, so
    that the first frame sees a change; the rebuild flag and the
    application pointer are untouched; the counter is 0.0001f +
    0.00001f; the background quad has been appended to the solid-color
    list; and the textured list has got the unit quad at depth 0.0001f,
    twice with the texture that is then in the cache, or once without
    texture when none could be had, the cache being then as before. *)
Theorem initRenderer_establishes (s s' : Renderer * AssetWorld) (t : Trace) :
  initRenderer s = Some (tt, s', t) ->
  let r := fst s in
  let r' := fst s' in
  ∃ (sh shRed : Shader) (h : shared_ptr TextureAsset),
    shader_ r' = Some sh ∧ shaderRed_ r' = Some shRed ∧
    program_ sh = drv_glCreateProgram (init_drv env) ∧
    program_ shRed = drv_glCreateProgram (init_drvRed env) ∧
    uv_ shRed = -1 ∧
    display_ r' = init_display env ∧ surface_ r' = init_surface env ∧
    context_ r' = init_context env ∧
    width_ r' = -1 ∧ height_ r' = -1 ∧
    shaderNeedsNewProjectionMatrix_ r' = shaderNeedsNewProjectionMatrix_ r ∧
    app_ r' = app_ r ∧
    counter r' = bump F32.lit_0_0001 ∧
    modelsRed_ r' = modelsRed_ r ++ [background] ∧
    models_ r' = models_ r ++ initial_quads F32.lit_0_0001 h ∧
    (h = None -> textureCache_ r' = textureCache_ r) ∧
    (∀ texture, h = Some texture ->
       textureCache_ r' !! "android_robot.png" = Some (Some texture)).
Proof.
  destruct s as [r w]. intros Hrun. cbn [fst].
  destruct (initRenderer_inv loadAsset env r w _ Hrun)
    as (Hc & sh & shRed & t1 & t2 & t3 & h & rc & wc & H1 & H2 & Hfetch & Hx).
  injection Hx as -> _.
  destruct (getOrLoadTexture_frame loadAsset _ _ _ _ _ _ _ Hfetch) as (Hrc & Hnone & Hsome).
  pose proof (loadShader_result _ _ _ _ _ _ _ _ H1) as E1.
  pose proof (loadShader_result _ _ _ _ _ _ _ _ H2) as E2.
  exists sh, shRed, h. cbn [fst]. rewrite Hrc.
  unfold populated, prepared.
  cbn [shader_ shaderRed_ display_ surface_ context_ width_ height_
       shaderNeedsNewProjectionMatrix_ app_ counter modelsRed_ models_ textureCache_
       set_textureCache set_counter set_shaders set_area set_egl set_models set_modelsRed].
  do 2 (split; [reflexivity|]).
  split; [rewrite E1; reflexivity|]. split; [rewrite E2; reflexivity|].
  split; [rewrite E2; reflexivity|].
  do 10 (split; [reflexivity|]).
  split; [|exact Hsome].
  intros E. rewrite (Hnone E). reflexivity.
Qed.

(** X10: an initialisation that returns without the robot texture in the
    cache (the loader failed, or there is no asset manager) leaves a
    renderer on which no frame can be drawn, provided the textured
    program has its UV attribute: the textured list holds a quad
    without texture, and every [render], whatever the surface answers,
    dereferences its null texture. *)
Theorem render_undefined_without_robot_texture (s s' : Renderer * AssetWorld) (t : Trace) :
  initRenderer s = Some (tt, s', t) ->
  textureCache_ (fst s') !! "android_robot.png" = None ->
  attribute_resolves (init_drv env) "inUV" ->
  ∃ (sh : Shader) (m : Model),
    shader_ (fst s') = Some sh ∧ m ∈ models_ (fst s') ∧ spTexture_ m = None ∧
    Shader.drawModel sh m = None ∧
    ∀ f : Frame, Renderer.render f (fst s') = None.
Proof.
  destruct s as [r w]. intros Hrun Hmiss Huv.
  destruct (initRenderer_inv loadAsset env r w _ Hrun)
    as (Hc & sh & shRed & t1 & t2 & t3 & h & rc & wc & H1 & H2 & Hfetch & Hx).
  injection Hx as -> _.
  destruct (getOrLoadTexture_frame loadAsset _ _ _ _ _ _ _ Hfetch) as (Hrc & Hnone & Hsome).
  change (textureCache_ rc !! "android_robot.png" = None) in Hmiss.
  assert (Hh : h = None).
  { destruct h as [texture|]; [|reflexivity].
    pose proof (eq_trans (eq_sym (Hsome texture eq_refl)) Hmiss) as Habs.
    discriminate Habs. }
  subst h. rewrite (Hnone eq_refl) in *. cbn [fst].
  apply loadShader_result in H1.
  assert (Hsh : uv_ sh ≠ -1).
  { rewrite H1. cbn [uv_ String.eqb]. exact Huv. }
  set (m := robot_quad F32.lit_0_0001 None).
  assert (Hdraw : Shader.drawModel sh m = None)
    by (apply drawModel_null_texture; [exact Hsh|reflexivity]).
  assert (Hin : m ∈ models_ (populated (prepared env r sh shRed) None)).
  { unfold populated. cbn [models_ set_counter set_modelsRed set_models initial_quads].
    apply elem_of_app. right. apply list_elem_of_singleton. reflexivity. }
  exists sh, m. split; [reflexivity|]. split; [exact Hin|]. split; [reflexivity|].
  split; [exact Hdraw|].
  intros f. destruct (Renderer.render f _) as [x|] eqn:Hf; [|reflexivity].
  exfalso. apply render_inv in Hf as (_ & _ & Hbatch & _).
  destruct Hbatch as [Hempty | (sh' & Hs' & Hall)].
  - rewrite Hempty in Hin. inversion Hin.
  - injection Hs' as <-. rewrite Forall_forall in Hall.
    destruct (Hall m Hin) as [E|E]; [contradiction|]. apply E. reflexivity.
Qed.

(** X11: the first frame after an initialisation of a renderer without
    models that got the robot texture, on a surface that does not
    report -1 x -1 and swaps: the viewport is set, the projection goes
    to both programs, and after the clear the background quad is drawn
    through the solid-color program and the unit quad is drawn twice,
    with the same data, through the textured one. *)
Theorem first_frame_after_initialisation (s s' : Renderer * AssetWorld) (t : Trace)
    (texture : TextureAsset) (f : Frame) :
  initRenderer s = Some (tt, s', t) ->
  models_ (fst s) = [] -> modelsRed_ (fst s) = [] ->
  textureCache_ (fst s') !! "android_robot.png" = Some (Some texture) ->
  query_width f ≠ -1 ∨ query_height f ≠ -1 ->
  swapResult f = true ->
  let width := query_width f in
  let height := query_height f in
  let quad := robot_quad F32.lit_0_0001 (Some texture) in
  ∃ sh shRed : Shader,
    shader_ (fst s') = Some sh ∧ shaderRed_ (fst s') = Some shRed ∧
    Renderer.render f (fst s') =
      Some (tt, after_frame f (fst s'),
            [Viewport 0 0 width height] ++
            upload_events sh (projection width height) ++
            upload_events shRed (projection width height) ++
            [Clear (Z.lor GL_COLOR_BUFFER_BIT GL_DEPTH_BUFFER_BIT)] ++
            batch_events shRed [background] ++
            batch_events sh [quad; quad] ++
            [EglSwapBuffers (init_display env) (init_surface env) true]).
Proof.
  destruct s as [r w]. intros Hrun Hm Hmr Hcache Hsize Hswap width height quad.
  cbn [fst] in Hm, Hmr.
  destruct (initRenderer_inv loadAsset env r w _ Hrun)
    as (Hc & sh & shRed & t1 & t2 & t3 & h & rc & wc & H1 & H2 & Hfetch & Hx).
  injection Hx as -> _.
  destruct (getOrLoadTexture_frame loadAsset _ _ _ _ _ _ _ Hfetch) as (Hrc & Hnone & Hsome).
  pose proof (loadShader_result _ _ _ _ _ _ _ _ H2) as E2.
  cbn [fst] in *.
  change (textureCache_ rc !! "android_robot.png" = Some (Some texture)) in Hcache.
  assert (Hh : h = Some texture).
  { destruct h as [texture'|].
    - pose proof (eq_trans (eq_sym (Hsome texture' eq_refl)) Hcache) as E. congruence.
    - exfalso. rewrite (Hnone eq_refl) in Hfetch, Hcache.
      rewrite (getOrLoadTexture_hit loadAsset _ _ _ _ Hcache) in Hfetch.
      discriminate Hfetch. }
  subst h. exists sh, shRed. rewrite Hrc.
  split; [reflexivity|]. split; [reflexivity|].
  rewrite render_run.
  - unfold frame_events, populated, prepared, resized, batch_trace.
    cbn [shader_ shaderRed_ display_ surface_ context_ width_ height_
         shaderNeedsNewProjectionMatrix_ counter modelsRed_ models_ textureCache_
         set_textureCache set_counter set_shaders set_area set_egl set_models set_modelsRed
         from_option initial_quads].
    rewrite Hm, Hmr. cbn [app].
    fold width height.
    assert (Hres : negb (width =? -1) || negb (height =? -1) = true).
    { destruct Hsize as [E|E]; apply Z.eqb_neq in E; unfold width, height; rewrite E;
        [reflexivity|apply orb_true_r]. }
    rewrite Hres. cbn [orb app]. reflexivity.
  - unfold render_defined, populated, prepared, batch_defined.
    cbn [shader_ shaderRed_ display_ surface_ context_ width_ height_
         shaderNeedsNewProjectionMatrix_ counter modelsRed_ models_ textureCache_
         set_textureCache set_counter set_shaders set_area set_egl set_models set_modelsRed
         initial_quads].
    rewrite Hm, Hmr. cbn [app].
    split; [intros _; split; eauto|].
    split; [right; exists shRed; split; [reflexivity|]|].
    { constructor; [|constructor]. left. rewrite E2. reflexivity. }
    split; [|exact Hswap].
    right. exists sh. split; [reflexivity|].
    repeat (constructor; [right; discriminate|]). constructor.
Qed.

End AfterInitialisation.

(** X9 from the blank renderer, with a loader that succeeds. *)
Lemma initRenderer_establishes_witness :
  ∃ s' t,
    Renderer.initRenderer Examples.loader_ok Examples.env_ok (Examples.blank, 0%nat)
      = Some (tt, s', t) ∧
    width_ (fst s') = -1 ∧ height_ (fst s') = -1 ∧
    counter (fst s') = bump F32.lit_0_0001 ∧
    modelsRed_ (fst s') = [background] ∧
    ∃ h, models_ (fst s') = initial_quads F32.lit_0_0001 h.
Proof.
  destruct (Renderer.initRenderer Examples.loader_ok Examples.env_ok (Examples.blank, 0%nat))
    as [[[[] s'] t]|] eqn:Hrun; [|vm_compute in Hrun; discriminate Hrun].
  exists s', t. split; [reflexivity|].
  destruct (initRenderer_establishes Examples.loader_ok Examples.env_ok _ s' t Hrun)
    as (sh & shRed & h & _ & _ & _ & _ & _ & _ & _ & _ & Hw & Hh & _ & _ & Hc & Hmr & Hm & _).
  split; [exact Hw|]. split; [exact Hh|]. split; [exact Hc|]. split; [exact Hmr|].
  exists h. exact Hm.
Defined.

(** X10 with a loader that fails. *)
Lemma render_undefined_without_robot_texture_witness :
  ∃ s' t,
    Renderer.initRenderer Examples.loader_fail Examples.env_ok (Examples.blank, 0%nat)
      = Some (tt, s', t) ∧
    ∀ f : Frame, Renderer.render f (fst s') = None.
Proof.
  destruct (Renderer.initRenderer Examples.loader_fail Examples.env_ok (Examples.blank, 0%nat))
    as [[[[] s'] t]|] eqn:Hrun; [|vm_compute in Hrun; discriminate Hrun].
  exists s', t. split; [reflexivity|].
  destruct (render_undefined_without_robot_texture Examples.loader_fail Examples.env_ok
              _ s' t Hrun) as (sh & m & _ & _ & _ & _ & Hnone).
  - vm_compute in Hrun. injection Hrun as <- _. reflexivity.
  - vm_compute. discriminate.
  - exact Hnone.
Defined.

(** X11 on the 1080 x 1920 surface: three submissions, the last two the
    same. *)
Lemma first_frame_after_initialisation_witness :
  ∃ s' t sh shRed r2 t2,
    Renderer.initRenderer Examples.loader_ok Examples.env_ok (Examples.blank, 0%nat)
      = Some (tt, s', t) ∧
    shader_ (fst s') = Some sh ∧ shaderRed_ (fst s') = Some shRed ∧
    Renderer.render Examples.frame (fst s') = Some (tt, r2, t2) ∧
    ∀ p d, submitted p d t2 =
      [ submission shRed background;
        submission sh (robot_quad F32.lit_0_0001 (Some {| address := 0; textureID := 1 |}));
        submission sh (robot_quad F32.lit_0_0001 (Some {| address := 0; textureID := 1 |})) ].
Proof.
  destruct (Renderer.initRenderer Examples.loader_ok Examples.env_ok (Examples.blank, 0%nat))
    as [[[[] s'] t]|] eqn:Hrun; [|vm_compute in Hrun; discriminate Hrun].
  destruct (first_frame_after_initialisation Examples.loader_ok Examples.env_ok
              _ s' t {| address := 0; textureID := 1 |} Examples.frame Hrun)
    as (sh & shRed & Hs & Hr & Hframe).
  - reflexivity.
  - reflexivity.
  - vm_compute in Hrun. injection Hrun as <- _. reflexivity.
  - left. discriminate.
  - reflexivity.
  - exists s', t, sh, shRed. eexists _, _. split; [reflexivity|].
    split; [exact Hs|]. split; [exact Hr|]. split; [exact Hframe|].
    intros p d. unfold upload_events, batch_events, draw_events.
    vm_compute in Hrun. injection Hrun as <- _.
    vm_compute in Hs, Hr. injection Hs as <-. injection Hr as <-. reflexivity.
Defined.

(** ** Renderer.cpp: the input buffer *)

Section Input.
Context {AssetWorld : Type}.
Variable loadAsset : AssetWorld -> Z -> string -> shared_ptr TextureAsset * AssetWorld.

Local Abbreviation handleMotionEvent := (Renderer.handleMotionEvent loadAsset).
Local Abbreviation handleInput := (Renderer.handleInput loadAsset).
Local Abbreviation getOrLoadTexture := (Renderer.getOrLoadTexture loadAsset).

(** the loop of a move event over an array that is too short *)
Lemma for_each_reads_out_of_range {A} (l : list A) (indices : list nat)
    (s : Renderer * AssetWorld) :
  ¬ Forall (fun i => (i < length l)%nat) indices ->
  for_each indices (fun index => let+ x := deref (l !! index) in sret tt) s = None.
Proof.
  induction indices as [|i indices IH]; intros Hn; [exfalso; apply Hn; constructor|].
  cbn [for_each]. unfold sbind at 1.
  destruct (l !! i) as [x|] eqn:Hx; [|reflexivity].
  unfold sbind at 1. run.
  rewrite IH; [reflexivity|].
  intros Hall. apply Hn. constructor; [|exact Hall].
  apply lookup_lt_is_Some. eauto.
Qed.

(** an event that reads outside its pointer array *)
Lemma handleMotionEvent_out_of_range (ev : GameActivityMotionEvent)
    (s : Renderer * AssetWorld) :
  ¬ well_formed ev -> handleMotionEvent ev s = None.
Proof.
  intros Hn. unfold Renderer.handleMotionEvent.
  fold (pointer_index ev). fold (action_kind ev).
  unfold sbind at 1.
  destruct (pointers ev !! pointer_index ev) as [p|] eqn:Hp; [|reflexivity]. run.
  assert (Hidx : (pointer_index ev < length (pointers ev))%nat)
    by (apply lookup_lt_is_Some; eauto).
  destruct (Z.eqb_spec (action_kind ev) AMOTION_EVENT_ACTION_MOVE) as [E|E].
  - rewrite E. cbn [Z.eqb AMOTION_EVENT_ACTION_MOVE AMOTION_EVENT_ACTION_DOWN
                    AMOTION_EVENT_ACTION_POINTER_DOWN orb Pos.eqb].
    rewrite for_each_reads_out_of_range; [reflexivity|].
    intros Hall. apply Hn. split; [exact Hidx|].
    intros _. rewrite Forall_forall in Hall.
    destruct (Z.to_nat (pointerCount ev)) as [|n] eqn:Hcount; [lia|].
    specialize (Hall n). rewrite elem_of_seq in Hall. lia.
  - exfalso. apply Hn. split; [exact Hidx|]. intros E'. contradiction.
Qed.

Lemma handleMotionEvent_inv (ev : GameActivityMotionEvent) (s : Renderer * AssetWorld)
    (x : unit * (Renderer * AssetWorld) * Trace) :
  handleMotionEvent ev s = Some x -> well_formed ev.
Proof.
  intros Hrun.
  assert (Hdec : well_formed ev ∨ ¬ well_formed ev).
  { unfold well_formed.
    destruct (decide (pointer_index ev < length (pointers ev))%nat) as [H1|H1];
      [|right; tauto].
    destruct (decide (action_kind ev = AMOTION_EVENT_ACTION_MOVE)) as [H2|H2];
      [|left; tauto].
    destruct (decide (Z.to_nat (pointerCount ev) ≤ length (pointers ev))%nat) as [H3|H3];
      [left; tauto|right; tauto]. }
  destruct Hdec as [H|H]; [exact H|].
  rewrite (handleMotionEvent_out_of_range ev s H) in Hrun. discriminate Hrun.
Qed.

Lemma motionEvents_inv (evs : list GameActivityMotionEvent) :
  ∀ (s : Renderer * AssetWorld) x,
    for_each evs handleMotionEvent s = Some x -> Forall well_formed evs.
Proof.
  induction evs as [|ev evs IH]; intros s x Hrun; [constructor|].
  cbn [for_each] in Hrun.
  apply sbind_returns in Hrun as ([] & s1 & t1 & y & Hev & Hrest).
  constructor; [exact (handleMotionEvent_inv _ _ _ Hev)|exact (IH _ _ Hrest)].
Qed.

(** a buffer on which [handleInput] returns *)
Lemma handleInput_inv (buffer : android_input_buffer) (s : Renderer * AssetWorld)
    (x : unit * (Renderer * AssetWorld) * Trace) :
  handleInput (Some buffer) s = Some x -> Forall well_formed (motionEvents buffer).
Proof.
  intros Hrun. unfold Renderer.handleInput in Hrun.
  apply sbind_returns in Hrun as ([] & s1 & t1 & y & Hevs & _).
  exact (motionEvents_inv _ _ _ Hevs).
Qed.

(** X12: [handleInput] on a buffer returns exactly when every motion event
    reads inside its pointer array: the pointer index taken from the
    action word is below the length of the array, whatever the kind of
    the event (the pointer is read before the kind is looked at), and
    for a move the pointer count does not exceed it.  There is no check
    in the code; any other buffer makes it read out of range. *)
Theorem handleInput_returns_iff (buffer : android_input_buffer)
    (s : Renderer * AssetWorld) :
  is_Some (handleInput (Some buffer) s) ↔ Forall well_formed (motionEvents buffer).
Proof.
  split.
  - intros [x Hrun]. exact (handleInput_inv buffer s x Hrun).
  - intros Hwf.
    destruct (motionEvents_run loadAsset (motionEvents buffer) Hwf s)
      as (s' & t & new & Hrun & _).
    rewrite (handleInput_events loadAsset buffer s s' t Hrun). eauto.
Qed.

(** X13: motion events that are no pointer-down (up, cancel, move and
    unknown kinds) and key events do nothing: a well-formed buffer
    without pointer-down leaves the renderer and the asset store as they
    are, and the only events are the two calls that hand the buffer
    back. *)
Theorem handleInput_without_pointer_down (buffer : android_input_buffer)
    (s : Renderer * AssetWorld) :
  Forall well_formed (motionEvents buffer) ->
  Forall (fun ev => is_down ev = false) (motionEvents buffer) ->
  handleInput (Some buffer) s = Some (tt, s, [ClearMotionEvents; ClearKeyEvents]).
Proof.
  intros Hwf Hup.
  assert (Hrun : for_each (motionEvents buffer) handleMotionEvent s = Some (tt, s, [])).
  { induction Hwf as [|ev evs Hev _ IH]; [reflexivity|].
    apply Forall_cons in Hup as [Hd Hup].
    exact (for_each_cons ev evs _ s s s [] []
             (handleMotionEvent_other loadAsset ev s Hev Hd) (IH Hup)). }
  exact (handleInput_events loadAsset buffer s s [] Hrun).
Qed.

(** a pointer-down without asset manager and without cached texture *)
Lemma handleMotionEvent_down_no_manager (ev : GameActivityMotionEvent) (r : Renderer)
    (w : AssetWorld) :
  well_formed ev -> is_down ev = true ->
  Renderer.availableAssetManager r = None ->
  textureCache_ r !! "android_robot.png" = None ->
  handleMotionEvent ev (r, w) = Some (tt, (set_counter r (bump (counter r)), w), []).
Proof.
  intros [Hidx _] Hd Hm Hc. unfold Renderer.handleMotionEvent.
  fold (pointer_index ev). fold (action_kind ev).
  destruct (lookup_lt_is_Some_2 _ _ Hidx) as [p Hp].
  unfold sbind at 1. rewrite Hp. run.
  unfold is_down in Hd. rewrite Hd.
  unfold sbind at 1, get at 1. run. unfold sbind at 1.
  unfold Renderer.drawRobotInPosition. unfold sbind at 1.
  rewrite (getOrLoadTexture_no_manager loadAsset _ _ _ Hc Hm). reflexivity.
Qed.

(** X14: without asset manager and without the robot texture in the cache,
    input creates no model and never calls the loader, and yet every
    pointer-down advances the depth counter: the renderer changes in its
    counter only. *)
Theorem handleInput_without_asset_manager (buffer : android_input_buffer) (r : Renderer)
    (w : AssetWorld) :
  Renderer.availableAssetManager r = None ->
  textureCache_ r !! "android_robot.png" = None ->
  Forall well_formed (motionEvents buffer) ->
  handleInput (Some buffer) (r, w) =
    Some (tt, (set_counter r (Nat.iter (downs (motionEvents buffer)) bump (counter r)), w),
          [ClearMotionEvents; ClearKeyEvents]).
Proof.
  intros Hm Hc Hwf.
  assert (Hrun : ∀ c,
            for_each (motionEvents buffer) handleMotionEvent (set_counter r c, w) =
            Some (tt, (set_counter r (Nat.iter (downs (motionEvents buffer)) bump c), w), [])).
  { induction Hwf as [|ev evs Hev _ IH]; intros c; [reflexivity|].
    cbn [downs]. destruct (is_down ev) eqn:Hd.
    - rewrite Nat.iter_succ_r.
      exact (for_each_cons ev evs _ _ _ _ [] []
               (handleMotionEvent_down_no_manager ev (set_counter r c) w Hev Hd Hm Hc)
               (IH (bump c))).
    - exact (for_each_cons ev evs _ _ _ _ [] []
               (handleMotionEvent_other loadAsset ev _ Hev Hd) (IH c)). }
  assert (Heta : set_counter r (counter r) = r) by (destruct r; reflexivity).
  specialize (Hrun (counter r)). rewrite Heta in Hrun.
  exact (handleInput_events loadAsset buffer _ _ [] Hrun).
Qed.

End Input.

(** X15: the two masks and the shift of [handleInput] take an action word
    apart: for a kind and a pointer index below 256, the word [kind |
    index << 8] yields the kind under the action mask and the index
    under the index mask and shift. *)
Theorem action_word_decoding (kind index : Z) :
  0 <= kind < 256 -> 0 <= index < 256 ->
  ∀ (count : Z) (ps : list GameActivityPointerAxes),
    let ev := {| action := Z.lor kind (Z.shiftl index 8);
                 pointerCount := count; pointers := ps |} in
    action_kind ev = kind ∧ pointer_index ev = Z.to_nat index.
Proof.
  intros Hk Hi count ps ev. unfold action_kind, pointer_index, ev. cbn [action].
  change AMOTION_EVENT_ACTION_MASK with (Z.ones 8).
  change AMOTION_EVENT_ACTION_POINTER_INDEX_MASK with (Z.shiftl (Z.ones 8) 8).
  change AMOTION_EVENT_ACTION_POINTER_INDEX_SHIFT with 8.
  assert (Hkind : Z.land kind (Z.ones 8) = kind).
  { rewrite Z.land_ones by lia. apply Z.mod_small. change (2 ^ 8) with 256. lia. }
  assert (Hkhigh : Z.shiftr kind 8 = 0).
  { rewrite Z.shiftr_div_pow2 by lia. apply Z.div_small. change (2 ^ 8) with 256. lia. }
  assert (Hindex : Z.land index (Z.ones 8) = index).
  { rewrite Z.land_ones by lia. apply Z.mod_small. change (2 ^ 8) with 256. lia. }
  split.
  - rewrite Z.land_lor_distr_l, Hkind.
    assert (Hlow : Z.land (Z.shiftl index 8) (Z.ones 8) = 0).
    { rewrite Z.land_ones by lia. rewrite Z.shiftl_mul_pow2 by lia.
      apply Z.mod_mul. discriminate. }
    rewrite Hlow. apply Z.lor_0_r.
  - f_equal. rewrite Z.shiftr_land, Z.shiftr_lor, Hkhigh, Z.lor_0_l.
    rewrite !Z.shiftr_shiftl_l by lia. change (8 - 8) with 0.
    rewrite !Z.shiftl_0_r. exact Hindex.
Qed.

(** X13 on a move, a release and two key events. *)
Lemma handleInput_without_pointer_down_witness :
  Renderer.handleInput Examples.loader_ok (Some Scenarios.drag) (Examples.running, 1%nat)
  = Some (tt, (Examples.running, 1%nat), [ClearMotionEvents; ClearKeyEvents]).
Proof.
  apply handleInput_without_pointer_down.
  - repeat (constructor; [split; [vm_compute; lia|intros _; vm_compute; lia]|]).
    constructor.
  - repeat (constructor; [reflexivity|]). constructor.
Defined.

(** X14 for two taps on a renderer detached from its application. *)
Lemma handleInput_without_asset_manager_witness :
  ∃ c : float,
    Renderer.handleInput Examples.loader_ok (Some Examples.two_taps)
      (Scenarios.detached, 1%nat)
    = Some (tt, (set_counter Scenarios.detached c, 1%nat),
            [ClearMotionEvents; ClearKeyEvents]).
Proof.
  eexists.
  apply (handleInput_without_asset_manager Examples.loader_ok Examples.two_taps
           Scenarios.detached 1%nat).
  - reflexivity.
  - reflexivity.
  - repeat (constructor; [split; [vm_compute; lia|intros _; vm_compute; lia]|]).
    constructor.
Defined.

(** X15 on the word 261 = 0x105: pointer-down of pointer 1. *)
Lemma action_word_decoding_witness :
  let ev := {| action := 261; pointerCount := 2; pointers := [] |} in
  action_kind ev = AMOTION_EVENT_ACTION_POINTER_DOWN ∧ pointer_index ev = 1%nat.
Proof.
  exact (action_word_decoding 5 1 ltac:(lia) ltac:(lia) 2 []).
Defined.

(** ** Renderer.cpp: what input handling can touch *)

Lemma same_setup_fields (r r' : Renderer) :
  same_setup r r' ↔
  app_ r' = app_ r ∧ display_ r' = display_ r ∧ surface_ r' = surface_ r ∧
  context_ r' = context_ r ∧ width_ r' = width_ r ∧ height_ r' = height_ r ∧
  shaderNeedsNewProjectionMatrix_ r' = shaderNeedsNewProjectionMatrix_ r ∧
  shader_ r' = shader_ r ∧ shaderRed_ r' = shaderRed_ r ∧ modelsRed_ r' = modelsRed_ r.
Proof.
  unfold same_setup. split.
  - intros ->. repeat split.
  - intros H. destruct r, r'. cbn in *.
    destruct H as (-> & -> & -> & -> & -> & -> & -> & -> & -> & ->). reflexivity.
Qed.

Lemma input_effect_refl (r : Renderer) : input_effect r r [].
Proof.
  split; [apply same_setup_fields; repeat split|].
  split; [exists []; rewrite app_nil_r; reflexivity|].
  repeat split; auto.
Qed.

Lemma input_effect_trans (r r1 r2 : Renderer) (t1 t2 : Trace) :
  input_effect r r1 t1 -> input_effect r1 r2 t2 -> input_effect r r2 (t1 ++ t2).
Proof.
  intros (Hs1 & [n1 Hm1] & Hk1 & Ho1 & Hc1 & Ht1) (Hs2 & [n2 Hm2] & Hk2 & Ho2 & Hc2 & Ht2).
  split.
  { apply same_setup_fields. apply same_setup_fields in Hs1, Hs2.
    destruct Hs1 as (? & ? & ? & ? & ? & ? & ? & ? & ? & ?).
    destruct Hs2 as (? & ? & ? & ? & ? & ? & ? & ? & ? & ?).
    repeat split; congruence. }
  split; [exists (n1 ++ n2); rewrite Hm2, Hm1, app_assoc; reflexivity|].
  split; [auto|]. split; [intros key Hk; rewrite Ho2, Ho1 by exact Hk; reflexivity|].
  split; [auto|]. apply Forall_app. split; assumption.
Qed.

Section InputEffect.
Context {AssetWorld : Type}.
Variable loadAsset : AssetWorld -> Z -> string -> shared_ptr TextureAsset * AssetWorld.

Local Abbreviation handleMotionEvent := (Renderer.handleMotionEvent loadAsset).
Local Abbreviation handleInput := (Renderer.handleInput loadAsset).
Local Abbreviation getOrLoadTexture := (Renderer.getOrLoadTexture loadAsset).

Lemma set_textureCache_same (r : Renderer) : set_textureCache r (textureCache_ r) = r.
Proof. destruct r; reflexivity. Qed.

(** one request for the robot image *)
Lemma getOrLoadTexture_effect (r r' : Renderer) (w w' : AssetWorld)
    (h : shared_ptr TextureAsset) (t : Trace) :
  getOrLoadTexture "android_robot.png" (r, w) = Some (h, (r', w'), t) ->
  input_effect r r' t.
Proof.
  intros Hrun.
  destruct (textureCache_ r !! "android_robot.png") as [cached|] eqn:Hc.
  { rewrite (getOrLoadTexture_hit loadAsset _ _ _ _ Hc) in Hrun.
    injection Hrun as <- <- <- <-. apply input_effect_refl. }
  destruct (Renderer.availableAssetManager r) as [manager|] eqn:Hm.
  2:{ rewrite (getOrLoadTexture_no_manager loadAsset _ _ _ Hc Hm) in Hrun.
      injection Hrun as <- <- <- <-. apply input_effect_refl. }
  destruct (loadAsset w manager "android_robot.png") as [[texture|] w1] eqn:Hl.
  - rewrite (getOrLoadTexture_loaded loadAsset _ _ _ _ _ _ Hc Hm Hl) in Hrun.
    injection Hrun as <- <- <- <-.
    split; [apply same_setup_fields; repeat split|].
    split; [exists []; rewrite app_nil_r; reflexivity|].
    cbn [textureCache_ set_textureCache].
    split.
    { intros key v Hv. rewrite lookup_insert_ne; [exact Hv|]. intros <-.
      pose proof (eq_trans (eq_sym Hv) Hc) as E. discriminate E. }
    split; [intros key Hk; apply lookup_insert_ne; congruence|].
    split.
    { intros Hsound key. unfold cache_sound in Hsound.
      cbn [textureCache_ set_textureCache].
      destruct (decide ("android_robot.png" = key)) as [<-|Hne].
      - rewrite lookup_insert_eq. discriminate.
      - rewrite lookup_insert_ne by exact Hne. apply Hsound. }
    constructor; [right; right; eauto|constructor].
  - rewrite (getOrLoadTexture_failed loadAsset _ _ _ _ _ Hc Hm Hl) in Hrun.
    injection Hrun as <- <- <- <-.
    destruct (input_effect_refl r) as (H1 & H2 & H3 & H4 & H5 & _).
    repeat (split; [assumption|]).
    constructor; [right; right; eauto|constructor].
Qed.

Lemma input_effect_models (r : Renderer) (ms : list Model) :
  input_effect r (set_models r (models_ r ++ ms)) [].
Proof.
  split; [apply same_setup_fields; repeat split|].
  split; [exists ms; reflexivity|]. repeat split; auto.
Qed.

Lemma input_effect_counter (r : Renderer) (c : float) :
  input_effect r (set_counter r c) [].
Proof.
  split; [apply same_setup_fields; repeat split|].
  split; [exists []; rewrite app_nil_r; reflexivity|]. repeat split; auto.
Qed.

Lemma handleMotionEvent_effect (ev : GameActivityMotionEvent)
    (s s' : Renderer * AssetWorld) (t : Trace) :
  handleMotionEvent ev s = Some (tt, s', t) -> input_effect (fst s) (fst s') t.
Proof.
  intros Hrun. pose proof (handleMotionEvent_inv loadAsset _ _ _ Hrun) as Hwf.
  destruct (is_down ev) eqn:Hd.
  2:{ rewrite (handleMotionEvent_other loadAsset ev s Hwf Hd) in Hrun.
      injection Hrun as <- <-. apply input_effect_refl. }
  revert Hrun. destruct Hwf as [Hidx _]. unfold Renderer.handleMotionEvent.
  fold (pointer_index ev). fold (action_kind ev).
  destruct (lookup_lt_is_Some_2 _ _ Hidx) as [p Hp].
  unfold sbind at 1. rewrite Hp. run.
  unfold is_down in Hd. rewrite Hd.
  unfold sbind at 1, get at 1. run. unfold sbind at 1.
  match goal with
  | |- context [Renderer.drawRobotInPosition loadAsset ?x ?y ?z s] =>
      destruct (drawRobotInPosition_run loadAsset x y z s)
        as (h & r' & w' & t' & Hfetch & Hdraw & _); rewrite Hdraw
  end.
  run. intros [= <- <-]. destruct s as [r w]. cbn [fst] in *.
  pose proof (getOrLoadTexture_effect _ _ _ _ _ _ Hfetch) as Heff.
  eapply (input_effect_trans r _ _ t' []); [|apply input_effect_counter].
  rewrite <- (app_nil_r t').
  apply (input_effect_trans r r' _ t' []); [exact Heff|].
  destruct h; [apply input_effect_models|apply input_effect_refl].
Qed.

Lemma motionEvents_effect (evs : list GameActivityMotionEvent) :
  ∀ (s s' : Renderer * AssetWorld) (t : Trace),
    for_each evs handleMotionEvent s = Some (tt, s', t) ->
    input_effect (fst s) (fst s') t.
Proof.
  induction evs as [|ev evs IH]; intros s s' t Hrun.
  { injection Hrun as <- <-. apply input_effect_refl. }
  cbn [for_each] in Hrun.
  apply sbind_inv in Hrun as ([] & s1 & t1 & t2 & Hev & Hrest).
  destruct (for_each evs handleMotionEvent s1) as [[[[] s2] t2']|] eqn:Hevs;
    [|contradiction].
  destruct Hrest as [[= -> ->] _].
  eapply input_effect_trans; [exact (handleMotionEvent_effect _ _ _ _ Hev)|].
  exact (IH _ _ _ Hevs).
Qed.

(** what input handling can do *)
Lemma handleInput_effect (inputBuffer : option android_input_buffer)
    (s s' : Renderer * AssetWorld) (t : Trace) :
  handleInput inputBuffer s = Some (tt, s', t) ->
  input_effect (fst s) (fst s') t.
Proof.
  intros Hrun. destruct inputBuffer as [buffer|].
  2:{ injection Hrun as <- <-. apply input_effect_refl. }
  pose proof (handleInput_inv loadAsset buffer s _ Hrun) as Hwf.
  destruct (motionEvents_run loadAsset (motionEvents buffer) Hwf s)
    as (s1 & t1 & new & Hevs & _).
  rewrite (handleInput_events loadAsset buffer s s1 t1 Hevs) in Hrun.
  injection Hrun as <- <-.
  eapply input_effect_trans; [exact (motionEvents_effect _ _ _ _ Hevs)|].
  destruct (input_effect_refl (fst s1)) as (H1 & H2 & H3 & H4 & H5 & _).
  repeat (split; [assumption|]).
  constructor; [left; reflexivity|]. constructor; [right; left; reflexivity|constructor].
Qed.

End InputEffect.

(** ** Renderer.cpp: the cache and the quads of [createModels]; the GL state after a frame *)

Section Cache.
Context {AssetWorld : Type}.
Variable loadAsset : AssetWorld -> Z -> string -> shared_ptr TextureAsset * AssetWorld.

Local Abbreviation getOrLoadTexture := (Renderer.getOrLoadTexture loadAsset).
Local Abbreviation createModels := (Renderer.createModels loadAsset).

(** X16: on a cache without null handle, what a request returns is what
    the cache holds under the key afterwards: the texture returned is
    the entry of the key, and a null result means that the key has no
    entry.  The cache is still without null handle, and the entries of
    all other keys are as before. *)
Theorem getOrLoadTexture_returns_what_the_cache_holds (key : string) (r r' : Renderer)
    (w w' : AssetWorld) (h : shared_ptr TextureAsset) (t : Trace) :
  cache_sound r ->
  getOrLoadTexture key (r, w) = Some (h, (r', w'), t) ->
  textureCache_ r' !! key
    = match h with Some texture => Some (Some texture) | None => None end ∧
  cache_sound r' ∧
  ∀ other, other ≠ key -> textureCache_ r' !! other = textureCache_ r !! other.
Proof.
  intros Hsound Hrun.
  destruct (textureCache_ r !! key) as [cached|] eqn:Hc.
  { rewrite (getOrLoadTexture_hit loadAsset _ _ _ _ Hc) in Hrun.
    injection Hrun as <- <- _ _.
    split; [|split; [exact Hsound|reflexivity]].
    destruct cached as [texture|]; [exact Hc|]. destruct (Hsound key Hc). }
  destruct (Renderer.availableAssetManager r) as [manager|] eqn:Hm.
  2:{ rewrite (getOrLoadTexture_no_manager loadAsset _ _ _ Hc Hm) in Hrun.
      injection Hrun as <- <- _ _. split; [exact Hc|]. split; [exact Hsound|reflexivity]. }
  destruct (loadAsset w manager key) as [[texture|] w1] eqn:Hl.
  - rewrite (getOrLoadTexture_loaded loadAsset _ _ _ _ _ _ Hc Hm Hl) in Hrun.
    injection Hrun as <- <- _ _. cbn [textureCache_ set_textureCache].
    split; [apply lookup_insert_eq|]. split.
    + intros k. cbn [textureCache_ set_textureCache].
      destruct (decide (key = k)) as [<-|Hne].
      * rewrite lookup_insert_eq. discriminate.
      * rewrite lookup_insert_ne by exact Hne. apply Hsound.
    + intros other Hne. apply lookup_insert_ne. congruence.
  - rewrite (getOrLoadTexture_failed loadAsset _ _ _ _ _ Hc Hm Hl) in Hrun.
    injection Hrun as <- <- _ _. split; [exact Hc|]. split; [exact Hsound|reflexivity].
Qed.

(** X17: when the fetch of the robot texture succeeds, [createModels]
    appends the unit quad twice: two models with the same vertices at
    the depth of the counter, the same indices and the same texture
    (the second [emplace_back] is not guarded). *)
Theorem createModels_appends_the_textured_quad_twice (s : Renderer * AssetWorld)
    (texture : TextureAsset) (r' : Renderer) (w' : AssetWorld) (t : Trace) :
  getOrLoadTexture "android_robot.png" s = Some (Some texture, (r', w'), t) ->
  let quad := robot_quad (counter (fst s)) (Some texture) in
  createModels s = Some (tt, (set_models r' (models_ r' ++ [quad; quad]), w'), t) ∧
  models_ r' = models_ (fst s).
Proof.
  intros Hfetch quad. split.
  - exact (createModels_run loadAsset s (Some texture) r' w' t Hfetch).
  - destruct (getOrLoadTexture_step loadAsset "android_robot.png" s)
      as (h' & s' & t' & Hstep & _ & _ & _ & _ & Hm & _).
    rewrite Hfetch in Hstep. injection Hstep as <- <- <-. exact Hm.
Qed.

End Cache.

(** *** What a frame leaves of the GL state *)

Lemma enabled_draw_events (s : Shader) (m : Model) :
  fold_left enable_step (draw_events s m) ∅ = ∅.
Proof.
  unfold draw_events.
  destruct (uv_ s =? -1); cbn [app fold_left enable_step];
    apply set_eq; intros x;
    rewrite !elem_of_difference, !elem_of_union, !elem_of_singleton, elem_of_empty; tauto.
Qed.

Lemma enabled_draws (s : Shader) (ms : list Model) (t : Trace) :
  fold_left enable_step (flat_map (draw_events s) ms ++ t) ∅ = fold_left enable_step t ∅.
Proof.
  induction ms as [|m ms IH]; [reflexivity|].
  cbn [flat_map]. rewrite <- app_assoc, fold_left_app, enabled_draw_events. exact IH.
Qed.

Lemma enabled_batch (s : option Shader) (ms : list Model) (t : Trace) :
  fold_left enable_step (batch_trace s ms ++ t) ∅ = fold_left enable_step t ∅.
Proof.
  destruct s as [sh|]; [|reflexivity]. destruct ms as [|m ms]; [reflexivity|].
  unfold batch_trace, batch_events. cbn [from_option app fold_left enable_step].
  rewrite <- app_assoc, enabled_draws. reflexivity.
Qed.

Lemma in_use_batch (s : option Shader) (ms : list Model) (t : Trace) :
  fold_left use_step (batch_trace s ms ++ t) 0 = fold_left use_step t 0.
Proof.
  destruct s as [sh|]; [|reflexivity]. destruct ms as [|m ms]; [reflexivity|].
  unfold batch_trace, batch_events. cbn [from_option app fold_left].
  rewrite <- app_assoc, fold_left_app. reflexivity.
Qed.

(** X18: a frame that returns leaves no vertex attribute array enabled and
    no program in use: every array [drawModel] enables it disables
    again, and every activation of a program is followed by its
    deactivation. *)
Theorem render_restores_arrays_and_program (f : Frame) (r r' : Renderer) (t : Trace) :
  Renderer.render f r = Some (tt, r', t) ->
  enabled_arrays t = ∅ ∧ program_in_use t = 0.
Proof.
  intros Hrun. pose proof (render_inv f r _ Hrun) as Hdef.
  rewrite (render_run f r Hdef) in Hrun. injection Hrun as _ <-.
  unfold enabled_arrays, program_in_use, frame_events. split.
  - rewrite fold_left_app.
    assert (H1 : fold_left enable_step
                   (if resized r (query_width f) (query_height f)
                    then [Viewport 0 0 (query_width f) (query_height f)] else []) ∅ = ∅)
      by (destruct (resized _ _ _); reflexivity).
    rewrite H1, fold_left_app.
    match goal with
    | |- context [fold_left enable_step (if ?b then ?x else []) ∅] =>
        assert (H2 : fold_left enable_step (if b then x else []) ∅ = ∅)
    end.
    { destruct (_ || _); [|reflexivity].
      destruct (shader_ r), (shaderRed_ r); reflexivity. }
    rewrite H2. cbn [app fold_left enable_step].
    rewrite enabled_batch, enabled_batch. reflexivity.
  - rewrite fold_left_app.
    assert (H1 : fold_left use_step
                   (if resized r (query_width f) (query_height f)
                    then [Viewport 0 0 (query_width f) (query_height f)] else []) 0 = 0)
      by (destruct (resized _ _ _); reflexivity).
    rewrite H1, fold_left_app.
    match goal with
    | |- context [fold_left use_step (if ?b then ?x else []) 0] =>
        assert (H2 : fold_left use_step (if b then x else []) 0 = 0)
    end.
    { destruct (_ || _); [|reflexivity].
      destruct (shader_ r), (shaderRed_ r); reflexivity. }
    rewrite H2. cbn [app fold_left use_step].
    rewrite in_use_batch, in_use_batch. reflexivity.
Qed.

(** X16 for the first request on the blank renderer. *)
Lemma getOrLoadTexture_returns_what_the_cache_holds_witness :
  ∃ r' w' t,
    Renderer.getOrLoadTexture Examples.loader_ok "android_robot.png" (Examples.blank, 0%nat)
      = Some (Some {| address := 0; textureID := 1 |}, (r', w'), t) ∧
    textureCache_ r' !! "android_robot.png" = Some (Some {| address := 0; textureID := 1 |}) ∧
    cache_sound r'.
Proof.
  eexists _, _, _. split; [reflexivity|].
  destruct (getOrLoadTexture_returns_what_the_cache_holds Examples.loader_ok
              "android_robot.png" Examples.blank _ 0%nat _ _ _
              ltac:(intros key; cbn; rewrite lookup_empty; discriminate) eq_refl)
    as (H1 & H2 & _).
  split; [exact H1|exact H2].
Defined.

(** X17 on the blank renderer, with a loader that succeeds. *)
Lemma createModels_appends_the_textured_quad_twice_witness :
  ∃ s' t,
    Renderer.createModels Examples.loader_ok (Examples.blank, 0%nat) = Some (tt, s', t) ∧
    models_ (fst s') =
      [ robot_quad F32.zero (Some {| address := 0; textureID := 1 |});
        robot_quad F32.zero (Some {| address := 0; textureID := 1 |}) ].
Proof.
  destruct (createModels_appends_the_textured_quad_twice Examples.loader_ok
              (Examples.blank, 0%nat) {| address := 0; textureID := 1 |} _ _ _ eq_refl)
    as [Hrun _].
  eexists _, _. split; [exact Hrun|]. reflexivity.
Defined.

(** X18 on the first frame after initialisation. *)
Lemma render_restores_arrays_and_program_witness :
  ∃ r' t,
    Renderer.render Examples.frame Examples.ready = Some (tt, r', t) ∧
    enabled_arrays t = ∅ ∧ program_in_use t = 0.
Proof.
  destruct (Renderer.render Examples.frame Examples.ready) as [[[[] r'] t]|] eqn:Hrun;
    [|vm_compute in Hrun; discriminate Hrun].
  exists r', t. split; [reflexivity|].
  exact (render_restores_arrays_and_program Examples.frame Examples.ready r' t Hrun).
Defined.

(** ** Renderer.cpp: the EGL configuration, the corners of the surface, a surface without height *)

(** X19: the configuration [initRenderer] picks is the first one, in the
    order of [eglChooseConfig], whose four queries succeed and report
    exactly 8 red, 8 green, 8 blue and 24 depth bits; configurations
    with a failing query or with other sizes (more bits included) are
    passed over.  When there is none, and so when the list is empty,
    the end of the array is dereferenced. *)
Theorem chooseConfig_takes_the_first_exact_match (supportedConfigs : list EGLConfig) :
  match chooseConfig supportedConfigs with
  | Some config =>
      ∃ before after,
        supportedConfigs = before ++ config :: after ∧
        Forall (fun c => acceptable c = false) before ∧
        eglGetConfigAttrib config EGL_RED_SIZE = Some 8 ∧
        eglGetConfigAttrib config EGL_GREEN_SIZE = Some 8 ∧
        eglGetConfigAttrib config EGL_BLUE_SIZE = Some 8 ∧
        eglGetConfigAttrib config EGL_DEPTH_SIZE = Some 24
  | None => Forall (fun c => acceptable c = false) supportedConfigs
  end.
Proof.
  induction supportedConfigs as [|c cs IH]; [constructor|].
  cbn [chooseConfig]. destruct (acceptable c) eqn:Hc.
  - exists [], cs. split; [reflexivity|]. split; [constructor|].
    unfold acceptable in Hc.
    destruct (eglGetConfigAttrib c EGL_RED_SIZE) as [red|]; [|discriminate].
    destruct (eglGetConfigAttrib c EGL_GREEN_SIZE) as [green|]; [|discriminate].
    destruct (eglGetConfigAttrib c EGL_BLUE_SIZE) as [blue|]; [|discriminate].
    destruct (eglGetConfigAttrib c EGL_DEPTH_SIZE) as [depth|]; [|discriminate].
    apply andb_true_iff in Hc as [Hc Hd]. apply andb_true_iff in Hc as [Hc Hb].
    apply andb_true_iff in Hc as [Hr Hg].
    apply Z.eqb_eq in Hr, Hg, Hb, Hd. subst. repeat split.
  - destruct (chooseConfig cs) as [config|].
    + destruct IH as (before & after & -> & Hall & Hattr).
      exists (c :: before), after. split; [reflexivity|].
      split; [constructor; assumption|exact Hattr].
    + constructor; assumption.
Qed.

(** *** The far corner of the surface *)

Lemma far_y_exact (m : positive) (j : nat) :
  Zpos (digits2_pos m) = 24 -> (j <= 23)%nat ->
  let h := S754_finite false m (- Z.of_nat j) in
  F32.add (F32.div (F32.mul (F32.opp F32.four) h) h) F32.two = F32.opp F32.two.
Proof.
  intros Hd Hj h. unfold h.
  unfold F32.opp, F32.four, SFopp. cbn [negb].
  rewrite (mul_exact true false 8388608 m m (-21) (- Z.of_nat j) 23);
    [| change (2 ^ Z.of_nat 23) with 8388608; lia | assumption | cbn [Z.of_nat]; lia].
  rewrite (div_exact true false m m 8388608 _ (- Z.of_nat j) 1);
    [| assumption | assumption
     | change (2 ^ 24) with 16777216; change (2 ^ Z.of_nat 1) with 2; lia
     | reflexivity | cbn [Z.of_nat]; lia | cbn [Z.of_nat]; lia].
  replace (-21 + - Z.of_nat j + Z.of_nat 23 - - Z.of_nat j - 24 + Z.of_nat 1)
    with (-21) by (cbn [Z.of_nat]; lia).
  reflexivity.
Qed.

Lemma far_x_exact (m m8 : positive) (j : nat) :
  Zpos (digits2_pos m) = 24 -> (j <= 23)%nat -> Zpos m = 8 * Zpos m8 ->
  let w := S754_finite false m (- Z.of_nat j) in
  F32.sub (F32.div (F32.mul F32.lit_2_5 w) w) F32.lit_1_25 = F32.lit_1_25.
Proof.
  intros Hd Hj H8 w. unfold w.
  pose proof (digits2_pos_bounds m) as Hb. rewrite Hd in Hb.
  change (2 ^ (24 - 1)) with 8388608 in Hb. change (2 ^ 24) with 16777216 in Hb.
  unfold F32.lit_2_5.
  destruct (Z.lt_ge_cases (5 * Zpos m8) 8388608) as [Hsmall | Hlarge].
  - rewrite (mul_exact false false 10485760 m (10 * m8) (-22) (- Z.of_nat j) 23);
      [| change (2 ^ Z.of_nat 23) with 8388608; lia
       | apply digits2_pos_unique; change (2 ^ (24 - 1)) with 8388608;
         change (2 ^ 24) with 16777216; lia
       | cbn [Z.of_nat]; lia].
    rewrite (div_exact false false (10 * m8) m 10485760 _ (- Z.of_nat j) 1);
      [| apply digits2_pos_unique; change (2 ^ (24 - 1)) with 8388608;
         change (2 ^ 24) with 16777216; lia
       | assumption
       | change (2 ^ 24) with 16777216; change (2 ^ Z.of_nat 1) with 2; lia
       | reflexivity | cbn [Z.of_nat]; lia | cbn [Z.of_nat]; lia].
    replace (-22 + - Z.of_nat j + Z.of_nat 23 - - Z.of_nat j - 24 + Z.of_nat 1)
      with (-22) by (cbn [Z.of_nat]; lia).
    reflexivity.
  - rewrite (mul_exact false false 10485760 m (5 * m8) (-22) (- Z.of_nat j) 24);
      [| change (2 ^ Z.of_nat 24) with 16777216; lia
       | apply digits2_pos_unique; change (2 ^ (24 - 1)) with 8388608;
         change (2 ^ 24) with 16777216; lia
       | cbn [Z.of_nat]; lia].
    rewrite (div_exact false false (5 * m8) m 10485760 _ (- Z.of_nat j) 0);
      [| apply digits2_pos_unique; change (2 ^ (24 - 1)) with 8388608;
         change (2 ^ 24) with 16777216; lia
       | assumption
       | change (2 ^ 24) with 16777216; change (2 ^ Z.of_nat 0) with 1; lia
       | reflexivity | cbn [Z.of_nat]; lia | cbn [Z.of_nat]; lia].
    replace (-22 + - Z.of_nat j + Z.of_nat 24 - - Z.of_nat j - 24 + Z.of_nat 0)
      with (-22) by (cbn [Z.of_nat]; lia).
    reflexivity.
Qed.

Lemma far_x (W : Z) :
  0 < W < 2 ^ 21 ->
  F32.sub (F32.div (F32.mul F32.lit_2_5 (F32.of_int W)) (F32.of_int W)) F32.lit_1_25
  = F32.lit_1_25.
Proof.
  intros HW. change (2 ^ 21) with 2097152 in HW.
  destruct (of_int_exact W) as (m & j & -> & Hd & Hm & Hj);
    [change (2 ^ 24) with 16777216; lia|].
  pose proof (digits2_pos_bounds m) as Hb. rewrite Hd in Hb.
  change (2 ^ (24 - 1)) with 8388608 in Hb. change (2 ^ 24) with 16777216 in Hb.
  assert (3 <= j)%nat.
  { destruct (Nat.lt_ge_cases j 3) as [Hlt|]; [|assumption]. exfalso.
    assert (2 ^ Z.of_nat j <= 2 ^ 2) by (apply Z.pow_le_mono_r; lia).
    change (2 ^ 2) with 4 in *. nia. }
  assert (Hm8 : exists m8 : positive, Zpos m = 8 * Zpos m8).
  { exists (Z.to_pos (W * 2 ^ Z.of_nat (j - 3))).
    assert (0 < 2 ^ Z.of_nat (j - 3)) by (apply Z.pow_pos_nonneg; lia).
    rewrite Z2Pos.id by nia. rewrite Hm.
    replace (Z.of_nat j) with (3 + Z.of_nat (j - 3)) by lia.
    rewrite Z.pow_add_r by lia. change (2 ^ 3) with 8. lia. }
  destruct Hm8 as [m8 H8]. exact (far_x_exact m m8 j Hd Hj H8).
Qed.

Lemma far_y (H : Z) :
  0 < H < 2 ^ 24 ->
  F32.add (F32.div (F32.mul (F32.opp F32.four) (F32.of_int H)) (F32.of_int H)) F32.two
  = F32.opp F32.two.
Proof.
  intros HH. destruct (of_int_exact H HH) as (m & j & -> & Hd & _ & Hj).
  exact (far_y_exact m j Hd Hj).
Qed.

(** a pointer-down whose texture is cached, at the position the mapping
    gives *)
Lemma handleMotionEvent_down_at {AssetWorld : Type}
    (loadAsset : AssetWorld -> Z -> string -> shared_ptr TextureAsset * AssetWorld)
    (r : Renderer) (w : AssetWorld) (texture : TextureAsset)
    (ev : GameActivityMotionEvent) (pointer : GameActivityPointerAxes) (x y : float) :
  textureCache_ r !! "android_robot.png" = Some (Some texture) ->
  is_down ev = true ->
  pointers ev !! pointer_index ev = Some pointer ->
  F32.sub (F32.div (F32.mul F32.lit_2_5 (axis_x pointer)) (F32.of_int (width_ r)))
          F32.lit_1_25 = x ->
  F32.add (F32.div (F32.mul (F32.opp F32.four) (axis_y pointer)) (F32.of_int (height_ r)))
          F32.two = y ->
  Renderer.handleMotionEvent loadAsset ev (r, w) =
    Some (tt,
          (set_counter (set_models r (models_ r ++ [robot x y (counter r) texture]))
                       (bump (counter r)), w),
          []).
Proof.
  intros Hcache Hdown Hptr Hx Hy.
  assert (Hrun :
    Renderer.drawRobotInPosition loadAsset x y (counter r) (r, w)
    = Some (tt, (set_models r (models_ r ++ [robot x y (counter r) texture]), w), [])).
  { unfold Renderer.drawRobotInPosition. unfold sbind.
    rewrite (getOrLoadTexture_hit loadAsset _ _ _ _ Hcache). reflexivity. }
  unfold Renderer.handleMotionEvent.
  fold (pointer_index ev). fold (action_kind ev).
  unfold sbind at 1. rewrite Hptr. run.
  unfold is_down in Hdown. rewrite Hdown.
  unfold sbind at 1, get at 1. run. unfold sbind at 1.
  unfold GameActivityPointerAxes_getX, GameActivityPointerAxes_getY.
  rewrite Hx, Hy, Hrun. reflexivity.
Qed.

(** X20: with the surface size [W] x [H] cached (0 < W < 2^21, 0 < H <
    2^24) and the robot texture in the cache, a pointer-down at a
    corner of the surface, x in {0, float(W)} and y in {0, float(H)},
    creates the robot centred at exactly (-1.25 or 1.25, 2 or -2): the
    matching vertex of the quad of [createBackground]. *)
Theorem surface_corners_map_to_background_corners {AssetWorld : Type}
    (loadAsset : AssetWorld -> Z -> string -> shared_ptr TextureAsset * AssetWorld)
    (r : Renderer) (w : AssetWorld) (texture : TextureAsset)
    (ev : GameActivityMotionEvent) (pointer : GameActivityPointerAxes)
    (right bottom : bool) :
  0 < width_ r < 2 ^ 21 -> 0 < height_ r < 2 ^ 24 ->
  textureCache_ r !! "android_robot.png" = Some (Some texture) ->
  is_down ev = true ->
  pointers ev !! pointer_index ev = Some pointer ->
  axis_x pointer = (if right then F32.of_int (width_ r) else F32.zero) ->
  axis_y pointer = (if bottom then F32.of_int (height_ r) else F32.zero) ->
  let x := if right then F32.lit_1_25 else F32.opp F32.lit_1_25 in
  let y := if bottom then F32.opp F32.two else F32.two in
  Renderer.handleMotionEvent loadAsset ev (r, w) =
    Some (tt,
          (set_counter (set_models r (models_ r ++ [robot x y (counter r) texture]))
                       (bump (counter r)), w),
          []) ∧
  ∃ v, v ∈ vertices_ background ∧ v3x (position v) = x ∧ v3y (position v) = y.
Proof.
  intros HW HH Hcache Hdown Hptr Hx Hy x y.
  assert (HW' : 0 < width_ r < 2 ^ 24).
  { change (2 ^ 21) with 2097152 in HW. change (2 ^ 24) with 16777216. lia. }
  destruct (corner (width_ r) (height_ r) HW' HH) as [Hcx Hcy].
  split.
  - apply (handleMotionEvent_down_at loadAsset r w texture ev pointer);
      [assumption..| |].
    + rewrite Hx. unfold x. destruct right; [apply far_x, HW|exact Hcx].
    + rewrite Hy. unfold y. destruct bottom; [apply far_y, HH|exact Hcy].
  - exists (mkVertex x y F32.zero F32.zero F32.zero).
    split; [|split; reflexivity].
    unfold x, y, background. cbn [vertices_].
    destruct right, bottom;
      repeat first [apply list_elem_of_here | apply list_elem_of_further].
Qed.

(** *** A surface without height *)

(** X21: [render] does not guard the division [float(width_) /
    float(height_)]: when the surface reports the height 0 after another
    height, the frame uploads to both programs a projection whose aspect
    ratio is +infinity, or NaN when the width is 0 as well. *)
Theorem render_divides_by_a_height_of_zero (f : Frame) (r r' : Renderer) (t : Trace) :
  Renderer.render f r = Some (tt, r', t) ->
  query_height f = 0 -> height_ r ≠ 0 ->
  0 <= query_width f < 2 ^ 24 ->
  let ratio := if query_width f =? 0 then S754_nan else S754_infinity false in
  ∃ sh shRed,
    shader_ r = Some sh ∧ shaderRed_ r = Some shRed ∧
    UniformMatrix4fv (projectionMatrix_ sh) 1 false
      (OrthographicMatrix kProjectionHalfHeight ratio kProjectionNearPlane
         kProjectionFarPlane) ∈ t ∧
    UniformMatrix4fv (projectionMatrix_ shRed) 1 false
      (OrthographicMatrix kProjectionHalfHeight ratio kProjectionNearPlane
         kProjectionFarPlane) ∈ t.
Proof.
  intros Hrun Hzero Hne HW ratio.
  pose proof (render_inv f r _ Hrun) as Hdef.
  rewrite (render_run f r Hdef) in Hrun. injection Hrun as _ <-.
  assert (Hres : resized r (query_width f) (query_height f) = true).
  { unfold resized. rewrite Hzero.
    assert (E : (0 =? height_ r) = false) by (apply Z.eqb_neq; congruence).
    rewrite E. apply orb_true_r. }
  destruct Hdef as (Hsh & _). destruct (Hsh (or_introl Hres)) as [[sh Hs] [shRed Hr]].
  exists sh, shRed. split; [exact Hs|]. split; [exact Hr|].
  assert (Hratio : F32.div (F32.of_int (query_width f)) (F32.of_int (query_height f)) = ratio).
  { rewrite Hzero. unfold ratio.
    destruct (Z.eqb_spec (query_width f) 0) as [->|Hw]; [reflexivity|].
    destruct (of_int_exact (query_width f) ltac:(lia)) as (m & j & -> & _). reflexivity. }
  unfold frame_events. rewrite Hres, Hs, Hr. cbn [orb from_option].
  unfold upload_events, projection. rewrite Hratio.
  split; apply elem_of_app; right; apply elem_of_app; left.
  - apply list_elem_of_further, list_elem_of_here.
  - do 4 apply list_elem_of_further. apply list_elem_of_here.
Qed.

(** X20 at the bottom-right corner of the 1080 x 1920 surface. *)
Lemma surface_corners_map_to_background_corners_witness :
  Renderer.handleMotionEvent Examples.loader_ok (Examples.tap 1080 1920)
    (Examples.running, 1%nat)
  = Some (tt,
          (set_counter
             (set_models Examples.running
                (models_ Examples.running
                 ++ [robot F32.lit_1_25 (F32.opp F32.two) (counter Examples.running)
                       {| address := 0; textureID := 1 |}]))
             (bump (counter Examples.running)), 1%nat), []).
Proof.
  exact (proj1 (surface_corners_map_to_background_corners Examples.loader_ok
                  Examples.running 1%nat {| address := 0; textureID := 1 |}
                  (Examples.tap 1080 1920) _ true true
                  ltac:(vm_compute; split; reflexivity)
                  ltac:(vm_compute; split; reflexivity)
                  ltac:(vm_compute; reflexivity) eq_refl eq_refl
                  ltac:(vm_compute; reflexivity) ltac:(vm_compute; reflexivity))).
Defined.

(** X21 for the running renderer on a surface of 1080 x 0. *)
Lemma render_divides_by_a_height_of_zero_witness :
  ∃ r' t,
    Renderer.render Scenarios.flat Examples.running = Some (tt, r', t) ∧
    UniformMatrix4fv 0 1 false
      (OrthographicMatrix kProjectionHalfHeight (S754_infinity false) kProjectionNearPlane
         kProjectionFarPlane) ∈ t.
Proof.
  destruct (Renderer.render Scenarios.flat Examples.running) as [[[[] r'] t]|] eqn:Hrun;
    [|vm_compute in Hrun; discriminate Hrun].
  exists r', t. split; [reflexivity|].
  destruct (render_divides_by_a_height_of_zero Scenarios.flat Examples.running r' t Hrun)
    as (sh & shRed & Hs & _ & Hin & _).
  - reflexivity.
  - vm_compute. discriminate.
  - vm_compute. split; [discriminate|reflexivity].
  - vm_compute in Hs. injection Hs as <-. exact Hin.
Defined.

(** ** Renderer.cpp: depths and textures of the models created by input *)

(** the counter on its way: below 256, or resting there *)
Lemma bump_never_falls (c : float) :
  counting c ∨ c = F32.lit_256 ->
  (counting (bump c) ∨ bump c = F32.lit_256) ∧ F32.ltb (bump c) c = false.
Proof.
  intros [Hc | ->]; [|split; [right; reflexivity|reflexivity]].
  destruct (bump_counting c Hc) as [Hlt Hnext]. split; [exact Hnext|].
  destruct (F32.ltb (bump c) c) eqn:E; [|reflexivity].
  pose proof (ltb_trans _ _ _ Hlt E) as Habs. rewrite ltb_irrefl in Habs. discriminate.
Qed.

Lemma ltb_false_trans (x y z : float) :
  counting x ∨ x = F32.lit_256 -> counting y ∨ y = F32.lit_256 ->
  counting z ∨ z = F32.lit_256 ->
  F32.ltb y x = false -> F32.ltb z y = false -> F32.ltb z x = false.
Proof.
  assert (Hfin : ∀ c, counting c ∨ c = F32.lit_256 ->
                      ∃ m e, c = S754_finite false m e).
  { intros c [(m & e & -> & _) | ->]; eauto. }
  intros Hx Hy Hz.
  destruct (Hfin x Hx) as (mx & ex & ->). destruct (Hfin y Hy) as (my & ey & ->).
  destruct (Hfin z Hz) as (mz & ez & ->).
  unfold F32.ltb, SFltb, SFcompare.
  change IntDef.Z.compare with Z.compare.
  change PosDef.Pos.compare_cont with Pos.compare_cont.
  intros H1 H2.
  destruct (Z.compare_spec ey ex) as [E1|E1|E1]; try discriminate H1;
    destruct (Z.compare_spec ez ey) as [E2|E2|E2]; try discriminate H2; subst.
  - rewrite Z.compare_refl.
    change (Pos.compare_cont Eq my mx) with (Pos.compare my mx) in H1.
    change (Pos.compare_cont Eq mz my) with (Pos.compare mz my) in H2.
    change (Pos.compare_cont Eq mz mx) with (Pos.compare mz mx).
    destruct (Pos.compare_spec my mx); try discriminate H1;
      destruct (Pos.compare_spec mz my); try discriminate H2;
      destruct (Pos.compare_spec mz mx); try reflexivity; lia.
  - destruct (Z.compare_spec ez ex); try reflexivity; lia.
  - destruct (Z.compare_spec ey ex); try reflexivity; lia.
  - destruct (Z.compare_spec ez ex); try reflexivity; lia.
Qed.

Lemma depths_from_never_fall (c : float) (n : nat) (l : list Model) :
  depths_from c n l ->
  counting c ∨ c = F32.lit_256 ->
  Forall (fun m => ∃ z, depth_of m = Some z ∧ (counting z ∨ z = F32.lit_256)
                        ∧ F32.ltb z c = false) l.
Proof.
  induction 1 as [c n|c n l _ IH|c n m l Hd Ht _ IH]; intros Hc; [constructor| |].
  - destruct (bump_never_falls c Hc) as [Hn Hge].
    eapply Forall_impl; [exact (IH Hn)|].
    intros m (z & Hz & Hzc & Hlt). exists z. split; [exact Hz|]. split; [exact Hzc|].
    exact (ltb_false_trans c (bump c) z Hc Hn Hzc Hge Hlt).
  - destruct (bump_never_falls c Hc) as [Hn Hge].
    constructor.
    + exists c. split; [exact Hd|]. split; [exact Hc|apply ltb_irrefl].
    + eapply Forall_impl; [exact (IH Hn)|].
      intros m' (z & Hz & Hzc & Hlt). exists z. split; [exact Hz|]. split; [exact Hzc|].
      exact (ltb_false_trans c (bump c) z Hc Hn Hzc Hge Hlt).
Qed.

Lemma iter_bump_never_falls (n : nat) (c : float) :
  counting c ∨ c = F32.lit_256 ->
  (counting (Nat.iter n bump c) ∨ Nat.iter n bump c = F32.lit_256) ∧
  F32.ltb (Nat.iter n bump c) c = false.
Proof.
  intros Hc. induction n as [|n [IH1 IH2]]; [split; [exact Hc|apply ltb_irrefl]|].
  rewrite Nat.iter_succ. destruct (bump_never_falls _ IH1) as [Hn Hge].
  split; [exact Hn|]. exact (ltb_false_trans c _ _ Hc IH1 Hn IH2 Hge).
Qed.

Section Depths.
Context {AssetWorld : Type}.
Variable loadAsset : AssetWorld -> Z -> string -> shared_ptr TextureAsset * AssetWorld.

Local Abbreviation handleMotionEvent := (Renderer.handleMotionEvent loadAsset).
Local Abbreviation handleInput := (Renderer.handleInput loadAsset).

(** X22: from a counter that is a normal number from 2^-14 on below 256,
    or 256 itself, no depth ever falls: every model a buffer creates has
    a depth that is not below the counter the buffer found, the counter
    the buffer leaves is not below it either, and it is again below 256
    or 256, so that the same holds for the next buffer. *)
Theorem depths_never_fall_below_the_counter (buffer : android_input_buffer)
    (s s' : Renderer * AssetWorld) (t : Trace) :
  handleInput (Some buffer) s = Some (tt, s', t) ->
  counting (counter (fst s)) ∨ counter (fst s) = F32.lit_256 ->
  ∃ new,
    models_ (fst s') = models_ (fst s) ++ new ∧
    Forall (fun m => ∃ z, depth_of m = Some z ∧ F32.ltb z (counter (fst s)) = false) new ∧
    F32.ltb (counter (fst s')) (counter (fst s)) = false ∧
    (counting (counter (fst s')) ∨ counter (fst s') = F32.lit_256).
Proof.
  intros Hrun Hc.
  pose proof (handleInput_inv loadAsset buffer s _ Hrun) as Hwf.
  destruct (motionEvents_run loadAsset (motionEvents buffer) Hwf s)
    as (s1 & t1 & new & Hevs & Hcnt & Hm & Hfrom).
  rewrite (handleInput_events loadAsset buffer s s1 t1 Hevs) in Hrun.
  injection Hrun as <- _.
  exists new. split; [exact Hm|].
  destruct (iter_bump_never_falls (downs (motionEvents buffer)) _ Hc) as [Hn Hge].
  rewrite Hcnt. split; [|split; [exact Hge|exact Hn]].
  eapply Forall_impl; [exact (depths_from_never_fall _ _ _ Hfrom Hc)|].
  intros m (z & Hz & _ & Hlt). eauto.
Qed.

(** a well-formed event on a renderer that holds the robot texture *)
Lemma handleMotionEvent_cached (ev : GameActivityMotionEvent) (s : Renderer * AssetWorld)
    (texture : TextureAsset) :
  well_formed ev ->
  textureCache_ (fst s) !! "android_robot.png" = Some (Some texture) ->
  ∃ s' new,
    handleMotionEvent ev s = Some (tt, s', []) ∧
    snd s' = snd s ∧
    models_ (fst s') = models_ (fst s) ++ new ∧
    Forall (fun m => spTexture_ m = Some texture) new ∧
    length new = (if is_down ev then 1 else 0)%nat ∧
    textureCache_ (fst s') = textureCache_ (fst s).
Proof.
  intros Hwf Hcache. destruct (is_down ev) eqn:Hd.
  2:{ exists s, []. split; [exact (handleMotionEvent_other loadAsset ev s Hwf Hd)|].
      rewrite app_nil_r. repeat split. constructor. }
  destruct Hwf as [Hidx _]. destruct (lookup_lt_is_Some_2 _ _ Hidx) as [p Hp].
  destruct s as [r w]. cbn [fst snd] in *.
  eexists _, _. split.
  - exact (handleMotionEvent_down_at loadAsset r w texture ev p _ _ Hcache Hd Hp
             eq_refl eq_refl).
  - cbn [fst snd models_ textureCache_ set_counter set_models].
    repeat split. constructor; [reflexivity|constructor].
Qed.

(** X23: once the robot texture is in the cache, input never calls the
    loader and every pointer-down creates a model: a well-formed buffer
    appends exactly as many models as it has pointer-downs, all of them
    holding the cached texture object; cache and asset store are as
    before. *)
Theorem cached_texture_is_shared_by_every_robot (buffer : android_input_buffer)
    (s : Renderer * AssetWorld) (texture : TextureAsset) :
  textureCache_ (fst s) !! "android_robot.png" = Some (Some texture) ->
  Forall well_formed (motionEvents buffer) ->
  ∃ s' new,
    handleInput (Some buffer) s = Some (tt, s', [ClearMotionEvents; ClearKeyEvents]) ∧
    snd s' = snd s ∧
    textureCache_ (fst s') = textureCache_ (fst s) ∧
    models_ (fst s') = models_ (fst s) ++ new ∧
    length new = downs (motionEvents buffer) ∧
    Forall (fun m => spTexture_ m = Some texture) new.
Proof.
  intros Hcache Hwf.
  assert (Hrun : ∃ s' new,
            for_each (motionEvents buffer) handleMotionEvent s = Some (tt, s', []) ∧
            snd s' = snd s ∧
            textureCache_ (fst s') = textureCache_ (fst s) ∧
            models_ (fst s') = models_ (fst s) ++ new ∧
            length new = downs (motionEvents buffer) ∧
            Forall (fun m => spTexture_ m = Some texture) new).
  { revert s Hcache. induction Hwf as [|ev evs Hev _ IH]; intros s Hcache.
    { exists s, []. rewrite app_nil_r. repeat split. constructor. }
    destruct (handleMotionEvent_cached ev s texture Hev Hcache)
      as (s1 & new1 & Hrun1 & Hw1 & Hm1 & Ht1 & Hl1 & Hc1).
    rewrite <- Hc1 in Hcache.
    destruct (IH s1 Hcache) as (s2 & new2 & Hrun2 & Hw2 & Hc2 & Hm2 & Hl2 & Ht2).
    exists s2, (new1 ++ new2).
    split; [exact (for_each_cons ev evs _ s s1 s2 [] [] Hrun1 Hrun2)|].
    split; [congruence|]. split; [congruence|].
    split; [rewrite Hm2, Hm1, app_assoc; reflexivity|].
    split; [|apply Forall_app; split; assumption].
    rewrite length_app, Hl1, Hl2. cbn [downs]. destruct (is_down ev); reflexivity. }
  destruct Hrun as (s' & new & Hrun & Hrest).
  exists s', new. split; [|exact Hrest].
  exact (handleInput_events loadAsset buffer s s' [] Hrun).
Qed.

(** X24: whatever the buffer, input handling that returns has touched
    nothing but the textured list, the texture cache and the depth
    counter: application pointer, EGL handles, cached size, rebuild
    flag, both programs and the solid-color list are as before; the
    textured list has only been appended to; no cache entry has been
    removed or replaced and only the entry of the robot image can be
    new; a cache without null handle stays so; and the only events are
    loads of the robot image and the two calls that hand the buffer
    back -- no GL or EGL call. *)
Theorem handleInput_touches_models_cache_and_counter_only
    (inputBuffer : option android_input_buffer) (s s' : Renderer * AssetWorld) (t : Trace) :
  handleInput inputBuffer s = Some (tt, s', t) ->
  let r := fst s in
  let r' := fst s' in
  (app_ r' = app_ r ∧ display_ r' = display_ r ∧ surface_ r' = surface_ r ∧
   context_ r' = context_ r ∧ width_ r' = width_ r ∧ height_ r' = height_ r ∧
   shaderNeedsNewProjectionMatrix_ r' = shaderNeedsNewProjectionMatrix_ r ∧
   shader_ r' = shader_ r ∧ shaderRed_ r' = shaderRed_ r ∧
   modelsRed_ r' = modelsRed_ r) ∧
  (∃ new, models_ r' = models_ r ++ new) ∧
  (∀ key v, textureCache_ r !! key = Some v -> textureCache_ r' !! key = Some v) ∧
  (∀ key, key ≠ "android_robot.png" -> textureCache_ r' !! key = textureCache_ r !! key) ∧
  (cache_sound r -> cache_sound r') ∧
  Forall input_event t.
Proof.
  intros Hrun r r'.
  destruct (handleInput_effect loadAsset inputBuffer s s' t Hrun) as (Hs & Hrest).
  split; [exact (proj1 (same_setup_fields _ _) Hs)|exact Hrest].
Qed.

End Depths.

(** X22 for two taps on the renderer whose counter rests at 256. *)
Lemma depths_never_fall_below_the_counter_witness :
  ∃ s' t new,
    Renderer.handleInput Examples.loader_ok (Some Examples.two_taps)
      (Examples.stalled, 1%nat) = Some (tt, s', t) ∧
    models_ (fst s') = models_ Examples.stalled ++ new ∧
    Forall (fun m => ∃ z, depth_of m = Some z ∧ F32.ltb z F32.lit_256 = false) new ∧
    F32.ltb (counter (fst s')) F32.lit_256 = false.
Proof.
  destruct (Renderer.handleInput Examples.loader_ok (Some Examples.two_taps)
              (Examples.stalled, 1%nat)) as [[[[] s'] t]|] eqn:Hrun;
    [|vm_compute in Hrun; discriminate Hrun].
  destruct (depths_never_fall_below_the_counter Examples.loader_ok Examples.two_taps
              _ s' t Hrun ltac:(right; reflexivity)) as (new & Hm & Hd & Hc & _).
  exists s', t, new. split; [reflexivity|]. auto.
Defined.

(** X23 for two taps with a move in between, after the first frame. *)
Lemma cached_texture_is_shared_by_every_robot_witness :
  ∃ s' new,
    Renderer.handleInput Examples.loader_ok (Some Examples.two_taps)
      (Examples.running, 1%nat)
      = Some (tt, s', [ClearMotionEvents; ClearKeyEvents]) ∧
    models_ (fst s') = models_ Examples.running ++ new ∧
    length new = 2%nat ∧
    Forall (fun m => spTexture_ m = Some {| address := 0; textureID := 1 |}) new.
Proof.
  destruct (cached_texture_is_shared_by_every_robot Examples.loader_ok Examples.two_taps
              (Examples.running, 1%nat) {| address := 0; textureID := 1 |})
    as (s' & new & Hrun & _ & _ & Hm & Hl & Ht).
  - vm_compute. reflexivity.
  - repeat (constructor; [split; [vm_compute; lia|intros _; vm_compute; lia]|]).
    constructor.
  - exists s', new. auto.
Defined.

(** X24 for two taps before the first frame. *)
Lemma handleInput_touches_models_cache_and_counter_only_witness :
  ∃ s' t,
    Renderer.handleInput Examples.loader_ok (Some Examples.two_taps)
      (Examples.ready, 1%nat) = Some (tt, s', t) ∧
    width_ (fst s') = -1 ∧ modelsRed_ (fst s') = modelsRed_ Examples.ready ∧
    Forall input_event t.
Proof.
  destruct (Renderer.handleInput Examples.loader_ok (Some Examples.two_taps)
              (Examples.ready, 1%nat)) as [[[[] s'] t]|] eqn:Hrun;
    [|vm_compute in Hrun; discriminate Hrun].
  destruct (handleInput_touches_models_cache_and_counter_only Examples.loader_ok _ _ s' t Hrun)
    as ((_ & _ & _ & _ & Hw & _ & _ & _ & _ & Hmr) & _ & _ & _ & _ & Ht).
  exists s', t. split; [reflexivity|]. split; [exact Hw|]. split; [exact Hmr|exact Ht].
Defined.

(** ** Renderer.cpp: from initialisation to teardown *)

(** the destructor on a renderer whose display connection is open *)
Lemma destructor_run (r : Renderer) :
  display_ r ≠ EGL_NO_DISPLAY ->
  Renderer.destructor r =
    Some (tt, set_egl r EGL_NO_DISPLAY EGL_NO_SURFACE EGL_NO_CONTEXT,
          [EglMakeCurrent (display_ r) EGL_NO_SURFACE EGL_NO_SURFACE EGL_NO_CONTEXT] ++
          (if context_ r =? EGL_NO_CONTEXT then []
           else [EglDestroyContext (display_ r) (context_ r)]) ++
          (if surface_ r =? EGL_NO_SURFACE then []
           else [EglDestroySurface (display_ r) (surface_ r)]) ++
          [EglTerminate (display_ r)]).
Proof.
  intros Hd. unfold Renderer.destructor.
  unfold sbind at 1, get at 1. run.
  apply Z.eqb_neq in Hd. rewrite Hd. cbn [negb].
  destruct r as [a d s c w h n sh shr ms msr tc k]. cbn [display_ surface_ context_] in *.
  destruct (Z.eqb_spec c EGL_NO_CONTEXT) as [->|Hc];
    destruct (Z.eqb_spec s EGL_NO_SURFACE) as [->|Hs]; reflexivity.
Qed.

(** X25: the destructor of a renderer that [initRenderer] has set up on an
    open display releases what the initialisation made current: it
    unbinds the context, destroys the context and the surface that were
    created (one that is null is skipped) and terminates the display,
    leaving the three handles null. *)
Theorem teardown_releases_what_initialisation_created {AssetWorld : Type}
    (loadAsset : AssetWorld -> Z -> string -> shared_ptr TextureAsset * AssetWorld)
    (env : InitEnv) (s s' : Renderer * AssetWorld) (t : Trace) :
  Renderer.initRenderer loadAsset env s = Some (tt, s', t) ->
  init_display env ≠ EGL_NO_DISPLAY ->
  let display := init_display env in
  Renderer.destructor (fst s') =
    Some (tt, set_egl (fst s') EGL_NO_DISPLAY EGL_NO_SURFACE EGL_NO_CONTEXT,
          [EglMakeCurrent display EGL_NO_SURFACE EGL_NO_SURFACE EGL_NO_CONTEXT] ++
          (if init_context env =? EGL_NO_CONTEXT then []
           else [EglDestroyContext display (init_context env)]) ++
          (if init_surface env =? EGL_NO_SURFACE then []
           else [EglDestroySurface display (init_surface env)]) ++
          [EglTerminate display]) ∧
  In (EglMakeCurrent display (init_surface env) (init_surface env) (init_context env)) t.
Proof.
  destruct s as [r w]. intros Hrun Hd display.
  destruct (initRenderer_inv loadAsset env r w _ Hrun)
    as (Hc & sh & shRed & t1 & t2 & t3 & h & rc & wc & H1 & H2 & Hfetch & Hx).
  injection Hx as -> ->.
  destruct (getOrLoadTexture_frame loadAsset _ _ _ _ _ _ _ Hfetch) as (Hrc & _).
  split; [|left; reflexivity].
  cbn [fst]. rewrite destructor_run.
  - rewrite Hrc. reflexivity.
  - rewrite Hrc. exact Hd.
Qed.

(** X25 after the initialisation of the blank renderer. *)
Lemma teardown_releases_what_initialisation_created_witness :
  ∃ s' t,
    Renderer.initRenderer Examples.loader_ok Examples.env_ok (Examples.blank, 0%nat)
      = Some (tt, s', t) ∧
    Renderer.destructor (fst s') =
      Some (tt, set_egl (fst s') EGL_NO_DISPLAY EGL_NO_SURFACE EGL_NO_CONTEXT,
            [EglMakeCurrent 11 0 0 0; EglDestroyContext 11 13; EglDestroySurface 11 12;
             EglTerminate 11]).
Proof.
  destruct (Renderer.initRenderer Examples.loader_ok Examples.env_ok (Examples.blank, 0%nat))
    as [[[[] s'] t]|] eqn:Hrun; [|vm_compute in Hrun; discriminate Hrun].
  exists s', t. split; [reflexivity|].
  exact (proj1 (teardown_releases_what_initialisation_created Examples.loader_ok
                  Examples.env_ok _ s' t Hrun ltac:(vm_compute; discriminate))).
Defined.
